(** * wlg: a workload mix generator -- verification of [wlg.c]

    The development embeds the time utilities, the worker models, the
    command line handling and the start protocol of [src/wlg.c], and proves
    or refutes the properties its specification states about them.

    C data model (Linux, LP64, IEEE 754):
    - [uint8_t], [uint32_t]: integers in [Z] reduced modulo 2^8 and 2^32;
    - [long] (the two fields of [struct timespec]): integers in [Z] reduced
      to the two's complement range of 64 bits;
    - [float] and [double]: binary32 and binary64 of [SpecFloat], every
      operation rounded to nearest, ties to even;
    - threads: an interleaving of the atomic steps of [main] and of the
      workers, with the POSIX mutex and condition variable.

    Part I holds the embedding, Part II the proofs. *)

From Stdlib Require Import Reals Lra.
From Stdlib Require Import ZArith Lia Bool List Arith.
From Stdlib Require Import Ascii String.
From Stdlib Require Import Floats.SpecFloat.
Import ListNotations.

Local Open Scope Z_scope.

(** * Part I: the embedding *)

(** ** Machine integers *)

Definition u8 (x : Z) : Z := x mod 2 ^ 8.
Definition u32 (x : Z) : Z := x mod 2 ^ 32.
Definition s64 (x : Z) : Z := (x + 2 ^ 63) mod 2 ^ 64 - 2 ^ 63.

Definition is_u32 (x : Z) : Prop := 0 <= x < 2 ^ 32.
Definition is_s64 (x : Z) : Prop := - 2 ^ 63 <= x < 2 ^ 63.

(** ** Time management utilities *)

Definition US_TO_NS : Z := 1000.
Definition S_TO_MS : Z := 1000.
Definition MS_TO_NS : Z := 1000000.
Definition S_TO_US : Z := 1000000.
Definition S_TO_NS : Z := 1000000000.

(** [struct timespec]: both fields are [long]. *)
Record timespec : Set := mkts { tv_sec : Z; tv_nsec : Z }.

Definition normalized (ts : timespec) : Prop := 0 <= tv_nsec ts < S_TO_NS.

(** The three adders update [*ts] in place; the embedding returns the new
    value of [*ts].  [sec] and the reduced amount are [uint32_t]; the
    product with the [int] constant is computed in [unsigned int], and the
    sums are computed in [long].  C's [/] and [%] truncate: [Z.quot] and
    [Z.rem]. *)
Definition timespec_add_ms (ts : timespec) (ms : Z) : timespec :=
  let sec := u32 (ms / S_TO_MS) in
  let ms := u32 (ms - u32 (sec * S_TO_MS)) in
  let nsec := s64 (tv_nsec ts + u32 (ms * MS_TO_NS)) in
  {| tv_sec := s64 (tv_sec ts + s64 (Z.quot nsec S_TO_NS + sec));
     tv_nsec := Z.rem nsec S_TO_NS |}.

Definition timespec_add_us (ts : timespec) (us : Z) : timespec :=
  let sec := u32 (us / S_TO_US) in
  let us := u32 (us - u32 (sec * S_TO_US)) in
  let nsec := s64 (tv_nsec ts + u32 (us * US_TO_NS)) in
  {| tv_sec := s64 (tv_sec ts + s64 (Z.quot nsec S_TO_NS + sec));
     tv_nsec := Z.rem nsec S_TO_NS |}.

Definition timespec_add_ns (ts : timespec) (ns : Z) : timespec :=
  let sec := u32 (ns / S_TO_NS) in
  let ns := u32 (ns - u32 (sec * S_TO_NS)) in
  let nsec := s64 (tv_nsec ts + ns) in
  {| tv_sec := s64 (tv_sec ts + s64 (Z.quot nsec S_TO_NS + sec));
     tv_nsec := Z.rem nsec S_TO_NS |}.

(** [timespec_older a b]: not null if [a] is older than [b]. *)
Definition timespec_older (a b : timespec) : Z :=
  if tv_sec a >? tv_sec b then 1
  else if tv_sec a <? tv_sec b then 0
  else if tv_nsec a >=? tv_nsec b then 1
  else 0.

(** [timespec_subtract a b] computes [a = a - b]; the new [*a] is returned. *)
Definition timespec_subtract (a b : timespec) : timespec :=
  let nsec := s64 (tv_nsec a - tv_nsec b) in
  let a1 :=
    if nsec <? 0
    then {| tv_sec := s64 (tv_sec a - 1); tv_nsec := s64 (nsec + S_TO_NS) |}
    else {| tv_sec := tv_sec a; tv_nsec := nsec |} in
  {| tv_sec := s64 (tv_sec a1 - tv_sec b); tv_nsec := tv_nsec a1 |}.

(** A microsecond amount as normalized (seconds, nanoseconds). *)
Definition us_to_timespec (us : Z) : timespec :=
  {| tv_sec := us / S_TO_US; tv_nsec := (us mod S_TO_US) * US_TO_NS |}.

(** ** Floating-point arithmetic of the workers *)

(** [(float) x] for an unsigned integer [x]. *)
Definition float_of_uint32 (x : Z) : spec_float := binary_normalize 24 128 x 0 false.

(** [(double) x] for an integer [x]; also the constant [100.0]. *)
Definition double_of_int (x : Z) : spec_float := binary_normalize 53 1024 x 0 false.

(** The promotion of a [float] operand to [double]. *)
Definition double_of_float (x : spec_float) : spec_float :=
  match x with
  | S754_finite s m e => binary_round 53 1024 s m e
  | _ => x
  end.

Definition double_mul : spec_float -> spec_float -> spec_float := SFmul 53 1024.
Definition double_div : spec_float -> spec_float -> spec_float := SFdiv 53 1024.

(** Truncation toward zero of a finite number. *)
Definition double_trunc (x : spec_float) : option Z :=
  match x with
  | S754_zero _ => Some 0
  | S754_finite s m e =>
      Some (cond_Zopp s
              match e with
              | Zneg p => Zpos m / 2 ^ Zpos p
              | _ => Zpos m * 2 ^ e
              end)
  | _ => None
  end.

(** Conversion of a [double] to [uint32_t]: the truncated value, and
    undefined ([None]) when that is not a [uint32_t]. *)
Definition uint32_of_double (x : spec_float) : option Z :=
  match double_trunc x with
  | Some z => if (0 <=? z) && (z <? 2 ^ 32) then Some z else None
  | None => None
  end.

(** Powers of two with integer exponents, in the reals, and the reading of a
    positive normal number: [x] has sign [s] and magnitude [v]. *)
Definition bpow (e : Z) : R := powerRZ 2 e.

Definition normal (prec emax : Z) (s : bool) (v : R) (x : spec_float) : Prop :=
  exists m e,
    x = S754_finite s m e /\ v = (IZR (Zpos m) * bpow e)%R
    /\ 2 ^ (prec - 1) <= Zpos m < 2 ^ prec
    /\ emin prec emax <= e <= emax - prec.

(** The exponent at which [binary_round_aux] rounds the mantissa [mx] given
    with exponent [ex], and its result once the mantissa is known. *)
Definition round_exp (prec emax mx ex : Z) : Z :=
  Z.max ex (fexp prec emax (Zdigits2 mx + ex)).

Definition finite_or_overflow (prec emax : Z) (sx : bool) (m : positive) (e : Z)
  : spec_float :=
  if e <=? emax - prec then S754_finite sx m e else S754_infinity sx.

(** ** Workers *)

(** What a worker thread does to the outside: sleeps, spins, yields. *)
Inductive event : Set :=
| EvUsleep (us : Z)
| EvBusyLoop
| EvYield.

(** The environment of one worker thread: the successive readings of
    [CLOCK_MONOTONIC_RAW] it obtains and the successive values of
    [random ()]. *)
Record env : Type := mkenv { clock : nat -> timespec; random : nat -> Z }.

(** The number of clock readings and of random draws made so far, and the
    events so far, oldest first. *)
Record wstate : Set := mkws { clk : nat; rnd : nat; trace : list event }.

(** A run either returns, or has not returned within the given number of
    loop iterations, or has undefined behaviour. *)
Inductive result (A : Type) : Type :=
| Done (a : A)
| OutOfFuel
| Undefined.
Arguments Done {A} a.
Arguments OutOfFuel {A}.
Arguments Undefined {A}.

Definition bind {A B : Type} (r : result A) (k : A -> result B) : result B :=
  match r with
  | Done a => k a
  | OutOfFuel => OutOfFuel
  | Undefined => Undefined
  end.

Definition of_option {A : Type} (o : option A) : result A :=
  match o with
  | Some a => Done a
  | None => Undefined
  end.

(** Worker kinds and [struct wdata]; the union of parameters holds two
    [uint32_t] under three pairs of names. *)
Inductive worker_kind : Set :=
| WORKER_BATCH
| WORKER_INTERACTIVE
| WORKER_PERIODC
| WORKER_YIELD.

Record wdata : Set := mkwdata {
  wd_id : Z;
  wd_pid : Z;
  wd_kind : worker_kind;
  wd_params : Z * Z
}.

Definition interval_max (wd : wdata) : Z := fst (wd_params wd).
Definition duration_max (wd : wdata) : Z := snd (wd_params wd).
Definition period_duration (wd : wdata) : Z := fst (wd_params wd).
Definition period_duty_cycle (wd : wdata) : Z := snd (wd_params wd).
Definition yield_period (wd : wdata) : Z := fst (wd_params wd).
Definition yield_interval (wd : wdata) : Z := snd (wd_params wd).

(** [RAND_MAX] of the GNU C library, the largest value of [random ()]. *)
Definition RAND_MAX : Z := 2147483647.

(** [normal_random max_value], given the value [rnd] that [random ()]
    returns. *)
Definition normal_random (max_value rnd : Z) : option Z :=
  let value := double_of_int max_value in
  let value := double_mul value (double_of_int rnd) in
  let value := double_div value (double_of_int RAND_MAX) in
  uint32_of_double value.

(** The processing time of [worker_periodic]:
    [(float) duration * ((float) duty_cycle / 100.0)] stored in a
    [uint32_t], and its sleep time [duration - process]. *)
Definition periodic_process (duration duty_cycle : Z) : option Z :=
  uint32_of_double
    (double_mul (double_of_float (float_of_uint32 duration))
       (double_div (double_of_float (float_of_uint32 duty_cycle))
          (double_of_int 100))).

Definition periodic_sleep (duration process : Z) : Z := u32 (duration - process).

Section Worker.

Variable E : env.

Definition clock_gettime (s : wstate) : timespec * wstate :=
  (clock E (clk s), {| clk := S (clk s); rnd := rnd s; trace := trace s |}).

Definition next_random (s : wstate) : Z * wstate :=
  (random E (rnd s), {| clk := clk s; rnd := S (rnd s); trace := trace s |}).

Definition emit (e : event) (s : wstate) : wstate :=
  {| clk := clk s; rnd := rnd s; trace := trace s ++ [e] |}.

(** [busy_loop]: a volatile 16-bit counter incremented until it wraps. *)
Definition busy_loop (s : wstate) : wstate := emit EvBusyLoop s.

Definition usleep (us : Z) (s : wstate) : wstate := emit (EvUsleep us) s.

(** The polling loop of the three timed workers:
    [while (1) { clock_gettime (now); if (timespec_older (now, end)) break;
    busy_loop (); }]. *)
Fixpoint spin_until (fuel : nat) (end_ts : timespec) (s : wstate) : result wstate :=
  match fuel with
  | O => OutOfFuel
  | S fuel' =>
      let (now_ts, s1) := clock_gettime s in
      if timespec_older now_ts end_ts =? 0
      then spin_until fuel' end_ts (busy_loop s1)
      else Done s1
  end.

Definition worker_batch (s : wstate) : result wstate := Done (busy_loop s).

Definition worker_interactive (fuel : nat) (wd : wdata) (s : wstate) : result wstate :=
  let (r1, s) := next_random s in
  bind (of_option (normal_random (interval_max wd) r1)) (fun delay =>
  let s := usleep delay s in
  let (r2, s) := next_random s in
  bind (of_option (normal_random (duration_max wd) r2)) (fun process =>
  let (end_ts, s) := clock_gettime s in
  let end_ts := timespec_add_us end_ts process in
  spin_until fuel end_ts s)).

Definition worker_periodic (fuel : nat) (wd : wdata) (s : wstate) : result wstate :=
  bind (of_option (periodic_process (period_duration wd) (period_duty_cycle wd)))
    (fun process =>
  let sleep := periodic_sleep (period_duration wd) process in
  let s := usleep sleep s in
  let (end_ts, s) := clock_gettime s in
  let end_ts := timespec_add_us end_ts process in
  spin_until fuel end_ts s).

(** The second loop of [worker_yield]. *)
Fixpoint yield_loop (fuel : nat) (interval : Z) (end_ts yield_ts : timespec)
  (s : wstate) : result wstate :=
  match fuel with
  | O => OutOfFuel
  | S fuel' =>
      let (now_ts, s1) := clock_gettime s in
      if timespec_older now_ts end_ts =? 0
      then
        if timespec_older now_ts yield_ts =? 0
        then yield_loop fuel' interval end_ts yield_ts s1
        else yield_loop fuel' interval end_ts
               (timespec_add_us yield_ts interval) (emit EvYield s1)
      else Done s1
  end.

Definition worker_yield (fuel : nat) (wd : wdata) (s : wstate) : result wstate :=
  let period := yield_period wd in
  let interval := yield_interval wd in
  let (end_ts, s) := clock_gettime s in
  let end_ts := timespec_add_us end_ts period in
  bind (spin_until fuel end_ts s) (fun s =>
  let (end_ts, s) := clock_gettime s in
  let end_ts := timespec_add_us end_ts period in
  let (yield_ts, s) := clock_gettime s in
  let yield_ts := timespec_add_us yield_ts interval in
  yield_loop fuel interval end_ts yield_ts s).

(** The [switch] on the worker kind. *)
Definition do_workload (fuel : nat) (wd : wdata) (s : wstate) : result wstate :=
  match wd_kind wd with
  | WORKER_BATCH => worker_batch s
  | WORKER_INTERACTIVE => worker_interactive fuel wd s
  | WORKER_PERIODC => worker_periodic fuel wd s
  | WORKER_YIELD => worker_yield fuel wd s
  end.

(** The loop of [worker], from the check of the end of the test on. *)
Fixpoint worker_loop (fuel : nat) (end_ts : timespec) (wd : wdata) (s : wstate)
  : result wstate :=
  match fuel with
  | O => OutOfFuel
  | S fuel' =>
      let (now_ts, s1) := clock_gettime s in
      if timespec_older now_ts end_ts =? 0
      then bind (do_workload fuel' wd s1) (worker_loop fuel' end_ts wd)
      else Done s1
  end.

(** The termination time that [worker] sets up once [sync_start] has
    returned: a clock reading of its own, [conf_td] seconds later. *)
Definition worker_deadline (conf_td : Z) (now_ts : timespec) : timespec :=
  {| tv_sec := s64 (tv_sec now_ts + conf_td); tv_nsec := tv_nsec now_ts |}.

(** [worker], from the return of [sync_start] on. *)
Definition worker (fuel : nat) (conf_td : Z) (wd : wdata) (s : wstate)
  : result wstate :=
  let (end_ts, s) := clock_gettime s in
  worker_loop fuel (worker_deadline conf_td end_ts) wd s.

(** [loop_run end_ts wd k s s']: from [s] the loop of [worker] samples the
    clock before [end_ts] and runs the workload, [k] times, then samples
    the clock at or after [end_ts] and stops in [s']. *)
Inductive loop_run (end_ts : timespec) (wd : wdata) : nat -> wstate -> wstate -> Prop :=
| loop_stop s :
    timespec_older (clock E (clk s)) end_ts <> 0 ->
    loop_run end_ts wd O s (snd (clock_gettime s))
| loop_iter k fuel s s1 s2 :
    timespec_older (clock E (clk s)) end_ts = 0 ->
    do_workload fuel wd (snd (clock_gettime s)) = Done s1 ->
    loop_run end_ts wd k s1 s2 ->
    loop_run end_ts wd (S k) s s2.

(** The clock never goes back; two successive readings are at most [step]
    seconds apart; the clock gets to [sec] seconds. *)
Definition clock_monotone : Prop :=
  forall i j, (i <= j)%nat -> timespec_older (clock E j) (clock E i) <> 0.

Definition clock_step (step : Z) : Prop :=
  forall i, tv_sec (clock E (S i)) <= tv_sec (clock E i) + step.

Definition clock_gets_to (sec : Z) : Prop :=
  exists j, sec <= tv_sec (clock E j).

(** The parameters and the random values for which the conversions to
    [uint32_t] in the workload are defined. *)
Definition workload_defined (wd : wdata) : Prop :=
  match wd_kind wd with
  | WORKER_BATCH => True
  | WORKER_INTERACTIVE =>
      is_u32 (interval_max wd) /\ is_u32 (duration_max wd)
      /\ forall n, 0 <= random E n <= RAND_MAX
  | WORKER_PERIODC =>
      exists process,
        periodic_process (period_duration wd) (period_duty_cycle wd) = Some process
  | WORKER_YIELD => is_u32 (yield_period wd)
  end.

End Worker.

(** ** Command line and set-up of the workers *)

(** *** Scanning, as the C library does it *)

Definition is_space (c : ascii) : bool :=
  let n := nat_of_ascii c in
  orb (Nat.eqb n 32) (andb (Nat.leb 9 n) (Nat.leb n 13)).

Definition digit_of (c : ascii) : option Z :=
  let n := Z.of_nat (nat_of_ascii c) in
  if (48 <=? n) && (n <=? 57) then Some (n - 48) else None.

Fixpoint skip_spaces (s : string) : string :=
  match s with
  | String c s' => if is_space c then skip_spaces s' else s
  | EmptyString => s
  end.

(** The decimal digits at the head of [s]; [acc] is [None] until a digit
    has been read. *)
Fixpoint scan_digits (s : string) (acc : option Z) : option Z :=
  match s with
  | String c s' =>
      match digit_of c with
      | Some d =>
          scan_digits s' (Some (10 * match acc with Some a => a | None => 0 end + d))
      | None => acc
      end
  | EmptyString => acc
  end.

(** Sign and magnitude of the integer at the head of [s], if there is one. *)
Definition scan_integer (s : string) : option (bool * Z) :=
  match skip_spaces s with
  | String c s' =>
      if Ascii.eqb c "-" then option_map (pair true) (scan_digits s' None)
      else if Ascii.eqb c "+" then option_map (pair false) (scan_digits s' None)
      else option_map (pair false) (scan_digits (String c s') None)
  | EmptyString => None
  end.

Definition strtoul_value (neg : bool) (d : Z) : Z :=
  if d >? 2 ^ 64 - 1 then 2 ^ 64 - 1
  else if neg then (2 ^ 64 - d) mod 2 ^ 64 else d.

Definition strtol_value (neg : bool) (d : Z) : Z :=
  Z.max (- 2 ^ 63) (Z.min (2 ^ 63 - 1) (if neg then - d else d)).

(** [sscanf (s, "%hhu", &x)]: the value stored in [x], or [None] when the
    call returns less than 1. *)
Definition sscanf_hhu (s : string) : option Z :=
  option_map (fun nd => u8 (strtoul_value (fst nd) (snd nd))) (scan_integer s).

(** [sscanf (s, "%d", &p)] for [uint32_t p]. *)
Definition sscanf_d (s : string) : option Z :=
  option_map (fun nd => u32 (strtol_value (fst nd) (snd nd))) (scan_integer s).

(** [strsep (&stringp, ",")]: the token and the new [stringp]. *)
Fixpoint split_comma (s : string) : string * option string :=
  match s with
  | EmptyString => (EmptyString, None)
  | String c s' =>
      if Ascii.eqb c ","
      then (EmptyString, Some s')
      else let (t, r) := split_comma s' in (String c t, r)
  end.

Definition strsep (stringp : option string) : option string * option string :=
  match stringp with
  | None => (None, None)
  | Some s => let (t, r) := split_comma s in (Some t, r)
  end.

(** *** [parse_cmdline] *)

(** What [getopt_long] returns, one item per call: an option of
    ["b:d:hi:p:y:"] with its argument, the long option [--verbose] (which
    stores 1 in [conf_vr] and returns 0), or ['?']. *)
Inductive getopt_item : Set :=
| Opt (c : ascii) (optarg : string)
| LongFlag
| Unknown.

Record conf : Set := mkconf {
  conf_vr : Z;
  conf_bw : Z;
  conf_iw : Z;
  conf_pw : Z;
  conf_yw : Z;
  conf_td : Z;
  conf_iparams : option string;
  conf_pparams : option string;
  conf_yparams : option string
}.

Definition conf_init : conf :=
  {| conf_vr := 0; conf_bw := 0; conf_iw := 0; conf_pw := 0; conf_yw := 0;
     conf_td := 5;
     conf_iparams := None; conf_pparams := None; conf_yparams := None |}.

(** How a phase of the process ends: it goes on, or the process exits with
    a status, is aborted, or dereferences a null pointer. *)
Inductive outcome (A : Type) : Type :=
| Ok (a : A)
| Exit (status : Z)
| Abort
| Fault.
Arguments Ok {A} a.
Arguments Exit {A} status.
Arguments Abort {A}.
Arguments Fault {A}.

(** [exit (code)]: the status is the low byte of [code]. *)
Definition exit {A : Type} (code : Z) : outcome A := Exit (code mod 256).

Definition set_bw (c : conf) (v : Z) : conf :=
  {| conf_vr := conf_vr c; conf_bw := v; conf_iw := conf_iw c;
     conf_pw := conf_pw c; conf_yw := conf_yw c; conf_td := conf_td c;
     conf_iparams := conf_iparams c; conf_pparams := conf_pparams c;
     conf_yparams := conf_yparams c |}.

Definition set_td (c : conf) (v : Z) : conf :=
  {| conf_vr := conf_vr c; conf_bw := conf_bw c; conf_iw := conf_iw c;
     conf_pw := conf_pw c; conf_yw := conf_yw c; conf_td := v;
     conf_iparams := conf_iparams c; conf_pparams := conf_pparams c;
     conf_yparams := conf_yparams c |}.

Definition set_iw (c : conf) (v : Z) (optarg : string) : conf :=
  {| conf_vr := conf_vr c; conf_bw := conf_bw c; conf_iw := v;
     conf_pw := conf_pw c; conf_yw := conf_yw c; conf_td := conf_td c;
     conf_iparams := Some optarg; conf_pparams := conf_pparams c;
     conf_yparams := conf_yparams c |}.

Definition set_pw (c : conf) (v : Z) (optarg : string) : conf :=
  {| conf_vr := conf_vr c; conf_bw := conf_bw c; conf_iw := conf_iw c;
     conf_pw := v; conf_yw := conf_yw c; conf_td := conf_td c;
     conf_iparams := conf_iparams c; conf_pparams := Some optarg;
     conf_yparams := conf_yparams c |}.

Definition set_yw (c : conf) (v : Z) (optarg : string) : conf :=
  {| conf_vr := conf_vr c; conf_bw := conf_bw c; conf_iw := conf_iw c;
     conf_pw := conf_pw c; conf_yw := v; conf_td := conf_td c;
     conf_iparams := conf_iparams c; conf_pparams := conf_pparams c;
     conf_yparams := Some optarg |}.

(** One turn of the loop of [parse_cmdline]: the [switch] on the option. *)
Definition parse_option (c : conf) (o : getopt_item) : outcome conf :=
  match o with
  | Opt ch optarg =>
      if Ascii.eqb ch "b" then
        match sscanf_hhu optarg with
        | None => exit (-1)
        | Some v => Ok (set_bw c v)
        end
      else if Ascii.eqb ch "d" then
        match sscanf_hhu optarg with
        | None => Ok c
        | Some v => Ok (set_td c v)
        end
      else if Ascii.eqb ch "h" then exit 0
      else if Ascii.eqb ch "i" then
        match sscanf_hhu optarg with
        | None => exit (-1)
        | Some v => Ok (set_iw c v optarg)
        end
      else if Ascii.eqb ch "p" then
        match sscanf_hhu optarg with
        | None => exit (-1)
        | Some v => Ok (set_pw c v optarg)
        end
      else if Ascii.eqb ch "y" then
        match sscanf_hhu optarg with
        | None => exit (-1)
        | Some v => Ok (set_yw c v optarg)
        end
      else Abort
  | LongFlag => Abort
  | Unknown => Abort
  end.

Fixpoint parse_cmdline (opts : list getopt_item) (c : conf) : outcome conf :=
  match opts with
  | [] => Ok c
  | o :: opts' =>
      match parse_option c o with
      | Ok c' => parse_cmdline opts' c'
      | Exit st => Exit st
      | Abort => Abort
      | Fault => Fault
      end
  end.

(** *** The allocation of the workers in [main] *)

(** A worker launched: [pthread_create] succeeded for the entry [slot] of
    [workers_data]. *)
Inductive launch : Set :=
| Create (slot : Z) (wd : wdata).

(** The launches so far, oldest first, and how the phase ends. *)
Definition setup (A : Type) : Type := (list launch * outcome A)%type.

Definition sret {A : Type} (a : A) : setup A := ([], Ok a).

Definition sfail {A : Type} (o : outcome A) : setup A := ([], o).

Definition sbind {A B : Type} (m : setup A) (k : A -> setup B) : setup B :=
  match m with
  | (l, Ok a) => let (l', o) := k a in (l ++ l', o)
  | (l, Exit st) => (l, Exit st)
  | (l, Abort) => (l, Abort)
  | (l, Fault) => (l, Fault)
  end.

(** Whether [pthread_create] succeeds for a slot is up to the system. *)
Record runtime : Type := mkrt { pthread_create_ok : Z -> bool }.

Definition create_worker (rt : runtime) (slot : Z) (wd : wdata) : setup unit :=
  if pthread_create_ok rt slot then ([Create slot wd], Ok tt) else sfail (exit (-1)).

(** [sscanf (param, "%d", &p)]: [p] keeps its value when nothing is
    converted; [param] must not be null. *)
Definition scan_param (param : option string) (p : Z) : outcome Z :=
  match param with
  | None => Fault
  | Some t => Ok match sscanf_d t with Some v => v | None => p end
  end.

(** The checks on the two parameters of a worker. *)
Definition rejects (kind : worker_kind) (p1 p2 : Z) : bool :=
  match kind with
  | WORKER_PERIODC => p2 >? 100
  | WORKER_YIELD => p2 >? p1
  | _ => false
  end.

Fixpoint alloc_batch (rt : runtime) (n : nat) (i w : Z) : setup unit :=
  match n with
  | O => sret tt
  | S n' =>
      sbind (create_worker rt (w + i)
               {| wd_id := u8 (i + 1); wd_pid := 0; wd_kind := WORKER_BATCH;
                  wd_params := (0, 0) |})
        (fun _ => alloc_batch rt n' (i + 1) w)
  end.

(** The loops over the INTERACTIVE, PERIODIC and YIELD workers: [n] turns
    left, [stringp] the rest of the parameter string, [p1] and [p2] the
    locals of [main]; the three are returned as the loop leaves them. *)
Fixpoint alloc_params (rt : runtime) (kind : worker_kind) (n : nat) (i w : Z)
  (stringp : option string) (p1 p2 : Z) : setup (option string * Z * Z) :=
  match n with
  | O => sret (stringp, p1, p2)
  | S n' =>
      let (param1, stringp) := strsep stringp in
      match scan_param param1 p1 with
      | Ok p1 =>
          let (param2, stringp) := strsep stringp in
          match scan_param param2 p2 with
          | Ok p2 =>
              if rejects kind p1 p2 then sfail (exit (-1))
              else
                sbind (create_worker rt (w + i)
                         {| wd_id := u8 (i + 1); wd_pid := 0; wd_kind := kind;
                            wd_params := (p1, p2) |})
                  (fun _ => alloc_params rt kind n' (i + 1) w stringp p1 p2)
          | _ => sfail Fault
          end
      | _ => sfail Fault
      end
  end.

(** [main] up to the last [w += i]: the value of [w], the number of
    workers started.  [p1] and [p2] are not initialised by [main]. *)
Definition alloc_workers (rt : runtime) (c : conf) (p1 p2 : Z) : setup Z :=
  let w := 0 in
  sbind (alloc_batch rt (Z.to_nat (conf_bw c)) 0 w) (fun _ =>
  let w := u8 (w + conf_bw c) in
  sbind (alloc_params rt WORKER_INTERACTIVE (Z.to_nat (conf_iw c)) 0 w
           (snd (strsep (conf_iparams c))) p1 p2) (fun st =>
  let w := u8 (w + conf_iw c) in
  sbind (alloc_params rt WORKER_PERIODC (Z.to_nat (conf_pw c)) 0 w
           (snd (strsep (conf_pparams c))) (snd (fst st)) (snd st)) (fun st =>
  let w := u8 (w + conf_pw c) in
  sbind (alloc_params rt WORKER_YIELD (Z.to_nat (conf_yw c)) 0 w
           (snd (strsep (conf_yparams c))) (snd (fst st)) (snd st)) (fun _ =>
  sret (u8 (w + conf_yw c)))))).

Definition main_setup (rt : runtime) (opts : list getopt_item) (p1 p2 : Z)
  : setup (conf * Z) :=
  match parse_cmdline opts conf_init with
  | Ok c => sbind (alloc_workers rt c p1 p2) (fun w => sret (c, w))
  | Exit st => sfail (Exit st)
  | Abort => sfail Abort
  | Fault => sfail Fault
  end.

(** The four options that carry a count of workers. *)
Definition count_option (ch : ascii) : Prop :=
  ch = "b"%char \/ ch = "i"%char \/ ch = "p"%char \/ ch = "y"%char.

(** A system on which [pthread_create] always succeeds. *)
Definition rt_ok : runtime := mkrt (fun _ => true).

(** ** The synchronised start *)

(** Where a worker thread is, from its creation to its end. *)
Inductive worker_pc : Set :=
| W_created                    (* created; [wdata->pid] still 0 *)
| W_ready                      (* [pid] written; before the lock of [sync_start] *)
| W_locked                     (* holds [start_mtx]; before [pthread_cond_wait] *)
| W_waiting                    (* blocked in [pthread_cond_wait] *)
| W_woken                      (* woken; takes the mutex back *)
| W_returned                   (* [pthread_cond_wait] returned; before the unlock *)
| W_released                   (* [sync_start] returned; before [end_ts] is set *)
| W_running (end_ts : timespec)  (* in the loop of [worker] *)
| W_terminated.

(** Where [main] is, from the first [create_worker] on. *)
Inductive main_pc : Set :=
| M_create (k : nat)           (* holds the mutex; [k] workers created *)
| M_poll (i : nat)             (* polls [workers_data[i].pid] *)
| M_lock                       (* before the second [pthread_mutex_lock] *)
| M_broadcast                  (* before [pthread_cond_broadcast] *)
| M_stamp                      (* before [clock_gettime (&start_ts)] *)
| M_unlock                     (* before the second [pthread_mutex_unlock] *)
| M_join (i : nat)             (* in [pthread_join (workers[i])] *)
| M_done.

Inductive owner : Set :=
| Main
| Worker (i : nat).

Record sys : Set := mksys {
  mpc : main_pc;
  wpcs : list worker_pc;
  mutex : option owner;
  broadcasts : nat;
  now : timespec;
  start_ts : option timespec
}.

(** What may happen next: time passes, [main] or a worker takes its next
    step, or a waiting worker wakes up without a broadcast, as POSIX lets
    [pthread_cond_wait] do. *)
Inductive action : Set :=
| Tick (ts : timespec)
| StepMain
| StepWorker (i : nat)
| Spurious (i : nat).

Fixpoint set_nth {A : Type} (i : nat) (x : A) (l : list A) {struct l} : list A :=
  match l, i with
  | [], _ => []
  | _ :: l', O => x :: l'
  | y :: l', S i' => y :: set_nth i' x l'
  end.

Definition wake (pc : worker_pc) : worker_pc :=
  match pc with
  | W_waiting => W_woken
  | _ => pc
  end.

Definition with_main (s : sys) (pc : main_pc) : sys :=
  {| mpc := pc; wpcs := wpcs s; mutex := mutex s; broadcasts := broadcasts s;
     now := now s; start_ts := start_ts s |}.

Definition with_worker (s : sys) (i : nat) (pc : worker_pc) : sys :=
  {| mpc := mpc s; wpcs := set_nth i pc (wpcs s); mutex := mutex s;
     broadcasts := broadcasts s; now := now s; start_ts := start_ts s |}.

Definition with_mutex (s : sys) (m : option owner) : sys :=
  {| mpc := mpc s; wpcs := wpcs s; mutex := m; broadcasts := broadcasts s;
     now := now s; start_ts := start_ts s |}.

Definition mutex_free (s : sys) : bool :=
  match mutex s with
  | None => true
  | Some _ => false
  end.

Section StartProtocol.

(** The number of workers and the test duration [conf_td]. *)
Variable N : nat.
Variable td : Z.

Definition sys_init (t0 : timespec) : sys :=
  {| mpc := M_create 0; wpcs := []; mutex := Some Main; broadcasts := 0;
     now := t0; start_ts := None |}.

Definition step_main (s : sys) : option sys :=
  match mpc s with
  | M_create k =>
      if (k <? N)%nat
      then Some {| mpc := M_create (S k); wpcs := wpcs s ++ [W_created];
                   mutex := mutex s; broadcasts := broadcasts s;
                   now := now s; start_ts := start_ts s |}
      else Some (with_mutex (with_main s (M_poll 0)) None)
  | M_poll i =>
      if (i <? N)%nat
      then
        match nth_error (wpcs s) i with
        | Some W_created => Some s
        | Some _ => Some (with_main s (M_poll (S i)))
        | None => None
        end
      else Some (with_main s M_lock)
  | M_lock =>
      if mutex_free s
      then Some (with_mutex (with_main s M_broadcast) (Some Main))
      else None
  | M_broadcast =>
      Some {| mpc := M_stamp; wpcs := map wake (wpcs s); mutex := mutex s;
              broadcasts := S (broadcasts s); now := now s;
              start_ts := start_ts s |}
  | M_stamp =>
      Some {| mpc := M_unlock; wpcs := wpcs s; mutex := mutex s;
              broadcasts := broadcasts s; now := now s;
              start_ts := Some (now s) |}
  | M_unlock => Some (with_mutex (with_main s (M_join 0)) None)
  | M_join i =>
      if (i <? N)%nat
      then
        match nth_error (wpcs s) i with
        | Some W_terminated => Some (with_main s (M_join (S i)))
        | _ => None
        end
      else Some (with_main s M_done)
  | M_done => None
  end.

Definition step_worker (i : nat) (s : sys) : option sys :=
  match nth_error (wpcs s) i with
  | Some W_created => Some (with_worker s i W_ready)
  | Some W_ready =>
      if mutex_free s
      then Some (with_mutex (with_worker s i W_locked) (Some (Worker i)))
      else None
  | Some W_locked => Some (with_mutex (with_worker s i W_waiting) None)
  | Some W_waiting => None
  | Some W_woken =>
      if mutex_free s
      then Some (with_mutex (with_worker s i W_returned) (Some (Worker i)))
      else None
  | Some W_returned => Some (with_mutex (with_worker s i W_released) None)
  | Some W_released =>
      Some (with_worker s i (W_running (worker_deadline td (now s))))
  | Some (W_running end_ts) =>
      if timespec_older (now s) end_ts =? 0
      then Some s
      else Some (with_worker s i W_terminated)
  | Some W_terminated => None
  | None => None
  end.

Definition step (a : action) (s : sys) : option sys :=
  match a with
  | Tick ts =>
      if timespec_older ts (now s) =? 0 then None
      else Some {| mpc := mpc s; wpcs := wpcs s; mutex := mutex s;
                   broadcasts := broadcasts s; now := ts;
                   start_ts := start_ts s |}
  | StepMain => step_main s
  | StepWorker i => step_worker i s
  | Spurious i =>
      match nth_error (wpcs s) i with
      | Some W_waiting => Some (with_worker s i W_woken)
      | _ => None
      end
  end.

Fixpoint run (sched : list action) (s : sys) : option sys :=
  match sched with
  | [] => Some s
  | a :: sched' =>
      match step a s with
      | Some s' => run sched' s'
      | None => None
      end
  end.

End StartProtocol.

(** Whether a worker has left [pthread_cond_wait], and the property that
    none has as long as nothing has been broadcast. *)
Definition past_wait (pc : worker_pc) : bool :=
  match pc with
  | W_created | W_ready | W_locked | W_waiting => false
  | _ => true
  end.

Definition released_after_broadcast (s : sys) : Prop :=
  (broadcasts s = 0)%nat -> forallb (fun pc => negb (past_wait pc)) (wpcs s) = true.

(** A schedule without spurious wake-ups. *)
Definition no_spurious (sched : list action) : Prop :=
  forall i, ~ In (Spurious i) sched.

(** *** Three schedules *)

(** One worker; [main] sees its [pid] and broadcasts before the worker has
    entered [sync_start]. *)
Definition early_broadcast : list action :=
  [StepMain; StepMain;           (* create the worker, unlock *)
   StepWorker 0;                 (* the worker writes its pid *)
   StepMain; StepMain;           (* main sees the pid, leaves the polling *)
   StepMain; StepMain;           (* lock, broadcast *)
   StepMain; StepMain].          (* record start_ts, unlock *)

Definition then_wait : list action :=
  [StepWorker 0; StepWorker 0].  (* the worker locks and waits *)

(** One worker that wakes up on its own before any broadcast. *)
Definition spurious_wakeup : list action :=
  [StepMain; StepMain;
   StepWorker 0; StepWorker 0; StepWorker 0;  (* pid, lock, wait *)
   Spurious 0;
   StepWorker 0; StepWorker 0; StepWorker 0]. (* relock, unlock, end_ts *)

(** Two workers released by the one broadcast, running some time apart. *)
Definition two_workers : list action :=
  [StepMain; StepMain; StepMain;
   StepWorker 0; StepWorker 0; StepWorker 0;
   StepWorker 1; StepWorker 1; StepWorker 1;
   StepMain; StepMain; StepMain;  (* polling done *)
   StepMain; StepMain;            (* lock, broadcast *)
   StepMain; StepMain;            (* start_ts, unlock *)
   Tick (mkts 100 500);
   StepWorker 0; StepWorker 0; StepWorker 0;
   Tick (mkts 100 900);
   StepWorker 1; StepWorker 1; StepWorker 1].

(** ** Further functions of [wlg.c] *)

(** *** Time utilities *)

(** [int] and [unsigned long]. *)
Definition s32 (x : Z) : Z := (x + 2 ^ 31) mod 2 ^ 32 - 2 ^ 31.
Definition u64 (x : Z) : Z := x mod 2 ^ 64.

(** [timespec_compare]: the difference of two [long] fields, returned as
    [int]. *)
Definition timespec_compare (a b : timespec) : Z :=
  if negb (tv_sec a =? tv_sec b)
  then s32 (s64 (tv_sec a - tv_sec b))
  else s32 (s64 (tv_nsec a - tv_nsec b)).

(** [timespec_milliseconds]: computed in [long], returned as [int]. *)
Definition timespec_milliseconds (a : timespec) : Z :=
  s32 (s64 (s64 (tv_sec a * S_TO_MS) + Z.quot (tv_nsec a) MS_TO_NS)).

(** The two numbers of the line [Time: %lu.%lu] that [main] prints after
    the last join: [end_ts - start_ts], its nanoseconds divided by
    [MS_TO_NS], both read as [unsigned long]. *)
Definition elapsed_report (end_ts start_ts : timespec) : Z * Z :=
  let d := timespec_subtract end_ts start_ts in
  (u64 (tv_sec d), u64 (Z.quot (tv_nsec d) MS_TO_NS)).

(** The instant a timespec denotes, in nanoseconds; the unit in which the
    properties of the adders are stated. *)
Definition timespec_ns (ts : timespec) : Z := tv_sec ts * S_TO_NS + tv_nsec ts.

(** Seconds far from the ends of [long]: no addition of a [uint32_t] amount
    and no difference of two such instants overflows. *)
Definition in_range (ts : timespec) : Prop := - 2 ^ 62 <= tv_sec ts < 2 ^ 62.

(** A millisecond and a nanosecond amount as (seconds, nanoseconds). *)
Definition ms_to_timespec (ms : Z) : timespec :=
  {| tv_sec := ms / S_TO_MS; tv_nsec := (ms mod S_TO_MS) * MS_TO_NS |}.
Definition ns_to_timespec (ns : Z) : timespec :=
  {| tv_sec := ns / S_TO_NS; tv_nsec := ns mod S_TO_NS |}.

(** *** Workers *)

(** Clock readings as [clock_gettime] gives them: normalized, with seconds
    that are not negative and far from the end of [long]. *)
Definition clock_sane (E : env) : Prop :=
  forall i, normalized (clock E i) /\ 0 <= tv_sec (clock E i) < 2 ^ 61.

(** [busy_loop]: [volatile uint16_t i = 1; for ( ; i ; ++i);].  The loop
    from a value [i] of the counter, and the number of increments it makes
    before the test finds the counter null. *)
Definition u16 (x : Z) : Z := x mod 2 ^ 16.

Fixpoint busy_loop_from (fuel : nat) (i : Z) : option Z :=
  match fuel with
  | O => None
  | S fuel' =>
      if i =? 0 then Some 0
      else option_map Z.succ (busy_loop_from fuel' (u16 (i + 1)))
  end.

Definition busy_loop_increments (fuel : nat) : option Z := busy_loop_from fuel 1.

(** *** The name of a worker *)

(** [worker_kind[]]: the worker name takes the first character. *)
Definition worker_kind_name (k : worker_kind) : string :=
  match k with
  | WORKER_BATCH => "Batch"
  | WORKER_INTERACTIVE => "Interactive"
  | WORKER_PERIODC => "Periodic"
  | WORKER_YIELD => "Yield"
  end.

Definition first_char (s : string) : ascii :=
  match s with
  | String c _ => c
  | EmptyString => Ascii.zero
  end.

(** [%d] for an [int] that is not negative: its decimal digits, at most
    ten; and [%03d], padded with zeros to three characters. *)
Fixpoint decimal (fuel : nat) (n : Z) (acc : string) : string :=
  match fuel with
  | O => acc
  | S fuel' =>
      let acc := String (ascii_of_nat (48 + Z.to_nat (n mod 10))) acc in
      if n / 10 =? 0 then acc else decimal fuel' (n / 10) acc
  end.

Definition format_d (n : Z) : string := decimal 10 n EmptyString.

Fixpoint zero_pad (k : nat) (s : string) : string :=
  match k with
  | O => s
  | S k' => String "0" (zero_pad k' s)
  end.

Definition format_03d (n : Z) : string :=
  let s := format_d n in zero_pad (3 - String.length s) s.

(** [snprintf (buf, size, ...)] keeps at most [size - 1] characters. *)
Definition snprintf (size : nat) (s : string) : string := substring 0 (size - 1) s.

Definition worker_name_text (wd : wdata) : string :=
  ("wlg_" ++ String (first_char (worker_kind_name (wd_kind wd)))
                    (format_03d (wd_id wd)))%string.

(** [snprintf (wdata->name, sizeof (wdata->name), "wlg_%c%03d", ...)] with
    [char name[9]]. *)
Definition worker_name (wd : wdata) : string := snprintf 9 (worker_name_text wd).

(** Reading a name back: the character of the kind and the number. *)
Definition name_kind_char (s : string) : option ascii := get 4 s.
Definition name_id (s : string) : option Z := scan_digits (substring 5 3 s) None.

Definition name_check (k : worker_kind) (n : nat) : bool :=
  let wd := mkwdata (Z.of_nat n) 0 k (0, 0) in
  let s := worker_name wd in
  String.eqb s (worker_name_text wd)
  && (String.length s =? 8)%nat
  && match name_kind_char s with
     | Some c => Ascii.eqb c (first_char (worker_kind_name k))
     | None => false
     end
  && match name_id s with
     | Some v => v =? Z.of_nat n
     | None => false
     end.

(** *** The configuration and the launches *)

Definition launch_slot (l : launch) : Z := match l with Create slot _ => slot end.
Definition launch_data (l : launch) : wdata := match l with Create _ wd => wd end.

(** The bounds on the parameters of a worker: a duty cycle of at most 100
    for a PERIODIC worker, a yield interval of at most the burst period
    for a YIELD worker. *)
Definition params_bounded (wd : wdata) : Prop :=
  match wd_kind wd with
  | WORKER_PERIODC => period_duty_cycle wd <= 100
  | WORKER_YIELD => yield_interval wd <= yield_period wd
  | _ => True
  end.

(** What holds of a worker when [pthread_create] has started it. *)
Definition launch_valid (rt : runtime) (l : launch) : Prop :=
  pthread_create_ok rt (launch_slot l) = true
  /\ wd_pid (launch_data l) = 0
  /\ 1 <= wd_id (launch_data l) <= 255
  /\ params_bounded (launch_data l).

(** The launch in position [k] of a loop over the workers of a kind that
    started with the counter at [i] and the base [w]. *)
Definition launched_in_loop (rt : runtime) (kind : worker_kind) (i w : Z) (k : nat)
  (l : launch) : Prop :=
  launch_slot l = w + i + Z.of_nat k
  /\ wd_kind (launch_data l) = kind
  /\ wd_id (launch_data l) = i + Z.of_nat k + 1
  /\ launch_valid rt l.

(** The counts and the duration are [uint8_t]. *)
Definition conf_bounded (c : conf) : Prop :=
  0 <= conf_bw c <= 255 /\ 0 <= conf_iw c <= 255 /\ 0 <= conf_pw c <= 255
  /\ 0 <= conf_yw c <= 255 /\ 0 <= conf_td c <= 255.

(** A count and the argument it was read from. *)
Definition count_agrees (n : Z) (params : option string) : Prop :=
  match params with
  | None => n = 0
  | Some s => sscanf_hhu s = Some n
  end.

(** What holds of the configuration after every option. *)
Definition conf_inv (c : conf) : Prop :=
  conf_bounded c /\ conf_vr c = 0
  /\ count_agrees (conf_iw c) (conf_iparams c)
  /\ count_agrees (conf_pw c) (conf_pparams c)
  /\ count_agrees (conf_yw c) (conf_yparams c).

(** Kind and id of the worker in the entry [k] of [workers_data], for the
    counts of [c]: the kinds in the order B, I, P, Y, the ids from 1 within
    each kind. *)
Definition expected_worker (c : conf) (k : Z) : worker_kind * Z :=
  if k <? conf_bw c then (WORKER_BATCH, k + 1)
  else if k <? conf_bw c + conf_iw c then (WORKER_INTERACTIVE, k - conf_bw c + 1)
  else if k <? conf_bw c + conf_iw c + conf_pw c
       then (WORKER_PERIODC, k - conf_bw c - conf_iw c + 1)
  else (WORKER_YIELD, k - conf_bw c - conf_iw c - conf_pw c + 1).

(** *** Invariants of the synchronised start *)

(** Where [main] holds [start_mtx]: while it creates the workers, and from
    its second lock to its second unlock. *)
Definition main_holds (pc : main_pc) : bool :=
  match pc with
  | M_create _ | M_broadcast | M_stamp | M_unlock => true
  | _ => false
  end.

(** [main] has not yet called [pthread_cond_broadcast]. *)
Definition main_before_broadcast (pc : main_pc) : bool :=
  match pc with
  | M_create _ | M_poll _ | M_lock | M_broadcast => true
  | _ => false
  end.

(** [main] has broadcast and still holds the mutex. *)
Definition main_stamping (pc : main_pc) : bool :=
  match pc with
  | M_stamp | M_unlock => true
  | _ => false
  end.

(** [main] has recorded [start_ts]. *)
Definition main_started (pc : main_pc) : bool :=
  match pc with
  | M_unlock | M_join _ | M_done => true
  | _ => false
  end.


(** Where a worker holds [start_mtx], and where it has not yet taken it
    back in [pthread_cond_wait]. *)
Definition worker_holds (pc : worker_pc) : bool :=
  match pc with
  | W_locked | W_returned => true
  | _ => false
  end.

Definition before_return (pc : worker_pc) : bool :=
  match pc with
  | W_created | W_ready | W_locked | W_waiting | W_woken => true
  | _ => false
  end.

(** The deadline of a running worker is not before [start_ts] plus [td]
    seconds, and a worker has not terminated before that instant. *)
Definition deadline_ok (td : Z) (st : option timespec) (now_ts : timespec)
  (pc : worker_pc) : Prop :=
  match pc with
  | W_running e =>
      exists t,
        st = Some t
        /\ timespec_older e {| tv_sec := tv_sec t + td; tv_nsec := tv_nsec t |} <> 0
  | W_terminated =>
      exists t,
        st = Some t
        /\ timespec_older now_ts
             {| tv_sec := tv_sec t + td; tv_nsec := tv_nsec t |} <> 0
  | _ => True
  end.

(** Clock values with seconds that are not negative and far from the end
    of [long], and the schedules that only show such values. *)
Definition time_ok (t : timespec) : Prop := 0 <= tv_sec t < 2 ^ 62.

Definition ticks_ok (sched : list action) : Prop :=
  forall ts, In (Tick ts) sched -> time_ok ts.

Definition mutex_inv (s : sys) : Prop :=
  (main_holds (mpc s) = true -> mutex s = Some Main)
  /\ (forall i pc, nth_error (wpcs s) i = Some pc -> worker_holds pc = true ->
      mutex s = Some (Worker i)).

Definition start_inv (td : Z) (s : sys) : Prop :=
  (main_before_broadcast (mpc s) = true ->
   forallb (fun pc => negb (past_wait pc)) (wpcs s) = true)
  /\ (main_stamping (mpc s) = true -> forallb before_return (wpcs s) = true)
  /\ (main_started (mpc s) = true ->
      exists t, start_ts s = Some t /\ timespec_older (now s) t <> 0 /\ time_ok t)
  /\ Forall (deadline_ok td (start_ts s) (now s)) (wpcs s)
  /\ time_ok (now s).

(** * Part II: the proofs *)

(** ** Machine integers *)

Section MachineIntegers.

Lemma u32_id x : is_u32 x -> u32 x = x.
Proof. unfold is_u32, u32. intros H. now apply Z.mod_small. Qed.

Lemma s64_id x : is_s64 x -> s64 x = x.
Proof.
  unfold is_s64, s64. intros H.
  rewrite Z.mod_small by lia. lia.
Qed.

(** [s64] only depends on its argument modulo 2^64. *)
Lemma s64_congr x y k : x = y + k * 2 ^ 64 -> s64 x = s64 y.
Proof.
  intros ->. unfold s64.
  replace (y + k * 2 ^ 64 + 2 ^ 63) with (y + 2 ^ 63 + k * 2 ^ 64) by ring.
  now rewrite Z.mod_add by lia.
Qed.

Lemma s64_decomp x : exists k, s64 x = x + k * 2 ^ 64.
Proof.
  unfold s64. exists (- ((x + 2 ^ 63) / 2 ^ 64)).
  pose proof (Z.div_mod (x + 2 ^ 63) (2 ^ 64)). lia.
Qed.

End MachineIntegers.

(** ** Properties of the time utilities *)

Section TimeProperties.

Lemma timespec_older_spec a b :
  timespec_older a b <> 0 <->
  (tv_sec a > tv_sec b \/ (tv_sec a = tv_sec b /\ tv_nsec a >= tv_nsec b)).
Proof.
  unfold timespec_older.
  destruct (Z.gtb_spec (tv_sec a) (tv_sec b)) as [Hgt | Hle].
  - split; [intros _; lia | intros _; discriminate].
  - destruct (Z.ltb_spec (tv_sec a) (tv_sec b)) as [Hlt | Hge].
    + split; [congruence | lia].
    + destruct (Z.geb_spec (tv_nsec a) (tv_nsec b)) as [Hn | Hn].
      * split; [intros _; lia | intros _; discriminate].
      * split; [congruence | lia].
Qed.

Lemma timespec_older_trans a b c :
  timespec_older a b <> 0 -> timespec_older b c <> 0 -> timespec_older a c <> 0.
Proof. rewrite !timespec_older_spec. lia. Qed.

(** C1: [timespec_older a b] is nonzero exactly when [a]'s seconds exceed
    [b]'s, or the seconds are equal and [a]'s nanoseconds are at least
    [b]'s; it is reflexive, and of any two instants one is at or after the
    other. *)
Theorem timespec_older_lexicographic :
  (forall a b,
      timespec_older a b <> 0 <->
      (tv_sec a > tv_sec b \/ (tv_sec a = tv_sec b /\ tv_nsec a >= tv_nsec b)))
  /\ (forall a, timespec_older a a <> 0)
  /\ (forall a b, timespec_older a b <> 0 \/ timespec_older b a <> 0).
Proof.
  split; [exact timespec_older_spec | split].
  - intros a. apply timespec_older_spec. lia.
  - intros a b. rewrite !timespec_older_spec. lia.
Qed.

End TimeProperties.

(** *** Normalisation *)

Section Normalisation.

(** The amount left after removing the whole seconds, as the adders compute
    it in [uint32_t]. *)
Lemma reduced_amount x k :
  is_u32 x -> 0 < k ->
  u32 (x / k) = x / k /\ u32 (x - u32 (u32 (x / k) * k)) = x mod k.
Proof.
  intros Hx Hk. unfold is_u32 in Hx.
  assert (Hq : 0 <= x / k <= x).
  { split; [apply Z.div_pos; lia |].
    apply Z.div_le_upper_bound; nia. }
  assert (Hm : 0 <= x mod k < k) by (apply Z.mod_pos_bound; lia).
  pose proof (Z.div_mod x k ltac:(lia)) as Hdm.
  assert (E1 : u32 (x / k) = x / k) by (apply u32_id; unfold is_u32; lia).
  split; [exact E1 |].
  rewrite E1.
  assert (E2 : u32 (x / k * k) = x / k * k) by (apply u32_id; unfold is_u32; nia).
  rewrite E2.
  replace (x - x / k * k) with (x mod k) by lia.
  apply u32_id. unfold is_u32. lia.
Qed.

(** The nanosecond field written by an adder: the old field plus an amount
    below one second, reduced by [% S_TO_NS]. *)
Lemma carry_nsec n d :
  0 <= n < S_TO_NS -> 0 <= d < S_TO_NS ->
  s64 (n + d) = n + d /\
  Z.rem (n + d) S_TO_NS = (n + d) mod S_TO_NS /\
  Z.quot (n + d) S_TO_NS = (n + d) / S_TO_NS /\
  0 <= (n + d) mod S_TO_NS < S_TO_NS.
Proof.
  unfold S_TO_NS. intros Hn Hd.
  split; [apply s64_id; unfold is_s64; lia |].
  split; [apply Z.rem_mod_nonneg; lia |].
  split; [apply Z.quot_div_nonneg; lia |].
  apply Z.mod_pos_bound; lia.
Qed.

Lemma add_ms_nsec ts ms :
  normalized ts -> is_u32 ms ->
  tv_nsec (timespec_add_ms ts ms)
  = (tv_nsec ts + (ms mod S_TO_MS) * MS_TO_NS) mod S_TO_NS.
Proof.
  intros Hts Hms. unfold timespec_add_ms, normalized in *. cbn [tv_nsec].
  destruct (reduced_amount ms S_TO_MS Hms ltac:(reflexivity)) as [_ ->].
  assert (Hm : 0 <= ms mod S_TO_MS < S_TO_MS) by (apply Z.mod_pos_bound; reflexivity).
  assert (Hd : 0 <= ms mod S_TO_MS * MS_TO_NS < S_TO_NS)
    by (unfold S_TO_MS, MS_TO_NS, S_TO_NS in *; lia).
  rewrite (u32_id (ms mod S_TO_MS * MS_TO_NS))
    by (unfold is_u32, S_TO_NS in *; lia).
  destruct (carry_nsec _ _ Hts Hd) as (-> & -> & _).
  reflexivity.
Qed.

Lemma add_us_nsec ts us :
  normalized ts -> is_u32 us ->
  tv_nsec (timespec_add_us ts us)
  = (tv_nsec ts + (us mod S_TO_US) * US_TO_NS) mod S_TO_NS.
Proof.
  intros Hts Hus. unfold timespec_add_us, normalized in *. cbn [tv_nsec].
  destruct (reduced_amount us S_TO_US Hus ltac:(reflexivity)) as [_ ->].
  assert (Hm : 0 <= us mod S_TO_US < S_TO_US) by (apply Z.mod_pos_bound; reflexivity).
  assert (Hd : 0 <= us mod S_TO_US * US_TO_NS < S_TO_NS)
    by (unfold S_TO_US, US_TO_NS, S_TO_NS in *; lia).
  rewrite (u32_id (us mod S_TO_US * US_TO_NS))
    by (unfold is_u32, S_TO_NS in *; lia).
  destruct (carry_nsec _ _ Hts Hd) as (-> & -> & _).
  reflexivity.
Qed.

Lemma add_ns_nsec ts ns :
  normalized ts -> is_u32 ns ->
  tv_nsec (timespec_add_ns ts ns)
  = (tv_nsec ts + ns mod S_TO_NS) mod S_TO_NS.
Proof.
  intros Hts Hns. unfold timespec_add_ns, normalized in *. cbn [tv_nsec].
  destruct (reduced_amount ns S_TO_NS Hns ltac:(reflexivity)) as [_ ->].
  assert (Hd : 0 <= ns mod S_TO_NS < S_TO_NS) by (apply Z.mod_pos_bound; reflexivity).
  destruct (carry_nsec _ _ Hts Hd) as (-> & -> & _).
  reflexivity.
Qed.

Lemma subtract_nsec a b :
  normalized a -> normalized b ->
  tv_nsec (timespec_subtract a b) = (tv_nsec a - tv_nsec b) mod S_TO_NS.
Proof.
  unfold normalized, timespec_subtract, S_TO_NS. intros Ha Hb.
  rewrite (s64_id (tv_nsec a - tv_nsec b)) by (unfold is_s64; lia).
  destruct (Z.ltb_spec (tv_nsec a - tv_nsec b) 0) as [Hneg | Hpos]; cbn [tv_nsec].
  - rewrite s64_id by (unfold is_s64; lia).
    apply Z.mod_unique with (q := -1); lia.
  - symmetry. apply Z.mod_small. lia.
Qed.

(** C2: on a timespec whose nanosecond field lies in [0, 1e9), adding any
    [uint32_t] amount of milliseconds, microseconds or nanoseconds, and
    subtracting any normalized timespec, leaves the nanosecond field in
    [0, 1e9). *)
Theorem timespec_arith_normalized (ts b : timespec) (amount : Z) :
  normalized ts -> normalized b -> is_u32 amount ->
  normalized (timespec_add_ms ts amount)
  /\ normalized (timespec_add_us ts amount)
  /\ normalized (timespec_add_ns ts amount)
  /\ normalized (timespec_subtract ts b).
Proof.
  intros Hts Hb Ha. unfold normalized at 1 2 3 4.
  rewrite add_ms_nsec, add_us_nsec, add_ns_nsec, subtract_nsec by assumption.
  repeat split; apply Z.mod_pos_bound; reflexivity.
Qed.

Lemma timespec_arith_normalized_witness :
  normalized (timespec_add_ms (mkts 41 999999999) 4294967295)
  /\ normalized (timespec_add_us (mkts 41 999999999) 4294967295)
  /\ normalized (timespec_add_ns (mkts 41 999999999) 4294967295)
  /\ normalized (timespec_subtract (mkts 41 999999999) (mkts 7 999999998)).
Proof.
  apply (timespec_arith_normalized (mkts 41 999999999) (mkts 7 999999998) 4294967295);
    unfold normalized, is_u32, S_TO_NS; cbn [tv_nsec]; lia.
Defined.

End Normalisation.

(** *** Adding a duration and measuring it back *)

Section RoundTrip.

Lemma s64_unique x y k : is_s64 y -> x = y + k * 2 ^ 64 -> s64 x = y.
Proof.
  intros Hy Hx. rewrite (s64_congr x y k Hx). now apply s64_id.
Qed.

Lemma us_to_timespec_normalized us : normalized (us_to_timespec us).
Proof.
  unfold normalized, us_to_timespec; cbn [tv_nsec].
  pose proof (Z.mod_pos_bound us S_TO_US ltac:(reflexivity)).
  unfold S_TO_US, US_TO_NS, S_TO_NS in *. lia.
Qed.

Lemma add_us_sec ts us :
  normalized ts -> is_u32 us ->
  tv_sec (timespec_add_us ts us)
  = s64 (tv_sec ts
         + s64 ((tv_nsec ts + (us mod S_TO_US) * US_TO_NS) / S_TO_NS
                + us / S_TO_US)).
Proof.
  intros Hts Hus. unfold timespec_add_us, normalized in *. cbn [tv_sec].
  destruct (reduced_amount us S_TO_US Hus ltac:(reflexivity)) as [-> ->].
  assert (Hm : 0 <= us mod S_TO_US < S_TO_US) by (apply Z.mod_pos_bound; reflexivity).
  assert (Hd : 0 <= us mod S_TO_US * US_TO_NS < S_TO_NS)
    by (unfold S_TO_US, US_TO_NS, S_TO_NS in *; lia).
  rewrite (u32_id (us mod S_TO_US * US_TO_NS))
    by (unfold is_u32, S_TO_NS in *; lia).
  destruct (carry_nsec _ _ Hts Hd) as (-> & _ & -> & _).
  reflexivity.
Qed.

(** C3: for every normalized instant [t] and every [uint32_t] amount [d] of
    microseconds, [timespec_subtract (timespec_add_us t d) t] is [d]
    expressed as seconds and nanoseconds, with the nanoseconds in
    [0, 1e9). *)
Theorem add_us_subtract_roundtrip (t : timespec) (d : Z) :
  normalized t -> is_u32 d ->
  timespec_subtract (timespec_add_us t d) t = us_to_timespec d
  /\ normalized (timespec_subtract (timespec_add_us t d) t).
Proof.
  intros Ht Hd.
  assert (E : timespec_subtract (timespec_add_us t d) t = us_to_timespec d).
  { pose proof (add_us_nsec t d Ht Hd) as En.
    pose proof (add_us_sec t d Ht Hd) as Es.
    unfold timespec_subtract. rewrite En, Es. clear En Es.
    unfold normalized, is_u32 in *.
    assert (Hm : 0 <= d mod S_TO_US < S_TO_US) by (apply Z.mod_pos_bound; reflexivity).
    assert (Hq : 0 <= d / S_TO_US < 2 ^ 32).
    { split; [apply Z.div_pos; [lia | reflexivity] |].
      apply Z.div_lt_upper_bound; unfold S_TO_US; lia. }
    set (r := d mod S_TO_US * US_TO_NS) in *.
    assert (Hr : 0 <= r < S_TO_NS) by (unfold r, S_TO_US, US_TO_NS, S_TO_NS in *; lia).
    set (n := tv_nsec t) in *. set (s := tv_sec t) in *.
    set (q := d / S_TO_US) in *.
    assert (Hc : (n + r) / S_TO_NS = 0 /\ (n + r) mod S_TO_NS = n + r
                 \/ (n + r) / S_TO_NS = 1 /\ (n + r) mod S_TO_NS = n + r - S_TO_NS).
    { destruct (Z_lt_ge_dec (n + r) S_TO_NS) as [Hlt | Hge].
      - left. split; [apply Z.div_small | apply Z.mod_small]; lia.
      - right. split.
        + symmetry. apply Z.div_unique with (r := n + r - S_TO_NS); lia.
        + symmetry. apply Z.mod_unique with (q := 1); lia. }
    unfold us_to_timespec. fold q. fold r.
    destruct (s64_decomp (s + s64 ((n + r) / S_TO_NS + q))) as [k1 Hk1].
    destruct Hc as [[Hc1 Hc2] | [Hc1 Hc2]]; rewrite Hc1, Hc2 in *.
    - replace (n + r - n) with r by ring.
      rewrite (s64_id r) by (unfold is_s64, S_TO_NS in *; lia).
      destruct (Z.ltb_spec r 0) as [Hneg | _]; [lia |]. cbn [tv_sec tv_nsec].
      f_equal.
      rewrite (s64_id (0 + q)) in Hk1 |- * by (unfold is_s64; lia).
      apply (s64_unique _ _ k1); [unfold is_s64; lia | lia].
    - replace (n + r - S_TO_NS - n) with (r - S_TO_NS) by ring.
      rewrite (s64_id (r - S_TO_NS)) by (unfold is_s64, S_TO_NS in *; lia).
      destruct (Z.ltb_spec (r - S_TO_NS) 0) as [_ | Hpos]; [| lia].
      cbn [tv_sec tv_nsec].
      rewrite (s64_id (1 + q)) in Hk1 |- * by (unfold is_s64; lia).
      f_equal.
      + destruct (s64_decomp (s64 (s + (1 + q)) - 1)) as [k2 Hk2].
        apply (s64_unique _ _ (k1 + k2)); [unfold is_s64; lia | lia].
      + replace (r - S_TO_NS + S_TO_NS) with r by ring.
        apply s64_id. unfold is_s64, S_TO_NS in *. lia. }
  split; [exact E |].
  rewrite E. apply us_to_timespec_normalized.
Qed.

Lemma add_us_subtract_roundtrip_witness :
  timespec_subtract (timespec_add_us (mkts 12 999999000) 3000001) (mkts 12 999999000)
  = us_to_timespec 3000001
  /\ normalized
       (timespec_subtract (timespec_add_us (mkts 12 999999000) 3000001) (mkts 12 999999000)).
Proof.
  apply (add_us_subtract_roundtrip (mkts 12 999999000) 3000001);
    unfold normalized, is_u32, S_TO_NS; cbn [tv_nsec]; lia.
Defined.

End RoundTrip.

(** ** Binary floating-point rounding

    [SpecFloat] computes; this section relates what it computes to real
    numbers, as far as the workers need: the rounding of a positive
    mantissa in the normal range. *)

Section Digits.

Lemma digits2_pos_size p : digits2_pos p = Pos.size p.
Proof. induction p; cbn; congruence. Qed.

Lemma Zdigits2_log2 m : 0 < m -> Zdigits2 m = Z.log2 m + 1.
Proof.
  destruct m as [| p | p]; try lia. intros _. cbn [Zdigits2].
  rewrite digits2_pos_size.
  destruct p; cbn [Z.log2 Pos.size]; lia.
Qed.

Lemma Zdigits2_bounds m :
  0 < m -> 2 ^ (Zdigits2 m - 1) <= m < 2 ^ Zdigits2 m.
Proof.
  intros Hm. rewrite Zdigits2_log2 by assumption.
  replace (Z.log2 m + 1 - 1) with (Z.log2 m) by ring.
  apply Z.log2_spec. assumption.
Qed.

Lemma Zdigits2_nonneg m : 0 <= Zdigits2 m.
Proof. destruct m; cbn; lia. Qed.

Lemma Zdigits2_le m d : 0 <= d -> 0 <= m < 2 ^ d -> Zdigits2 m <= d.
Proof.
  intros Hd [Hm0 Hm].
  destruct (Z.eq_dec m 0) as [-> | Hne]; [cbn; lia |].
  rewrite Zdigits2_log2 by lia.
  assert (Z.log2 m < d) by (apply Z.log2_lt_pow2; lia). lia.
Qed.

Lemma Zdigits2_ge m d : 0 < m -> 2 ^ (d - 1) <= m -> d <= Zdigits2 m.
Proof.
  intros Hm Hd.
  destruct (Z_lt_ge_dec (d - 1) 0) as [Hneg | Hpos].
  - pose proof (Zdigits2_nonneg m). lia.
  - rewrite Zdigits2_log2 by lia.
    assert (d - 1 <= Z.log2 m) by (apply Z.log2_le_pow2; lia). lia.
Qed.

Lemma shr_1_m mrs : 0 <= shr_m mrs -> shr_m (shr_1 mrs) = shr_m mrs / 2.
Proof.
  destruct mrs as [m r s]. cbn [shr_m]. intros Hm.
  destruct m as [| p | p]; [reflexivity | | lia].
  destruct p as [p | p |]; cbn [shr_1 shr_m].
  - rewrite Pos2Z.inj_xI. apply Z.div_unique with (r := 1); lia.
  - rewrite Pos2Z.inj_xO. apply Z.div_unique with (r := 0); lia.
  - reflexivity.
Qed.

Lemma iter_shr_m p :
  forall mrs, 0 <= shr_m mrs ->
  shr_m (SpecFloat.iter_pos shr_1 p mrs) = shr_m mrs / 2 ^ Zpos p.
Proof.
  induction p as [p IH | p IH |]; intros mrs Hm; cbn [SpecFloat.iter_pos].
  - assert (H1 : 0 <= shr_m (shr_1 mrs)).
    { rewrite shr_1_m by assumption. apply Z.div_pos; lia. }
    assert (H2 : 0 <= shr_m (SpecFloat.iter_pos shr_1 p (shr_1 mrs))).
    { rewrite IH by assumption. apply Z.div_pos; lia. }
    rewrite IH, IH, shr_1_m by assumption.
    rewrite !Z.div_div by lia. f_equal.
    rewrite Pos2Z.inj_xI, Z.pow_add_r, Z.pow_mul_r, Z.pow_1_r by lia.
    change (2 ^ 2) with 4.
    rewrite <- Z.pow_twice_r. rewrite Z.pow_mul_r by lia. change (2 ^ 2) with 4. lia.
  - assert (H2 : 0 <= shr_m (SpecFloat.iter_pos shr_1 p mrs)).
    { rewrite IH by assumption. apply Z.div_pos; lia. }
    rewrite IH, IH by assumption.
    rewrite !Z.div_div by lia. f_equal.
    rewrite Pos2Z.inj_xO. rewrite <- Z.pow_twice_r. reflexivity.
  - rewrite shr_1_m by assumption. reflexivity.
Qed.

Lemma shr_spec mrs e n :
  0 <= shr_m mrs ->
  shr_m (fst (shr mrs e n)) = shr_m mrs / 2 ^ Z.max 0 n
  /\ snd (shr mrs e n) = e + Z.max 0 n
  /\ (n <= 0 -> fst (shr mrs e n) = mrs).
Proof.
  intros Hm. destruct n as [| p | p]; cbn [shr fst snd].
  - rewrite Z.div_1_r. repeat split; lia.
  - rewrite iter_shr_m by assumption.
    replace (Z.max 0 (Z.pos p)) with (Z.pos p) by lia.
    repeat split; lia.
  - replace (Z.max 0 (Z.neg p)) with 0 by lia.
    rewrite Z.div_1_r. repeat split; lia.
Qed.


Lemma bpow_pos e : (0 < bpow e)%R.
Proof. apply powerRZ_lt. lra. Qed.

Lemma bpow_add a b : bpow (a + b) = (bpow a * bpow b)%R.
Proof. apply powerRZ_add. lra. Qed.

Lemma bpow_IZR k : 0 <= k -> IZR (2 ^ k) = bpow k.
Proof.
  destruct k as [| p | p]; intros Hk; [reflexivity | | lia].
  unfold bpow. rewrite <- Zpower_pos_powerRZ. reflexivity.
Qed.

Lemma bpow_le a b : a <= b -> (bpow a <= bpow b)%R.
Proof.
  intros Hab. replace b with (a + (b - a)) by ring.
  rewrite bpow_add, <- (bpow_IZR (b - a)) by lia.
  assert (1 <= 2 ^ (b - a)) by (pose proof (Z.pow_pos_nonneg 2 (b - a)); lia).
  pose proof (bpow_pos a). apply IZR_le in H.
  nra.
Qed.

Lemma bpow_lt a b : a < b -> (bpow a < bpow b)%R.
Proof.
  intros Hab. replace b with (a + (b - a)) by ring.
  rewrite bpow_add, <- (bpow_IZR (b - a)) by lia.
  assert (2 <= 2 ^ (b - a)).
  { replace (b - a) with (1 + (b - a - 1)) by ring.
    rewrite Z.pow_add_r by lia.
    pose proof (Z.pow_pos_nonneg 2 (b - a - 1)). lia. }
  pose proof (bpow_pos a). apply IZR_le in H.
  nra.
Qed.

Lemma bpow_0 : bpow 0 = 1%R.
Proof. reflexivity. Qed.

End Digits.

Section RoundAux.

Variables prec emax : Z.
Hypothesis Hprec : 0 < prec.

Lemma fexp_ge_emin e : emin prec emax <= fexp prec emax e.
Proof. unfold fexp. lia. Qed.

Lemma fexp_ge e : e - prec <= fexp prec emax e.
Proof. unfold fexp. lia. Qed.

Lemma round_nearest_even_bounds m l :
  m <= round_nearest_even m l <= m + 1.
Proof.
  destruct l as [| [| |]]; cbn [round_nearest_even]; try lia.
  destruct (Z.even m); lia.
Qed.

(** What [binary_round_aux] returns for a mantissa [mx >= 0]: the mantissa
    shifted to the exponent [round_exp], plus one or not, and shifted once
    more when the carry makes it [2 ^ prec]. *)
Lemma binary_round_aux_spec sx mx ex lx :
  0 <= mx ->
  let E := round_exp prec emax mx ex in
  let q := mx / 2 ^ (E - ex) in
  exists m1,
    q <= m1 <= q + 1
    /\ (lx = loc_Exact -> E = ex -> m1 = mx)
    /\ (m1 = 0 -> binary_round_aux prec emax sx mx ex lx = S754_zero sx)
    /\ (0 < m1 ->
        exists m e, E <= e <= E + 1 /\ Zpos m * 2 ^ (e - E) = m1
                    /\ Zpos m < 2 ^ prec /\ emin prec emax <= e
                    /\ (2 ^ (prec - 1) <= q -> 2 ^ (prec - 1) <= Zpos m)
                    /\ binary_round_aux prec emax sx mx ex lx
                       = finite_or_overflow prec emax sx m e).
Proof.
  intros Hmx E q.
  unfold binary_round_aux, shr_fexp.
  set (n1 := fexp prec emax (Zdigits2 mx + ex) - ex).
  assert (HE : E - ex = Z.max 0 n1) by (unfold E, round_exp, n1; lia).
  assert (Hrec : 0 <= shr_m (shr_record_of_loc mx lx)).
  { destruct lx as [| [| |]]; cbn; assumption. }
  assert (Hrecm : shr_m (shr_record_of_loc mx lx) = mx).
  { destruct lx as [| [| |]]; reflexivity. }
  destruct (shr_spec (shr_record_of_loc mx lx) ex n1 Hrec) as (Hm' & He' & Hid).
  destruct (shr (shr_record_of_loc mx lx) ex n1) as [mrs' e'].
  cbn [fst snd] in Hm', He', Hid.
  rewrite Hrecm, <- HE in Hm'. fold q in Hm'.
  assert (He'E : e' = E) by lia. clear He'. subst e'.
  set (m1 := round_nearest_even (shr_m mrs') (loc_of_shr_record mrs')).
  assert (Hm1 : q <= m1 <= q + 1).
  { unfold m1. rewrite <- Hm'. apply round_nearest_even_bounds. }
  assert (Hq0 : 0 <= q) by (apply Z.div_pos; lia).
  assert (Hqp : q < 2 ^ prec).
  { apply Z.div_lt_upper_bound; [lia |].
    rewrite <- Z.pow_add_r by lia.
    destruct (Z.eq_dec mx 0) as [-> | Hne]; [lia |].
    pose proof (Zdigits2_bounds mx ltac:(lia)) as [_ Hd].
    eapply Z.lt_le_trans; [exact Hd |].
    apply Z.pow_le_mono_r; [lia |].
    pose proof (fexp_ge (Zdigits2 mx + ex)). unfold E, round_exp. lia. }
  assert (HEmin : emin prec emax <= E).
  { pose proof (fexp_ge_emin (Zdigits2 mx + ex)). unfold E, round_exp. lia. }
  exists m1. split; [exact Hm1 |]. split; [| split].
  - intros -> HEx. unfold m1.
    rewrite Hid by lia. reflexivity.
  - intros Hz. rewrite Hz. cbn [Zdigits2 Z.add].
    set (n2 := fexp prec emax E - E).
    assert (Hn2 : n2 <= 0) by (unfold n2, fexp; lia).
    destruct (shr_spec (shr_record_of_loc 0 loc_Exact) E n2 ltac:(cbn; lia))
      as (_ & _ & Hid2).
    destruct (shr (shr_record_of_loc 0 loc_Exact) E n2) as [mrs'' e''].
    cbn [fst] in Hid2. rewrite Hid2 by assumption. reflexivity.
  - intros Hpos.
    set (n2 := fexp prec emax (Zdigits2 m1 + E) - E).
    destruct (shr_spec (shr_record_of_loc m1 loc_Exact) E n2 ltac:(cbn; lia))
      as (Hm2 & He2 & Hid2).
    destruct (shr (shr_record_of_loc m1 loc_Exact) E n2) as [mrs'' e''].
    cbn [fst snd shr_record_of_loc shr_m] in Hm2, He2, Hid2.
    destruct (Z_lt_ge_dec m1 (2 ^ prec)) as [Hlt | Hge].
    + assert (Hd : Zdigits2 m1 <= prec) by (apply Zdigits2_le; lia).
      assert (Hn2 : n2 <= 0) by (unfold n2, fexp; lia).
      rewrite Hid2 by assumption. cbn [shr_m].
      replace (Z.max 0 n2) with 0 in He2 by lia.
      destruct m1 as [| p | p]; try lia.
      exists p, E. split; [lia |]. split; [| split; [lia | split; [lia | split; [lia |]]]].
      * rewrite Z.sub_diag. cbn. lia.
      * unfold finite_or_overflow. replace e'' with E by lia. reflexivity.
    + assert (Hm1p : m1 = 2 ^ prec) by lia.
      assert (Hd : Zdigits2 m1 = prec + 1).
      { rewrite Zdigits2_log2 by lia. rewrite Hm1p, Z.log2_pow2 by lia. reflexivity. }
      assert (Hn2 : n2 = 1) by (unfold n2, fexp; lia).
      rewrite Hn2 in Hm2, He2. cbn [Z.max Z.compare] in Hm2, He2.
      change (Z.max 0 1) with 1 in Hm2, He2.
      rewrite Z.pow_1_r in Hm2.
      assert (Hhalf : m1 / 2 = 2 ^ (prec - 1)).
      { rewrite Hm1p. replace prec with (1 + (prec - 1)) at 1 by ring.
        rewrite Z.pow_add_r by lia. rewrite Z.pow_1_r.
        rewrite Z.mul_comm, Z.div_mul by lia. reflexivity. }
      rewrite Hhalf in Hm2.
      assert (0 < 2 ^ (prec - 1)) by (apply Z.pow_pos_nonneg; lia).
      destruct (shr_m mrs'') as [| p | p] eqn:Ep; try lia.
      exists p, (E + 1). split; [lia |]. split; [| split].
      * replace (E + 1 - E) with 1 by ring. rewrite Z.pow_1_r.
        rewrite Hm2, Hm1p. replace prec with (1 + (prec - 1)) at 2 by ring.
        rewrite Z.pow_add_r by lia. lia.
      * rewrite Hm2. apply Z.pow_lt_mono_r; lia.
      * split; [lia |]. split; [lia |]. unfold finite_or_overflow. rewrite He2. reflexivity.
Qed.


(** Rounding of a mantissa of at least [prec] digits, in the normal range:
    the result is a normal number less than one unit in the last place away
    from the value rounded. *)
Lemma binary_round_aux_normal sx mx ex lx :
  0 < mx ->
  prec <= Zdigits2 mx ->
  emin prec emax <= Zdigits2 mx + ex - prec ->
  Zdigits2 mx + ex - prec + 1 <= emax - prec ->
  exists v,
    normal prec emax sx v (binary_round_aux prec emax sx mx ex lx)
    /\ (IZR mx * bpow ex - bpow (Zdigits2 mx + ex - prec) < v
        <= IZR mx * bpow ex + bpow (Zdigits2 mx + ex - prec))%R
    /\ (IZR mx * bpow ex < 2 * v)%R
    /\ (mx mod 2 ^ (Zdigits2 mx - prec) = 0 -> (IZR mx * bpow ex <= v)%R)
    /\ (lx = loc_Exact -> Zdigits2 mx = prec -> v = (IZR mx * bpow ex)%R).
Proof.
  intros Hmx Hdig Hemin Hover.
  set (E := Zdigits2 mx + ex - prec) in *.
  replace (Zdigits2 mx - prec) with (E - ex) by (unfold E; ring).
  assert (HE : round_exp prec emax mx ex = E) by (unfold round_exp, fexp, E in *; lia).
  destruct (binary_round_aux_spec sx mx ex lx ltac:(lia))
    as (m1 & Hm1 & Hex & _ & Hfin).
  rewrite HE in *.
  set (k := E - ex) in *.
  assert (Hk : 0 <= k) by (unfold k, E; lia).
  assert (Hpow : 0 < 2 ^ k) by (apply Z.pow_pos_nonneg; lia).
  set (q := mx / 2 ^ k) in *.
  assert (Hdiv : q * 2 ^ k <= mx < (q + 1) * 2 ^ k).
  { pose proof (Z.div_mod mx (2 ^ k) ltac:(lia)).
    pose proof (Z.mod_pos_bound mx (2 ^ k) Hpow). unfold q. nia. }
  assert (Hqn : 2 ^ (prec - 1) <= q).
  { apply Z.div_le_lower_bound; [lia |].
    rewrite <- Z.pow_add_r by lia.
    replace (k + (prec - 1)) with (Zdigits2 mx - 1) by (unfold k, E; ring).
    apply Zdigits2_bounds. assumption. }
  assert (Hq0 : 0 < q) by (pose proof (Z.pow_pos_nonneg 2 (prec - 1)); lia).
  assert (HbE : bpow E = (bpow k * bpow ex)%R).
  { rewrite <- bpow_add. f_equal. unfold k. ring. }
  assert (HdivR : (IZR q * bpow E <= IZR mx * bpow ex < (IZR q + 1) * bpow E)%R).
  { destruct Hdiv as [H1 H2]. apply IZR_le in H1. apply IZR_lt in H2.
    rewrite mult_IZR, bpow_IZR in H1, H2 by assumption.
    rewrite plus_IZR in H2. rewrite HbE.
    pose proof (bpow_pos ex). split; nra. }
  destruct (Hfin ltac:(lia)) as (m & e & He & Hm & Hmp & Hem & Hnorm & Hres).
  assert (Hm1R : (IZR q <= IZR m1 <= IZR q + 1)%R).
  { destruct Hm1 as [H1 H2]. apply IZR_le in H1, H2. rewrite plus_IZR in H2. lra. }
  pose proof (bpow_pos E) as HposE.
  assert (Hq1 : (1 <= IZR q)%R) by (apply IZR_le; lia).
  exists (IZR m1 * bpow E)%R. split; [| split; [| split; [| split]]].
  - exists m, e. split; [| split; [| split; [split; auto | lia]]].
    + rewrite Hres. unfold finite_or_overflow.
      destruct (Z.leb_spec e (emax - prec)); [reflexivity | lia].
    + rewrite <- Hm, mult_IZR, bpow_IZR by lia.
      rewrite Rmult_assoc, <- bpow_add. do 2 f_equal. ring.
  - split; nra.
  - nra.
  - intros Hmod.
    assert (Hexact : q * 2 ^ k = mx).
    { pose proof (Z.div_mod mx (2 ^ k) ltac:(lia)). unfold q. lia. }
    apply (f_equal IZR) in Hexact. rewrite mult_IZR, bpow_IZR in Hexact by assumption.
    rewrite <- Hexact, HbE. pose proof (bpow_pos ex). pose proof (bpow_pos k). nra.
  - intros Hl Hd. assert (HEx : E = ex) by (unfold E; lia).
    rewrite (Hex Hl HEx), HEx. reflexivity.
Qed.

Lemma shl_align_lt (p : positive) e e' (d : positive) :
  e' - e = Zneg d ->
  shl_align p e e' = (Pos.iter xO p d, e')
  /\ Zpos (Pos.iter xO p d) = Zpos p * 2 ^ (e - e').
Proof.
  intros Hd. unfold shl_align. rewrite Hd. split; [reflexivity |].
  change (Pos.iter xO p d) with (Zpower.shift_pos d p).
  rewrite Zpower.shift_pos_correct.
  replace (e - e') with (Zpos d) by lia.
  change (Z.pow_pos 2 d) with (2 ^ Zpos d). ring.
Qed.

Lemma Zdigits2_mul_pow2 m k :
  0 < m -> 0 <= k -> Zdigits2 (m * 2 ^ k) = Zdigits2 m + k.
Proof.
  intros Hm Hk.
  assert (0 < 2 ^ k) by (apply Z.pow_pos_nonneg; lia).
  rewrite !Zdigits2_log2 by nia.
  rewrite Z.log2_mul_pow2 by lia. ring.
Qed.

(** [binary_round] in the normal range. *)
Lemma binary_round_normal sx (p : positive) e :
  emin prec emax <= Zdigits2 (Zpos p) + e - prec ->
  Zdigits2 (Zpos p) + e - prec + 1 <= emax - prec ->
  exists v,
    normal prec emax sx v (binary_round prec emax sx p e)
    /\ (IZR (Zpos p) * bpow e - bpow (Zdigits2 (Zpos p) + e - prec) < v
        <= IZR (Zpos p) * bpow e + bpow (Zdigits2 (Zpos p) + e - prec))%R
    /\ (Zdigits2 (Zpos p) <= prec -> v = (IZR (Zpos p) * bpow e)%R).
Proof.
  intros Hemin Hover. unfold binary_round.
  set (E := Zdigits2 (Zpos p) + e - prec) in *.
  change (Zpos (digits2_pos p)) with (Zdigits2 (Zpos p)).
  assert (HF : fexp prec emax (Zdigits2 (Zpos p) + e) = E) by (unfold fexp, E in *; lia).
  rewrite HF.
  destruct (E - e) as [| d | d] eqn:Hd.
  - unfold shl_align. rewrite Hd.
    destruct (binary_round_aux_normal sx (Zpos p) e loc_Exact
                ltac:(lia) ltac:(subst E; lia) ltac:(subst E; lia) ltac:(subst E; lia))
      as (v & Hn & Hb & _ & _ & Hex).
    exists v. fold E in Hb. split; [exact Hn |]. split; [exact Hb |].
    intros _. apply Hex; [reflexivity | unfold E in Hd; lia].
  - unfold shl_align. rewrite Hd.
    destruct (binary_round_aux_normal sx (Zpos p) e loc_Exact
                ltac:(lia) ltac:(subst E; lia) ltac:(subst E; lia) ltac:(subst E; lia))
      as (v & Hn & Hb & _ & _ & Hex).
    exists v. fold E in Hb. split; [exact Hn |]. split; [exact Hb |].
    intros Hle. unfold E in Hd. lia.
  - destruct (shl_align_lt p e E d Hd) as [-> Hmz].
    set (mz := Pos.iter xO p d) in *.
    assert (Hdz : Zdigits2 (Zpos mz) = prec).
    { rewrite Hmz, Zdigits2_mul_pow2 by lia. unfold E. ring. }
    destruct (binary_round_aux_normal sx (Zpos mz) E loc_Exact
                ltac:(lia) ltac:(lia) ltac:(lia) ltac:(lia))
      as (v & Hn & _ & _ & _ & Hex).
    assert (Hv : v = (IZR (Zpos p) * bpow e)%R).
    { rewrite Hex by auto. rewrite Hmz, mult_IZR, bpow_IZR by lia.
      rewrite Rmult_assoc, <- bpow_add. do 2 f_equal. ring. }
    exists v. split; [exact Hn |]. pose proof (bpow_pos E). split; [lra | auto].
Qed.

Lemma bpow_lt_inv a b : (bpow a < bpow b)%R -> a < b.
Proof.
  intros H. destruct (Z_lt_ge_dec a b) as [Hlt | Hge]; [assumption |].
  pose proof (bpow_le b a ltac:(lia)). lra.
Qed.

Lemma normal_digits s v x m e :
  normal prec emax s v x -> x = S754_finite s m e -> Zdigits2 (Zpos m) = prec.
Proof.
  intros (m' & e' & Hx & _ & Hm & _) Heq. rewrite Hx in Heq.
  injection Heq as <- <-.
  apply Z.le_antisymm.
  - apply Zdigits2_le; lia.
  - apply Zdigits2_ge; lia.
Qed.

Lemma normal_bounds s v x m e :
  normal prec emax s v x -> x = S754_finite s m e ->
  v = (IZR (Zpos m) * bpow e)%R
  /\ (bpow (prec - 1 + e) <= v < bpow (prec + e))%R
  /\ 2 ^ (prec - 1) <= Zpos m < 2 ^ prec
  /\ emin prec emax <= e <= emax - prec.
Proof.
  intros (m' & e' & Hx & Hv & Hm & He) Heq. rewrite Hx in Heq.
  injection Heq as <- <-.
  split; [exact Hv |]. split; [| split; assumption].
  destruct Hm as [H1 H2]. apply IZR_le in H1. apply IZR_lt in H2.
  rewrite bpow_IZR in H1, H2 by lia.
  rewrite !bpow_add, Hv. pose proof (bpow_pos e'). split; nra.
Qed.

Lemma Zdigits2_value m e B :
  0 < m -> (IZR m * bpow e < bpow B)%R -> Zdigits2 m + e <= B.
Proof.
  intros Hm Hv.
  pose proof (Zdigits2_bounds m Hm) as [H1 _].
  pose proof (Zdigits2_nonneg m).
  destruct (Z.eq_dec (Zdigits2 m) 0) as [Hz | Hnz].
  { rewrite Zdigits2_log2 in Hz by lia. pose proof (Z.log2_nonneg m). lia. }
  apply IZR_le in H1. rewrite bpow_IZR in H1 by lia.
  assert (Hlt : (bpow (Zdigits2 m - 1 + e) < bpow B)%R).
  { rewrite bpow_add. pose proof (bpow_pos e). nra. }
  apply bpow_lt_inv in Hlt. lia.
Qed.

Lemma Zdigits2_value_ge m e A :
  0 < m -> (bpow A <= IZR m * bpow e)%R -> A < Zdigits2 m + e.
Proof.
  intros Hm Hv.
  pose proof (Zdigits2_bounds m Hm) as [_ H2].
  pose proof (Zdigits2_nonneg m).
  apply IZR_lt in H2. rewrite bpow_IZR in H2 by lia.
  assert (Hlt : (bpow A < bpow (Zdigits2 m + e))%R).
  { rewrite bpow_add. pose proof (bpow_pos e). nra. }
  apply bpow_lt_inv in Hlt. lia.
Qed.

(** Product of two positive normal numbers whose exact product lies in
    [bpow A, bpow B). *)
Lemma SFmul_normal a b va vb A B :
  normal prec emax false va a -> normal prec emax false vb b ->
  (bpow A <= va * vb < bpow B)%R ->
  emin prec emax <= A + 1 - prec -> B - prec + 1 <= emax - prec ->
  exists v,
    normal prec emax false v (SFmul prec emax a b)
    /\ (va * vb - bpow (B - prec) < v <= va * vb + bpow (B - prec))%R
    /\ (va * vb < 2 * v)%R
    /\ (forall mb eb, b = S754_finite false mb eb ->
        Zpos mb = 2 ^ (prec - 1) -> (va * vb <= v)%R).
Proof.
  intros Ha Hb HV HA HB.
  destruct Ha as (ma & ea & -> & Hva & Hma & Hea).
  destruct Hb as (mb & eb & -> & Hvb & Hmb & Heb).
  cbn [SFmul xorb].
  change (Zpos (ma * mb)) with (Zpos ma * Zpos mb).
  set (mx := Zpos ma * Zpos mb). set (ex := ea + eb).
  assert (Hmx : 0 < mx) by (unfold mx; lia).
  assert (HVx : (va * vb = IZR mx * bpow ex)%R).
  { unfold mx, ex. rewrite Hva, Hvb, mult_IZR, bpow_add. ring. }
  rewrite HVx in *.
  assert (Hp1 : 0 < 2 ^ (prec - 1)) by (apply Z.pow_pos_nonneg; lia).
  assert (Hdig : prec <= Zdigits2 mx).
  { apply Zdigits2_ge; [assumption |]. unfold mx. nia. }
  pose proof (Zdigits2_value mx ex B Hmx ltac:(lra)) as HdB.
  pose proof (Zdigits2_value_ge mx ex A Hmx ltac:(lra)) as HdA.
  destruct (binary_round_aux_normal false mx ex loc_Exact
              Hmx Hdig ltac:(lia) ltac:(lia)) as (v & Hn & Hb & Hrel & Hmod & _).
  exists v. split; [exact Hn |]. split; [| split; [exact Hrel |]].
  - pose proof (bpow_le (Zdigits2 mx + ex - prec) (B - prec) ltac:(lia)). lra.
  - intros mb' eb' Heq Hpow. injection Heq as <- <-.
    apply Hmod.
    assert (Hd2 : Zdigits2 mx = Zdigits2 (Zpos ma) + (prec - 1)).
    { unfold mx. rewrite Hpow. apply Zdigits2_mul_pow2; lia. }
    assert (Hda : Zdigits2 (Zpos ma) = prec).
    { apply Z.le_antisymm; [apply Zdigits2_le | apply Zdigits2_ge]; lia. }
    rewrite Hd2, Hda. replace (prec + (prec - 1) - prec) with (prec - 1) by ring.
    unfold mx. rewrite Hpow. apply Z.mod_mul. lia.
Qed.

(** Quotient of two positive normal numbers whose exact quotient lies in
    [bpow A, bpow B); the bounds are stated after multiplying by the
    divisor. *)
Lemma SFdiv_normal a b va vb A B :
  normal prec emax false va a -> normal prec emax false vb b ->
  (bpow A * vb <= va < bpow B * vb)%R ->
  emin prec emax <= A - prec -> B - prec + 1 <= emax - prec ->
  exists v,
    normal prec emax false v (SFdiv prec emax a b)
    /\ (va - bpow (B - prec + 1) * vb < v * vb <= va + bpow (B - prec) * vb)%R.
Proof.
  intros Ha Hb HV HA HB.
  pose proof Ha as (ma & ea & Ea & _). pose proof Hb as (mb & eb & Eb & _).
  destruct (normal_bounds _ _ _ _ _ Ha Ea) as (Hva & Hra & Hma & Hea).
  destruct (normal_bounds _ _ _ _ _ Hb Eb) as (Hvb & Hrb & Hmb & Heb).
  pose proof (normal_digits _ _ _ _ _ Ha Ea) as Hda.
  pose proof (normal_digits _ _ _ _ _ Hb Eb) as Hdb.
  subst a b. cbn [SFdiv xorb]. unfold SFdiv_core_binary.
  rewrite Hda, Hdb.
  assert (Hvbpos : (0 < vb)%R) by (pose proof (bpow_pos (prec - 1 + eb)); lra).
  assert (HeA : A <= ea - eb).
  { assert (Hlt : (bpow (A + (prec - 1 + eb)) < bpow (prec + ea))%R).
    { rewrite bpow_add. pose proof (bpow_pos A). nra. }
    apply bpow_lt_inv in Hlt. lia. }
  assert (He' : Z.min (fexp prec emax (prec + ea - (prec + eb))) (ea - eb)
                = ea - eb - prec) by (unfold fexp; lia).
  rewrite He'. set (e' := ea - eb - prec) in *.
  replace (ea - eb - e') with prec by (unfold e'; lia).
  assert (Hshl : match prec with
                 | Zpos _ => Z.shiftl (Zpos ma) prec
                 | Z0 => Zpos ma
                 | Zneg _ => 0
                 end = Zpos ma * 2 ^ prec).
  { rewrite <- Z.shiftl_mul_pow2 by lia. clear -Hprec.
    destruct prec; [lia | reflexivity | lia]. }
  rewrite Hshl.
  set (m' := Zpos ma * 2 ^ prec).
  assert (Hp : 0 < 2 ^ prec) by (apply Z.pow_pos_nonneg; lia).
  assert (Hp1 : 0 < 2 ^ (prec - 1)) by (apply Z.pow_pos_nonneg; lia).
  assert (Hpp1 : 2 ^ prec = 2 * 2 ^ (prec - 1)).
  { replace prec with (1 + (prec - 1)) at 1 by ring.
    rewrite Z.pow_add_r by lia. reflexivity. }
  assert (Hq : fst (Z.div_eucl m' (Zpos mb)) = m' / Zpos mb) by reflexivity.
  destruct (Z.div_eucl m' (Zpos mb)) as [q r]. cbn [fst] in Hq. subst q.
  set (q := m' / Zpos mb).
  assert (Hqdiv : q * Zpos mb <= m' < (q + 1) * Zpos mb).
  { pose proof (Z.div_mod m' (Zpos mb) ltac:(lia)).
    pose proof (Z.mod_pos_bound m' (Zpos mb) ltac:(lia)). unfold q. nia. }
  assert (Hqn : 2 ^ (prec - 1) <= q).
  { apply Z.div_le_lower_bound; [lia |]. unfold m'. nia. }
  assert (Hqd : prec <= Zdigits2 q) by (apply Zdigits2_ge; lia).
  (* the truncated quotient against the exact one *)
  assert (HbE : (bpow e' * bpow eb * bpow prec = bpow ea)%R).
  { rewrite <- !bpow_add. f_equal. unfold e'. ring. }
  assert (HqR : (IZR q * bpow e' * vb <= va < (IZR q + 1) * bpow e' * vb)%R).
  { destruct Hqdiv as [H1 H2]. apply IZR_le in H1. apply IZR_lt in H2.
    unfold m' in H1, H2.
    rewrite !mult_IZR, bpow_IZR in H1, H2 by lia. rewrite plus_IZR in H2.
    pose proof (bpow_pos e'). pose proof (bpow_pos eb).
    set (c := (bpow e' * bpow eb)%R).
    assert (Hc : (0 < c)%R) by (unfold c; nra).
    assert (Eva : va = (IZR (Zpos ma) * bpow prec * c)%R).
    { rewrite Hva, <- HbE. unfold c. ring. }
    assert (El : (IZR q * bpow e' * vb = IZR q * IZR (Zpos mb) * c)%R).
    { rewrite Hvb. unfold c. ring. }
    assert (Er : ((IZR q + 1) * bpow e' * vb = (IZR q + 1) * IZR (Zpos mb) * c)%R).
    { rewrite Hvb. unfold c. ring. }
    rewrite El, Er, Eva. split.
    - apply Rmult_le_compat_r; lra.
    - apply Rmult_lt_compat_r; lra. }
  assert (HqB : (IZR q * bpow e' < bpow B)%R).
  { destruct (Rlt_dec (IZR q * bpow e') (bpow B)) as [Hlt | Hge]; [assumption |].
    exfalso. nra. }
  pose proof (Zdigits2_value q e' B ltac:(lia) HqB) as HdB.
  destruct (binary_round_aux_normal false q e' (new_location (Zpos mb) r)
              ltac:(lia) Hqd ltac:(lia) ltac:(lia)) as (v & Hn & Hb' & _).
  clear Hshl.
  exists v. split; [exact Hn |].
  pose proof (bpow_le (Zdigits2 q + e' - prec) (B - prec) ltac:(lia)) as HE1.
  pose proof (bpow_le e' (B - prec) ltac:(lia)) as HE2.
  assert (HB1 : bpow (B - prec + 1) = (2 * bpow (B - prec))%R).
  { rewrite bpow_add. replace (bpow 1) with 2%R by (unfold bpow; simpl; lra). ring. }
  rewrite HB1.
  pose proof (bpow_pos e'). pose proof (bpow_pos (Zdigits2 q + e' - prec)).
  split; nra.
Qed.

End RoundAux.


(** ** The conversions of C *)

Section Conversions.

Lemma double_trunc_spec m e :
  exists n, double_trunc (S754_finite false m e) = Some n /\ 0 <= n
            /\ (IZR n <= IZR (Zpos m) * bpow e < IZR n + 1)%R.
Proof.
  cbn [double_trunc cond_Zopp].
  destruct e as [| p | p].
  - exists (Zpos m). rewrite Z.mul_1_r, bpow_0. split; [reflexivity |].
    split; [lia | lra].
  - exists (Zpos m * 2 ^ Zpos p). split; [reflexivity |].
    split; [lia |]. rewrite mult_IZR, bpow_IZR by lia. lra.
  - set (k := Zpos p). set (n := Zpos m / 2 ^ k).
    assert (Hk : 0 < 2 ^ k) by (apply Z.pow_pos_nonneg; lia).
    exists n. split; [reflexivity |].
    split; [apply Z.div_pos; lia |].
    assert (Hdiv : n * 2 ^ k <= Zpos m < (n + 1) * 2 ^ k).
    { pose proof (Z.div_mod (Zpos m) (2 ^ k) ltac:(lia)).
      pose proof (Z.mod_pos_bound (Zpos m) (2 ^ k) Hk). unfold n. nia. }
    destruct Hdiv as [H1 H2]. apply IZR_le in H1. apply IZR_lt in H2.
    rewrite mult_IZR, bpow_IZR in H1, H2 by lia. rewrite plus_IZR in H2.
    assert (Hinv : (bpow k * bpow (Zneg p) = 1)%R).
    { rewrite <- bpow_add. replace (k + Zneg p) with 0 by (unfold k; lia).
      apply bpow_0. }
    pose proof (bpow_pos k). pose proof (bpow_pos (Zneg p)).
    split.
    + replace (IZR n) with (IZR n * bpow k * bpow (Zneg p))%R
        by (rewrite Rmult_assoc, Hinv; ring).
      apply Rmult_le_compat_r; lra.
    + replace (IZR n + 1)%R with ((IZR n + 1) * bpow k * bpow (Zneg p))%R
        by (rewrite Rmult_assoc, Hinv; ring).
      apply Rmult_lt_compat_r; lra.
Qed.

(** The conversion of a positive normal double below [2^32] is the integer
    part of its value. *)
Lemma uint32_of_double_floor prec emax v x :
  normal prec emax false v x -> (v < IZR (2 ^ 32))%R ->
  exists n, uint32_of_double x = Some n /\ 0 <= n < 2 ^ 32
            /\ (IZR n <= v < IZR n + 1)%R.
Proof.
  intros (m & e & -> & Hv & _) Hlt.
  destruct (double_trunc_spec m e) as (n & Hn & Hn0 & Hb).
  rewrite <- Hv in Hb.
  assert (Hn32 : n < 2 ^ 32) by (apply lt_IZR; lra).
  exists n. unfold uint32_of_double. rewrite Hn.
  destruct (Z.leb_spec 0 n); [| lia].
  destruct (Z.ltb_spec n (2 ^ 32)); [| lia].
  cbn [andb]. repeat split; auto; lra.
Qed.

Lemma float_of_uint32_normal P :
  0 < P < 2 ^ 32 ->
  exists v,
    normal 24 128 false v (float_of_uint32 P)
    /\ (IZR P - bpow 8 < v <= IZR P + bpow 8)%R
    /\ (P < 2 ^ 24 -> v = IZR P).
Proof.
  intros HP. destruct P as [| p | p]; try lia.
  unfold float_of_uint32. cbn [binary_normalize].
  assert (Hd1 : 1 <= Zdigits2 (Zpos p)) by (apply Zdigits2_ge; cbn; lia).
  assert (Hd2 : Zdigits2 (Zpos p) <= 32) by (apply Zdigits2_le; lia).
  destruct (binary_round_normal 24 128 ltac:(lia) false p 0)
    as (v & Hn & Hb & Hex); try (unfold emin; lia).
  rewrite bpow_0, Rmult_1_r in Hb, Hex.
  exists v. split; [exact Hn |]. split.
  - pose proof (bpow_le (Zdigits2 (Zpos p) + 0 - 24) 8 ltac:(lia)). lra.
  - intros Hlt. apply Hex. apply Zdigits2_le; lia.
Qed.

Lemma double_of_int_normal x :
  0 < x < 2 ^ 53 -> normal 53 1024 false (IZR x) (double_of_int x).
Proof.
  intros Hx. destruct x as [| p | p]; try lia.
  unfold double_of_int. cbn [binary_normalize].
  assert (Hd1 : 1 <= Zdigits2 (Zpos p)) by (apply Zdigits2_ge; cbn; lia).
  assert (Hd2 : Zdigits2 (Zpos p) <= 53) by (apply Zdigits2_le; lia).
  destruct (binary_round_normal 53 1024 ltac:(lia) false p 0)
    as (v & Hn & _ & Hex); try (unfold emin; lia).
  rewrite bpow_0, Rmult_1_r in Hex. rewrite <- Hex; assumption.
Qed.

Lemma double_of_float_normal s v x :
  normal 24 128 s v x -> normal 53 1024 s v (double_of_float x).
Proof.
  intros Hx. pose proof Hx as (m & e & Ex & _).
  destruct (normal_bounds 24 128 ltac:(lia) _ _ _ _ _ Hx Ex) as (Hv & _ & Hm & He).
  pose proof (normal_digits 24 128 ltac:(lia) _ _ _ _ _ Hx Ex) as Hd.
  subst x. cbn [double_of_float]. unfold emin in He.
  destruct (binary_round_normal 53 1024 ltac:(lia) s m e)
    as (w & Hn & _ & Hex); try (unfold emin; lia).
  rewrite Hv, <- Hex by lia. exact Hn.
Qed.

End Conversions.

Section Periodic.

Lemma duty_0_quotient :
  double_div (double_of_float (float_of_uint32 0)) (double_of_int 100)
  = S754_zero false.
Proof. reflexivity. Qed.

Lemma duty_100_quotient :
  double_div (double_of_float (float_of_uint32 100)) (double_of_int 100)
  = S754_finite false (2 ^ 52) (-52).
Proof. vm_compute. reflexivity. Qed.

Lemma period_as_double P :
  0 < P < 2 ^ 32 ->
  exists v,
    normal 53 1024 false v (double_of_float (float_of_uint32 P))
    /\ (IZR P - bpow 8 < v <= IZR P + bpow 8)%R
    /\ (P < 2 ^ 24 -> v = IZR P).
Proof.
  intros HP. destruct (float_of_uint32_normal P HP) as (v & Hn & Hb & Hex).
  exists v. split; [apply double_of_float_normal; exact Hn | auto].
Qed.

Lemma periodic_duty_0 P :
  0 <= P < 2 ^ 32 -> periodic_process P 0 = Some 0.
Proof.
  intros HP. unfold periodic_process. rewrite duty_0_quotient.
  destruct (Z.eq_dec P 0) as [-> | Hnz]; [reflexivity |].
  destruct (period_as_double P ltac:(lia)) as (v & (m & e & -> & _) & _).
  reflexivity.
Qed.

Lemma periodic_duty_100 P :
  0 <= P < 2 ^ 24 -> periodic_process P 100 = Some P.
Proof.
  intros HP. unfold periodic_process. rewrite duty_100_quotient.
  destruct (Z.eq_dec P 0) as [-> | Hnz]; [reflexivity |].
  destruct (period_as_double P ltac:(lia)) as (v & Hn & _ & Hex).
  rewrite Hex in Hn by lia. clear Hex v.
  assert (Hone : normal 53 1024 false 1 (S754_finite false (2 ^ 52) (-52))).
  { exists (2 ^ 52)%positive, (-52). split; [reflexivity |].
    split; [| repeat split; vm_compute; congruence].
    change (Zpos (2 ^ 52)) with (2 ^ 52). rewrite bpow_IZR by lia.
    rewrite <- bpow_add. symmetry. apply bpow_0. }
  assert (HP1 : (1 <= IZR P)%R) by (apply IZR_le; lia).
  assert (HP2 : (IZR P < IZR (2 ^ 24))%R) by (apply IZR_lt; lia).
  rewrite bpow_IZR in HP2 by lia.
  destruct (SFmul_normal 53 1024 ltac:(lia) _ _ _ _ 0 24 Hn Hone)
    as (w & Hw & Hb & _ & Hpow); try (unfold emin; lia).
  { rewrite bpow_0. lra. }
  specialize (Hpow (2 ^ 52)%positive (-52) eq_refl eq_refl).
  rewrite Rmult_1_r in Hb, Hpow.
  assert (Hsmall : (bpow (24 - 53) < 1)%R).
  { rewrite <- bpow_0. apply bpow_lt. lia. }
  destruct (uint32_of_double_floor _ _ _ _ Hw) as (n & Hn' & _ & Hfl).
  { assert (IZR (2 ^ 24) + 1 <= IZR (2 ^ 32))%R.
    { rewrite <- plus_IZR. apply IZR_le. lia. }
    rewrite (bpow_IZR 24) in H by lia. lra. }
  unfold double_mul. rewrite Hn'. f_equal.
  assert (n < P + 1) by (apply lt_IZR; rewrite plus_IZR; lra).
  assert (P < n + 1) by (apply lt_IZR; rewrite plus_IZR; lra).
  lia.
Qed.

End Periodic.

Section PeriodicGeneral.

Lemma bpow_m10 : bpow (-10) = (/ 1024)%R.
Proof. unfold bpow. simpl. lra. Qed.

Lemma bpow_m7 : bpow (-7) = (/ 128)%R.
Proof. unfold bpow. simpl. lra. Qed.

Lemma bpow_1 : bpow 1 = 2%R.
Proof. unfold bpow. simpl. lra. Qed.

Lemma bpow_small k : k <= -10 -> (0 < bpow k <= / 1024)%R.
Proof.
  intros Hk. split; [apply bpow_pos |].
  rewrite <- bpow_m10. apply bpow_le. assumption.
Qed.

Lemma double_100_normal : normal 53 1024 false 100 (double_of_int 100).
Proof. apply (double_of_int_normal 100). lia. Qed.

(** The quotient [(float) D / 100.0] for a duty cycle [D] in [1, 100]. *)
Lemma duty_quotient D :
  1 <= D <= 100 ->
  exists vq,
    normal 53 1024 false vq
      (double_div (double_of_float (float_of_uint32 D)) (double_of_int 100))
    /\ (IZR D - bpow (-51) * 100 < vq * 100 <= IZR D + bpow (-52) * 100)%R.
Proof.
  intros HD.
  destruct (period_as_double D ltac:(lia)) as (v & Hn & _ & Hex).
  rewrite Hex in Hn by lia. clear Hex v.
  assert (HD1 : (1 <= IZR D <= 100)%R) by (split; apply IZR_le; lia).
  destruct (SFdiv_normal 53 1024 ltac:(lia) _ _ _ _ (-7) 1 Hn double_100_normal)
    as (vq & Hq & Hb); try (unfold emin; lia).
  { rewrite bpow_m7, bpow_1. lra. }
  exists vq. split; [exact Hq | exact Hb].
Qed.

Lemma periodic_process_bounds P D :
  0 <= P < 2 ^ 24 -> 0 <= D <= 100 ->
  exists p,
    periodic_process P D = Some p
    /\ (p = P * D / 100 \/ ((P * D) mod 100 = 0 /\ p = P * D / 100 - 1))
    /\ 0 <= p <= P.
Proof.
  intros HP HD.
  assert (Hn100 : 0 <= P * D / 100 <= P).
  { split; [apply Z.div_pos; nia |].
    apply Z.div_le_upper_bound; nia. }
  destruct (Z.eq_dec D 0) as [-> | HD0].
  { exists 0. rewrite periodic_duty_0 by lia.
    rewrite Z.mul_0_r. cbn. repeat split; auto; lia. }
  destruct (duty_quotient D ltac:(lia)) as (vq & Hq & Hbq).
  destruct (Z.eq_dec P 0) as [-> | HP0].
  { exists 0. unfold periodic_process.
    destruct Hq as (mq & eq & -> & _). cbn. repeat split; auto; lia. }
  destruct (period_as_double P ltac:(lia)) as (v & Hn & _ & Hex).
  rewrite Hex in Hn by lia. clear Hex v.
  assert (HP1 : (1 <= IZR P)%R) by (apply IZR_le; lia).
  assert (HP2 : (IZR P < bpow 24)%R) by (rewrite <- bpow_IZR by lia; apply IZR_lt; lia).
  assert (HD1 : (1 <= IZR D <= 100)%R) by (split; apply IZR_le; lia).
  destruct (bpow_small (-51) ltac:(lia)) as [He51 He51'].
  destruct (bpow_small (-52) ltac:(lia)) as [He52 He52'].
  destruct (bpow_small (-28) ltac:(lia)) as [He28 He28'].
  destruct (bpow_small (-27) ltac:(lia)) as [He27 He27'].
  assert (H2451 : (bpow 24 * bpow (-51) = bpow (-27))%R) by (rewrite <- bpow_add; reflexivity).
  assert (H2452 : (bpow 24 * bpow (-52) = bpow (-28))%R) by (rewrite <- bpow_add; reflexivity).
  assert (H25 : (bpow 25 = 2 * bpow 24)%R).
  { replace 25 with (1 + 24) by reflexivity. rewrite bpow_add, bpow_1. reflexivity. }
  (* the exact product against P * D / 100 *)
  set (V := (IZR P * vq)%R).
  assert (HV : (IZR P * IZR D - 100 * bpow (-27) < V * 100
                <= IZR P * IZR D + 100 * bpow (-28))%R).
  { unfold V. split.
    - assert (IZR P * bpow (-51) <= bpow (-27))%R by (rewrite <- H2451; nra).
      nra.
    - assert (IZR P * bpow (-52) <= bpow (-28))%R by (rewrite <- H2452; nra).
      nra. }
  assert (HVr : (bpow (-7) <= V < bpow 25)%R).
  { rewrite bpow_m7, H25. unfold V. split; nra. }
  destruct (SFmul_normal 53 1024 ltac:(lia) _ _ _ _ (-7) 25 Hn Hq HVr)
    as (w & Hw & Hb & _); try (unfold emin; lia).
  fold V in Hb. replace (25 - 53) with (-28) in Hb by reflexivity.
  destruct (uint32_of_double_floor _ _ _ _ Hw) as (p & Hp & [Hp0 _] & Hfl).
  { assert (2 * IZR (2 ^ 24) + 1 <= IZR (2 ^ 32))%R.
    { rewrite <- (mult_IZR 2), <- plus_IZR. apply IZR_le. lia. }
    rewrite (bpow_IZR 24) in H by lia. lra. }
  exists p. split; [exact Hp |].
  (* integer quotient and remainder of P * D by 100 *)
  set (n := P * D / 100) in *. set (f := (P * D) mod 100).
  assert (Hf : 0 <= f < 100) by (apply Z.mod_pos_bound; lia).
  assert (Hnf : P * D = 100 * n + f) by (apply Z.div_mod; lia).
  assert (HnfR : (IZR P * IZR D = 100 * IZR n + IZR f)%R).
  { rewrite <- mult_IZR, Hnf, plus_IZR, mult_IZR. reflexivity. }
  assert (HfR : (0 <= IZR f <= 99)%R) by (split; apply IZR_le; lia).
  assert (Hup : p < n + 1) by (apply lt_IZR; rewrite plus_IZR; lra).
  assert (Hlo : n - 1 < p + 1) by (apply lt_IZR; rewrite minus_IZR, plus_IZR; lra).
  split; [| lia].
  destruct (Z.eq_dec f 0) as [Hf0 | Hf0].
  - destruct (Z.eq_dec p n); [left; assumption | right; split; [assumption | lia]].
  - left.
    assert (Hf1 : (1 <= IZR f)%R) by (apply IZR_le; lia).
    assert (n < p + 1) by (apply lt_IZR; rewrite plus_IZR; lra).
    lia.
Qed.

End PeriodicGeneral.

Section NormalRandom.

Lemma bpow_const k : 0 <= k -> bpow k = IZR (2 ^ k).
Proof. intros Hk. symmetry. apply bpow_IZR. assumption. Qed.

Lemma rand_max_normal :
  normal 53 1024 false (IZR RAND_MAX) (double_of_int RAND_MAX).
Proof. apply double_of_int_normal. unfold RAND_MAX. lia. Qed.

Lemma normal_random_bounded max_value rnd :
  0 <= max_value < 2 ^ 32 -> 0 <= rnd <= RAND_MAX ->
  exists n, normal_random max_value rnd = Some n /\ 0 <= n <= max_value.
Proof.
  intros Hmax Hrnd. unfold normal_random.
  pose proof rand_max_normal as HRM.
  destruct (Z.eq_dec rnd 0) as [-> | Hr0].
  { exists 0. split; [| lia].
    destruct HRM as (mr & er & -> & _).
    destruct (Z.eq_dec max_value 0) as [-> | Hm0]; [reflexivity |].
    destruct (double_of_int_normal max_value) as (mm & em & -> & _).
    { unfold RAND_MAX in *. lia. }
    reflexivity. }
  assert (Hr53 : 0 < rnd < 2 ^ 53) by (unfold RAND_MAX in *; lia).
  pose proof (double_of_int_normal rnd Hr53) as HR.
  destruct (Z.eq_dec max_value 0) as [-> | Hm0].
  { exists 0. split; [| lia].
    destruct HRM as (mr & er & -> & _). destruct HR as (m & e & -> & _).
    reflexivity. }
  pose proof (double_of_int_normal max_value ltac:(lia)) as HM.
  assert (Hm1 : (1 <= IZR max_value <= 4294967295)%R) by (split; apply IZR_le; lia).
  assert (Hr1 : (1 <= IZR rnd <= 2147483647)%R)
    by (split; apply IZR_le; unfold RAND_MAX in *; lia).
  assert (B10 : bpow 10 = 1024%R) by (rewrite bpow_const by lia; reflexivity).
  assert (B63 : bpow 63 = 9223372036854775808%R) by (rewrite bpow_const by lia; reflexivity).
  assert (B32 : bpow 32 = 4294967296%R) by (rewrite bpow_const by lia; reflexivity).
  assert (Bm32 : (bpow (-32) * 4294967296 = 1)%R).
  { rewrite <- B32, <- bpow_add. apply bpow_0. }
  destruct (bpow_small (-20) ltac:(lia)) as [He20 He20'].
  destruct (bpow_small (-21) ltac:(lia)) as [He21 He21'].
  set (V := (IZR max_value * IZR rnd)%R).
  assert (HV : (1 <= V <= 4294967295 * 2147483647)%R) by (unfold V; nra).
  destruct (SFmul_normal 53 1024 ltac:(lia) _ _ _ _ 0 63 HM HR)
    as (w & Hw & Hbw & Hrel & _); try (unfold emin; lia).
  { fold V. rewrite bpow_0, B63. lra. }
  fold V in Hbw, Hrel. replace (63 - 53) with 10 in Hbw by reflexivity.
  rewrite B10 in Hbw.
  destruct (SFdiv_normal 53 1024 ltac:(lia) _ _ _ _ (-32) 32 Hw HRM)
    as (u & Hu & Hbu); try (unfold emin; lia).
  { unfold RAND_MAX. rewrite B32. split; [nra | lra]. }
  replace (32 - 53) with (-21) in Hbu by reflexivity.
  replace (32 - 53 + 1) with (-20) in Hbu by reflexivity.
  unfold RAND_MAX in Hbu.
  assert (Hu1 : (u < IZR max_value + 1)%R).
  { assert (V <= IZR max_value * 2147483647)%R by (unfold V; nra).
    nra. }
  destruct (uint32_of_double_floor _ _ _ _ Hu) as (n & Hn & [Hn0 _] & Hfl).
  { assert (IZR 4294967295 + 1 <= IZR (2 ^ 32))%R.
    { rewrite <- plus_IZR. apply IZR_le. lia. }
    lra. }
  exists n. split; [exact Hn |].
  assert (n < max_value + 1) by (apply lt_IZR; rewrite plus_IZR; lra).
  lia.
Qed.

End NormalRandom.

(** ** The periodic worker *)

Section PeriodicWorker.

(** C4, as stated, fails: with a period of 100 us and a duty cycle of 29 the
    processing time is 28 us, not 100 * 29 / 100 = 29 us. *)
Lemma periodic_split_counterexample :
  periodic_process 100 29 = Some 28 /\ 100 * 29 / 100 = 29.
Proof. split; vm_compute; reflexivity. Qed.

(** C4, amended: for a period [P < 2^24] and a duty cycle [D <= 100] the
    processing time is [P * D / 100], or one less when 100 divides [P * D];
    the sleep time is [P] minus the processing time, and [worker_periodic]
    sleeps and then spins for these two amounts; [D = 0] gives no
    processing and a sleep of [P], [D = 100] gives a processing time of [P]
    and no sleep. *)
Theorem periodic_split (P D : Z) :
  0 <= P < 2 ^ 24 -> 0 <= D <= 100 ->
  exists process,
    periodic_process P D = Some process
    /\ (process = P * D / 100
        \/ ((P * D) mod 100 = 0 /\ process = P * D / 100 - 1))
    /\ periodic_sleep P process = P - process
    /\ (forall E fuel wd s,
           period_duration wd = P -> period_duty_cycle wd = D ->
           worker_periodic E fuel wd s
           = spin_until E fuel
               (timespec_add_us (clock E (clk s)) process)
               (snd (clock_gettime E (usleep (P - process) s))))
    /\ (D = 0 -> process = 0 /\ periodic_sleep P process = P)
    /\ (D = 100 -> process = P /\ periodic_sleep P process = 0).
Proof.
  intros HP HD.
  destruct (periodic_process_bounds P D HP HD) as (p & Hp & Hval & Hrange).
  assert (Hsleep : periodic_sleep P p = P - p).
  { unfold periodic_sleep. apply u32_id. unfold is_u32. lia. }
  exists p. split; [exact Hp |]. split; [exact Hval |].
  split; [exact Hsleep |]. split; [| split].
  - intros E fuel wd s HwP HwD. unfold worker_periodic.
    rewrite HwP, HwD, Hp. cbn [of_option bind]. rewrite Hsleep. reflexivity.
  - intros ->. rewrite periodic_duty_0 in Hp by lia.
    injection Hp as <-. split; [reflexivity |]. rewrite Hsleep. ring.
  - intros ->. rewrite periodic_duty_100 in Hp by lia.
    injection Hp as <-. split; [reflexivity |]. rewrite Hsleep. ring.
Qed.

Lemma periodic_split_witness :
  exists process,
    periodic_process 1000 10 = Some process
    /\ (process = 1000 * 10 / 100
        \/ ((1000 * 10) mod 100 = 0 /\ process = 1000 * 10 / 100 - 1))
    /\ periodic_sleep 1000 process = 1000 - process
    /\ (forall E fuel wd s,
           period_duration wd = 1000 -> period_duty_cycle wd = 10 ->
           worker_periodic E fuel wd s
           = spin_until E fuel
               (timespec_add_us (clock E (clk s)) process)
               (snd (clock_gettime E (usleep (1000 - process) s))))
    /\ (10 = 0 -> process = 0 /\ periodic_sleep 1000 process = 1000)
    /\ (10 = 100 -> process = 1000 /\ periodic_sleep 1000 process = 0).
Proof.
  apply (periodic_split 1000 10); lia.
Defined.

(** C10 fails on the code: for the period 16777219 us and the duty cycle
    100, accepted by [main], [(float) duration] rounds up to 16777220, the
    processing time exceeds the period and the sleep time wraps around to
    4294967295 us. *)
Theorem periodic_process_exceeds_period :
  rejects WORKER_PERIODC 16777219 100 = false
  /\ periodic_process 16777219 100 = Some 16777220
  /\ periodic_sleep 16777219 16777220 = 4294967295.
Proof. repeat split; vm_compute; reflexivity. Qed.

End PeriodicWorker.

(** ** The trace of the polling loop *)

Section PollingTrace.


End PollingTrace.

(** ** Validation of the configuration *)

Section Validation.

Lemma parse_cmdline_app opts1 opts2 c c1 :
  parse_cmdline opts1 c = Ok c1 ->
  parse_cmdline (opts1 ++ opts2) c = parse_cmdline opts2 c1.
Proof.
  revert c. induction opts1 as [| o opts1 IH]; intros c H; cbn in *.
  - injection H as ->. reflexivity.
  - destruct (parse_option c o); try discriminate. apply IH. exact H.
Qed.

Lemma malformed_count_exits c ch optarg :
  count_option ch -> sscanf_hhu optarg = None ->
  parse_option c (Opt ch optarg) = Exit 255.
Proof.
  intros [-> | [-> | [-> | ->]]] Hscan; cbn; rewrite Hscan; reflexivity.
Qed.

(** One turn of a loop over workers with parameters, once the two
    parameters are known. *)
Lemma alloc_params_turn rt kind n i w stringp p1 p2 t1 t2 sp1 sp2 :
  strsep stringp = (Some t1, sp1) ->
  strsep sp1 = (Some t2, sp2) ->
  let q1 := match sscanf_d t1 with Some v => v | None => p1 end in
  let q2 := match sscanf_d t2 with Some v => v | None => p2 end in
  alloc_params rt kind (S n) i w stringp p1 p2
  = if rejects kind q1 q2 then sfail (exit (-1))
    else sbind (create_worker rt (w + i)
                  {| wd_id := u8 (i + 1); wd_pid := 0; wd_kind := kind;
                     wd_params := (q1, q2) |})
           (fun _ => alloc_params rt kind n (i + 1) w sp2 q1 q2).
Proof.
  intros H1 H2 q1 q2. cbn [alloc_params]. rewrite H1. cbn [scan_param].
  rewrite H2. cbn [scan_param]. reflexivity.
Qed.

(** C6, as stated, fails: a duty cycle of 150 is rejected only once the
    BATCH worker asked for before it has been launched; and a malformed
    duration is reported and ignored, the worker is launched and the set-up
    goes on. *)
Lemma config_validation_counterexample :
  main_setup rt_ok [Opt "b" "1"; Opt "p" "1,1000,150"] 0 0
  = ([Create 0 (mkwdata 1 0 WORKER_BATCH (0, 0))], Exit 255)
  /\ exists c,
       main_setup rt_ok [Opt "d" "x"; Opt "b" "1"] 0 0
       = ([Create 0 (mkwdata 1 0 WORKER_BATCH (0, 0))], Ok (c, 1)).
Proof.
  split; [vm_compute; reflexivity |].
  eexists. vm_compute. reflexivity.
Qed.

(** The loop over [a + b] workers is the loop over the first [a] followed
    by the loop over the other [b]. *)
Lemma alloc_params_split rt kind a b :
  forall i w stringp p1 p2,
    alloc_params rt kind (a + b) i w stringp p1 p2
    = sbind (alloc_params rt kind a i w stringp p1 p2)
        (fun st => alloc_params rt kind b (i + Z.of_nat a) w
                     (fst (fst st)) (snd (fst st)) (snd st)).
Proof.
  induction a as [| a IH]; intros i w stringp p1 p2.
  - cbn [Nat.add alloc_params sret sbind fst snd Z.of_nat].
    rewrite Z.add_0_r.
    destruct (alloc_params rt kind b i w stringp p1 p2) as [l o]. reflexivity.
  - cbn [Nat.add alloc_params].
    destruct (strsep stringp) as [param1 sp1].
    destruct (scan_param param1 p1) as [q1 | | |]; try reflexivity.
    destruct (strsep sp1) as [param2 sp2].
    destruct (scan_param param2 p2) as [q2 | | |]; try reflexivity.
    destruct (rejects kind q1 q2); [reflexivity |].
    unfold create_worker.
    destruct (pthread_create_ok rt (w + i)); [| reflexivity].
    cbn [sbind]. rewrite IH.
    replace (i + 1 + Z.of_nat a) with (i + Z.of_nat (S a)) by lia.
    destruct (alloc_params rt kind a (i + 1) w sp2 q1 q2) as [l [st | st | |]];
      cbn [sbind]; try reflexivity.
    destruct (alloc_params rt kind b (i + Z.of_nat (S a)) w
                (fst (fst st)) (snd (fst st)) (snd st)) as [l' o'].
    reflexivity.
Qed.

(** C6, amended: a malformed count of workers met by [parse_cmdline] makes
    the process exit with status 255 before any worker is launched; a
    duty cycle above 100 makes it exit with status 255 when [main] comes to
    that PERIODIC worker, which is not launched, nor is any worker after
    it: the workers launched are those set up before, [lb], [li] and
    [lp]. *)
Theorem config_validation (rt : runtime) (p1 p2 : Z)
  (opts1 opts2 : list getopt_item) (c1 : conf) (ch : ascii) (optarg : string)
  (opts : list getopt_item) (c : conf) (lb li lp : list launch)
  (sti stp : option string * Z * Z) (j n : nat)
  (t1 t2 : string) (sp1 sp2 : option string) :
  (* a malformed count *)
  parse_cmdline opts1 conf_init = Ok c1 ->
  count_option ch -> sscanf_hhu optarg = None ->
  (* a duty cycle above 100 for the PERIODIC worker that follows [j] others *)
  parse_cmdline opts conf_init = Ok c ->
  alloc_batch rt (Z.to_nat (conf_bw c)) 0 0 = (lb, Ok tt) ->
  alloc_params rt WORKER_INTERACTIVE (Z.to_nat (conf_iw c)) 0 (u8 (0 + conf_bw c))
    (snd (strsep (conf_iparams c))) p1 p2 = (li, Ok sti) ->
  Z.to_nat (conf_pw c) = (j + S n)%nat ->
  alloc_params rt WORKER_PERIODC j 0 (u8 (u8 (0 + conf_bw c) + conf_iw c))
    (snd (strsep (conf_pparams c))) (snd (fst sti)) (snd sti) = (lp, Ok stp) ->
  strsep (fst (fst stp)) = (Some t1, sp1) ->
  strsep sp1 = (Some t2, sp2) ->
  100 < match sscanf_d t2 with Some v => v | None => snd stp end ->
  main_setup rt (opts1 ++ Opt ch optarg :: opts2) p1 p2 = ([], Exit 255)
  /\ main_setup rt opts p1 p2 = ((lb ++ li ++ lp)%list, Exit 255)
  /\ 255 <> 0.
Proof.
  intros Hp1 Hch Hscan Hp Hb Hi Hn Hj Ht1 Ht2 Hduty.
  split; [| split; [| discriminate]].
  - unfold main_setup.
    rewrite (parse_cmdline_app _ _ _ _ Hp1). cbn [parse_cmdline].
    rewrite (malformed_count_exits _ _ _ Hch Hscan). reflexivity.
  - unfold main_setup. rewrite Hp. unfold alloc_workers.
    rewrite Hb. cbn [sbind]. rewrite Hi. cbn [sbind fst snd].
    rewrite Hn, alloc_params_split, Hj. cbn [sbind].
    rewrite (alloc_params_turn _ _ _ _ _ _ _ _ _ _ _ _ Ht1 Ht2).
    cbn [rejects].
    destruct (Z.gtb_spec
                match sscanf_d t2 with Some v => v | None => snd stp end 100)
      as [_ | Hle]; [| lia].
    cbn. rewrite !app_nil_r. reflexivity.
Qed.

Lemma config_validation_witness :
  main_setup rt_ok ([Opt "d" "2"] ++ Opt "i" "x,1000,500" :: [Opt "b" "1"]) 0 0
  = ([], Exit 255)
  /\ main_setup rt_ok [Opt "b" "1"; Opt "p" "2,1000,50,2000,101"] 0 0
     = (([Create 0 (mkwdata 1 0 WORKER_BATCH (0, 0))] ++ []
         ++ [Create 1 (mkwdata 1 0 WORKER_PERIODC (1000, 50))])%list, Exit 255)
  /\ 255 <> 0.
Proof.
  eapply (config_validation rt_ok 0 0
            [Opt "d" "2"] [Opt "b" "1"] _ "i"%char "x,1000,500"
            [Opt "b" "1"; Opt "p" "2,1000,50,2000,101"] _ _ _ _
            (None, 0, 0) (Some "2000,101"%string, 1000, 50) 1 0
            "2000" "101" (Some "101"%string) None).
  - vm_compute. reflexivity.
  - unfold count_option. right. left. reflexivity.
  - vm_compute. reflexivity.
  - vm_compute. reflexivity.
  - vm_compute. reflexivity.
  - vm_compute. reflexivity.
  - vm_compute. reflexivity.
  - vm_compute. reflexivity.
  - vm_compute. reflexivity.
  - vm_compute. reflexivity.
  - vm_compute. reflexivity.
Defined.

(** C7: when [main] comes to a YIELD worker with burst period [P] and
    yield interval [I], it exits with status 255 if [I > P]; if [I <= P],
    and so if [I = P], it goes on and launches the worker with these
    parameters. *)
Theorem yield_interval_validation (rt : runtime) (n : nat) (i w : Z)
  (stringp : option string) (p1 p2 : Z) (t1 t2 : string)
  (sp1 sp2 : option string) (P I : Z) :
  strsep stringp = (Some t1, sp1) ->
  strsep sp1 = (Some t2, sp2) ->
  scan_param (Some t1) p1 = Ok P ->
  scan_param (Some t2) p2 = Ok I ->
  pthread_create_ok rt (w + i) = true ->
  (I > P ->
   alloc_params rt WORKER_YIELD (S n) i w stringp p1 p2 = ([], Exit 255)
   /\ 255 <> 0)
  /\ (I <= P ->
      exists l o,
        alloc_params rt WORKER_YIELD (S n) i w stringp p1 p2
        = (Create (w + i) (mkwdata (u8 (i + 1)) 0 WORKER_YIELD (P, I)) :: l, o)).
Proof.
  intros H1 H2 HP HI Hok. cbn [scan_param] in HP, HI.
  injection HP as HP. injection HI as HI.
  rewrite (alloc_params_turn _ _ _ _ _ _ _ _ _ _ _ _ H1 H2), HP, HI.
  cbn [rejects]. split.
  - intros Hgt. destruct (Z.gtb_spec I P) as [_ | Hle]; [| lia].
    split; [reflexivity | discriminate].
  - intros Hle. destruct (Z.gtb_spec I P) as [Hgt | _]; [lia |].
    unfold create_worker. rewrite Hok. cbn [sbind].
    destruct (alloc_params rt WORKER_YIELD n (i + 1) w sp2 P I) as [l o].
    exists l, o. reflexivity.
Qed.

Lemma yield_interval_validation_witness :
  (1000 > 1000 ->
   alloc_params rt_ok WORKER_YIELD 1 0 0 (Some "1000,1000"%string) 0 0
   = ([], Exit 255)
   /\ 255 <> 0)
  /\ (1000 <= 1000 ->
      exists l o,
        alloc_params rt_ok WORKER_YIELD 1 0 0 (Some "1000,1000"%string) 0 0
        = (Create (0 + 0) (mkwdata (u8 (0 + 1)) 0 WORKER_YIELD (1000, 1000)) :: l, o)).
Proof.
  apply (yield_interval_validation rt_ok 0 0 0 (Some "1000,1000"%string) 0 0
           "1000" "1000" (Some "1000"%string) None 1000 1000);
    vm_compute; reflexivity.
Defined.

(** The same on whole command lines: [-y 1,1000,1000] starts one worker,
    [-y 1,1000,1001] none. *)
Example yield_boundary_accepted :
  exists c,
    main_setup rt_ok [Opt "y" "1,1000,1000"] 0 0
    = ([Create 0 (mkwdata 1 0 WORKER_YIELD (1000, 1000))], Ok (c, 1)).
Proof. eexists. vm_compute. reflexivity. Qed.

Example yield_interval_rejected :
  main_setup rt_ok [Opt "y" "1,1000,1001"] 0 0 = ([], Exit 255).
Proof. vm_compute. reflexivity. Qed.

End Validation.

(** ** The synchronised start *)

Section Barrier.

(** C8 fails on the code.  With one worker: [main] finds the worker's [pid]
    set and broadcasts while the worker has not yet called
    [pthread_cond_wait]; the worker then waits, after the only broadcast.
    And a worker that wakes up spuriously leaves [sync_start] and sets its
    deadline although nothing has been broadcast. *)
Theorem broadcast_before_wait :
  run 1 5 early_broadcast (sys_init (mkts 100 0))
  = Some {| mpc := M_join 0; wpcs := [W_ready]; mutex := None;
            broadcasts := 1; now := mkts 100 0;
            start_ts := Some (mkts 100 0) |}
  /\ run 1 5 (early_broadcast ++ then_wait) (sys_init (mkts 100 0))
     = Some {| mpc := M_join 0; wpcs := [W_waiting]; mutex := None;
               broadcasts := 1; now := mkts 100 0;
               start_ts := Some (mkts 100 0) |}
  /\ run 1 5 spurious_wakeup (sys_init (mkts 100 0))
     = Some {| mpc := M_poll 0; wpcs := [W_running (mkts 105 0)];
               mutex := None; broadcasts := 0; now := mkts 100 0;
               start_ts := None |}.
Proof. repeat split. Qed.

(** After the early broadcast nothing releases the worker any more: without
    a spurious wake-up it waits for ever, and [main] for it. *)
Lemma early_broadcast_deadlock (td : Z) (sched : list action) :
  no_spurious sched ->
  forall s s',
    mpc s = M_join 0 -> wpcs s = [W_waiting] ->
    run 1 td sched s = Some s' ->
    mpc s' = M_join 0 /\ wpcs s' = [W_waiting].
Proof.
  induction sched as [| a sched IH]; intros Hns s s' Hm Hw Hrun; cbn in Hrun.
  - injection Hrun as <-. auto.
  - assert (Hns' : no_spurious sched).
    { intros i Hin. apply (Hns i). right. exact Hin. }
    destruct a as [ts | | i | i]; cbn [step] in Hrun.
    + destruct (timespec_older ts (now s) =? 0); [discriminate |].
      eapply IH; [exact Hns' | | | exact Hrun]; assumption.
    + unfold step_main in Hrun. rewrite Hm, Hw in Hrun. cbn in Hrun. discriminate.
    + unfold step_worker in Hrun. rewrite Hw in Hrun.
      destruct i as [| [| i]]; cbn in Hrun; discriminate.
    + exfalso. apply (Hns i). left. reflexivity.
Qed.

(** What the code does ensure: without spurious wake-ups, no worker is past
    [pthread_cond_wait] unless a broadcast has been made. *)
Lemma forallb_set_nth {A : Type} (f : A -> bool) i x (l : list A) :
  forallb f l = true -> f x = true -> forallb f (set_nth i x l) = true.
Proof.
  revert i. induction l as [| y l IH]; intros i Hl Hx; [reflexivity |].
  cbn in Hl. apply andb_true_iff in Hl. destruct Hl as [Hy Hl].
  destruct i as [| i]; cbn; apply andb_true_iff; auto.
Qed.

Lemma step_released_after_broadcast N td a s s' :
  (forall i, a <> Spurious i) ->
  released_after_broadcast s -> step N td a s = Some s' ->
  released_after_broadcast s'.
Proof.
  intros Hns Hinv Hstep. unfold released_after_broadcast in *.
  destruct a as [ts | | i | i]; cbn [step] in Hstep.
  - destruct (timespec_older ts (now s) =? 0); [discriminate |].
    injection Hstep as <-. exact Hinv.
  - unfold step_main in Hstep.
    destruct (mpc s) as [k | i | | | | | i |].
    + destruct (k <? N)%nat; injection Hstep as <-; cbn; intros Hb;
        specialize (Hinv Hb); [rewrite forallb_app, Hinv; reflexivity | exact Hinv].
    + destruct (i <? N)%nat.
      * destruct (nth_error (wpcs s) i) as [[| | | | | | | e |] |];
          try discriminate; injection Hstep as <-; exact Hinv.
      * injection Hstep as <-. exact Hinv.
    + destruct (mutex_free s); [| discriminate]. injection Hstep as <-. exact Hinv.
    + injection Hstep as <-. cbn. discriminate.
    + injection Hstep as <-. exact Hinv.
    + injection Hstep as <-. exact Hinv.
    + destruct (i <? N)%nat.
      * destruct (nth_error (wpcs s) i) as [[| | | | | | | e |] |];
          try discriminate; injection Hstep as <-; exact Hinv.
      * injection Hstep as <-. exact Hinv.
    + discriminate.
  - unfold step_worker in Hstep. intros Hb.
    destruct (nth_error (wpcs s) i) as [pc |] eqn:Hnth; [| discriminate].
    assert (Hpc : past_wait pc = false).
    { specialize (Hinv ltac:(destruct pc; try destruct (mutex_free s);
                               try destruct (timespec_older _ _ =? 0);
                               try discriminate;
                               injection Hstep as <-; exact Hb)).
      rewrite forallb_forall in Hinv.
      apply nth_error_In in Hnth. apply Hinv in Hnth.
      destruct (past_wait pc); [discriminate | reflexivity]. }
    destruct pc; try discriminate;
      try (destruct (mutex_free s); [| discriminate]);
      injection Hstep as <-; cbn in Hb |- *;
      apply forallb_set_nth; auto.
  - exfalso. apply (Hns i). reflexivity.
Qed.

Lemma run_released_after_broadcast N td sched :
  no_spurious sched ->
  forall s s',
    released_after_broadcast s -> run N td sched s = Some s' ->
    released_after_broadcast s'.
Proof.
  induction sched as [| a sched IH]; intros Hns s s' Hinv Hrun; cbn in Hrun.
  - injection Hrun as <-. exact Hinv.
  - destruct (step N td a s) as [s1 |] eqn:Hstep; [| discriminate].
    apply (IH ltac:(intros i Hin; apply (Hns i); right; exact Hin) s1 s');
      [| exact Hrun].
    apply (step_released_after_broadcast N td a s s1); auto.
    intros i ->. apply (Hns i). left. reflexivity.
Qed.

(** C9, as stated, fails: two workers released by one broadcast, which
    [main] records at 100.000000000 s for a test of 5 s, set their
    deadlines to 105.000000500 s and 105.000000900 s, each from a clock
    reading of its own, and neither to 105.000000000 s. *)
Lemma shared_release_counterexample :
  run 2 5 two_workers (sys_init (mkts 100 0))
  = Some {| mpc := M_join 0;
            wpcs := [W_running (mkts 105 500); W_running (mkts 105 900)];
            mutex := None; broadcasts := 1; now := mkts 100 900;
            start_ts := Some (mkts 100 0) |}
  /\ mkts 105 500 <> worker_deadline 5 (mkts 100 0)
  /\ mkts 105 900 <> worker_deadline 5 (mkts 100 0)
  /\ mkts 105 500 <> mkts 105 900.
Proof. repeat split; vm_compute; discriminate. Qed.

End Barrier.

(** ** The loop of a worker *)

Section WorkerLoop.

Variable E : env.

Lemma spin_until_mono fuel end_ts :
  forall fuel' s s',
    spin_until E fuel end_ts s = Done s' -> (fuel <= fuel')%nat ->
    spin_until E fuel' end_ts s = Done s'.
Proof.
  induction fuel as [| fuel IH]; intros fuel' s s' H Hle; cbn in H; [discriminate |].
  destruct fuel' as [| fuel']; [lia |]. cbn.
  destruct (timespec_older (clock E (clk s)) end_ts =? 0); [| exact H].
  apply IH; [exact H | lia].
Qed.

Lemma yield_loop_mono fuel interval end_ts :
  forall fuel' yield_ts s s',
    yield_loop E fuel interval end_ts yield_ts s = Done s' -> (fuel <= fuel')%nat ->
    yield_loop E fuel' interval end_ts yield_ts s = Done s'.
Proof.
  induction fuel as [| fuel IH]; intros fuel' yield_ts s s' H Hle; cbn in H;
    [discriminate |].
  destruct fuel' as [| fuel']; [lia |]. cbn.
  destruct (timespec_older (clock E (clk s)) end_ts =? 0); [| exact H].
  destruct (timespec_older (clock E (clk s)) yield_ts =? 0);
    (apply IH; [exact H | lia]).
Qed.

Lemma bind_done {A B : Type} (r : result A) (k : A -> result B) (b : B) :
  bind r k = Done b -> exists a, r = Done a /\ k a = Done b.
Proof. destruct r as [a | |]; cbn; intros H; try discriminate. eauto. Qed.

Lemma do_workload_mono fuel fuel' wd s s' :
  do_workload E fuel wd s = Done s' -> (fuel <= fuel')%nat ->
  do_workload E fuel' wd s = Done s'.
Proof.
  unfold do_workload. intros H Hle. destruct (wd_kind wd).
  - exact H.
  - unfold worker_interactive in *. cbn [next_random] in *.
    apply bind_done in H. destruct H as (delay & -> & H). cbn [bind] in *.
    apply bind_done in H. destruct H as (process & -> & H). cbn [bind] in *.
    cbn [clock_gettime] in *. eapply spin_until_mono; eauto.
  - unfold worker_periodic in *.
    apply bind_done in H. destruct H as (process & -> & H). cbn [bind] in *.
    cbn [clock_gettime] in *. eapply spin_until_mono; eauto.
  - unfold worker_yield in *. cbn [clock_gettime] in *.
    apply bind_done in H. destruct H as (s1 & H1 & H).
    rewrite (spin_until_mono _ _ _ _ _ H1 Hle). cbn [bind].
    eapply yield_loop_mono; eauto.
Qed.

Lemma worker_loop_mono fuel end_ts wd :
  forall fuel' s s',
    worker_loop E fuel end_ts wd s = Done s' -> (fuel <= fuel')%nat ->
    worker_loop E fuel' end_ts wd s = Done s'.
Proof.
  induction fuel as [| fuel IH]; intros fuel' s s' H Hle; cbn in H; [discriminate |].
  destruct fuel' as [| fuel']; [lia |]. cbn.
  destruct (timespec_older (clock E (clk s)) end_ts =? 0); [| exact H].
  apply bind_done in H. destruct H as (s1 & H1 & H).
  rewrite (do_workload_mono _ fuel' _ _ _ H1 ltac:(lia)). cbn [bind].
  apply IH; [exact H | lia].
Qed.

(** The loop returns what [loop_run] describes, and only that. *)
Lemma worker_loop_complete end_ts wd k s s' :
  loop_run E end_ts wd k s s' ->
  exists fuel0, forall fuel, (fuel0 <= fuel)%nat ->
    worker_loop E fuel end_ts wd s = Done s'.
Proof.
  induction 1 as [s Hstop | k fuel1 s s1 s2 Hgo Hwork _ [fuel2 IH]].
  - exists 1%nat. intros [| fuel] Hle; [lia |]. cbn.
    destruct (Z.eqb_spec (timespec_older (clock E (clk s)) end_ts) 0);
      [contradiction | reflexivity].
  - exists (S (Nat.max fuel1 fuel2)). intros [| fuel] Hle; [lia |].
    cbn [worker_loop]. cbn [clock_gettime]. rewrite Hgo. cbn [Z.eqb].
    cbn [clock_gettime snd] in Hwork.
    rewrite (do_workload_mono _ fuel _ _ _ Hwork ltac:(lia)). cbn [bind].
    apply IH. lia.
Qed.

Lemma worker_loop_sound fuel end_ts wd :
  forall s s', worker_loop E fuel end_ts wd s = Done s' ->
  exists k, loop_run E end_ts wd k s s'.
Proof.
  induction fuel as [| fuel IH]; intros s s' H; cbn in H; [discriminate |].
  destruct (Z.eqb_spec (timespec_older (clock E (clk s)) end_ts) 0) as [Hz | Hnz].
  - apply bind_done in H. destruct H as (s1 & H1 & H).
    destruct (IH _ _ H) as [k Hk].
    exists (S k). eapply loop_iter; eauto.
  - injection H as <-. exists O. apply (loop_stop E end_ts wd s Hnz).
Qed.

End WorkerLoop.

Section WorkerExamples.

(** A run of five seconds on a clock that advances by one second at each
    reading: four workloads, then the stop. *)
Example batch_worker_five_seconds :
  worker (mkenv (fun n => mkts (Z.of_nat n) 0) (fun _ => 0)) 10 5
    (mkwdata 1 0 WORKER_BATCH (0, 0)) (mkws 0 0 [])
  = Done (mkws 6 0 [EvBusyLoop; EvBusyLoop; EvBusyLoop; EvBusyLoop]).
Proof. vm_compute. reflexivity. Qed.

(** A YIELD worker with a burst period of 1000 us and a yield interval of
    400 us, on a clock that advances by 200 us at each reading: four spins
    in the burst, one yield in the yield window. *)
Example yield_worker_one_invocation :
  worker_yield (mkenv (fun n => mkts 0 (200000 * Z.of_nat n)) (fun _ => 0)) 40
    (mkwdata 1 0 WORKER_YIELD (1000, 400)) (mkws 0 0 [])
  = Done (mkws 12 0 [EvBusyLoop; EvBusyLoop; EvBusyLoop; EvBusyLoop; EvYield]).
Proof. vm_compute. reflexivity. Qed.

End WorkerExamples.

(** ** Further properties of the time utilities *)

Section TimeArithmetic.

Lemma s64_add_s64 x y : s64 (x + s64 y) = s64 (x + y).
Proof.
  destruct (s64_decomp y) as [k Hk]. rewrite Hk.
  apply (s64_congr _ _ k). ring.
Qed.

Lemma s64_s64_add x y : s64 (s64 x + y) = s64 (x + y).
Proof.
  destruct (s64_decomp x) as [k Hk]. rewrite Hk.
  apply (s64_congr _ _ k). ring.
Qed.

(** What an adder computes from the old nanoseconds [n], the whole seconds
    [q] of the amount and the rest [r] of it in nanoseconds. *)
Lemma adder_carry n q r :
  0 <= n < S_TO_NS -> 0 <= r < S_TO_NS -> 0 <= q < 2 ^ 32 ->
  s64 (Z.quot (s64 (n + r)) S_TO_NS + q) = (n + (q * S_TO_NS + r)) / S_TO_NS
  /\ Z.rem (s64 (n + r)) S_TO_NS = (n + (q * S_TO_NS + r)) mod S_TO_NS.
Proof.
  intros Hn Hr Hq.
  destruct (carry_nsec n r Hn Hr) as (-> & -> & -> & Hm).
  replace (n + (q * S_TO_NS + r)) with (n + r + q * S_TO_NS) by ring.
  rewrite Z.div_add, Z.mod_add by (unfold S_TO_NS; lia).
  split; [| reflexivity].
  apply s64_id. unfold is_s64.
  assert (0 <= (n + r) / S_TO_NS <= 1).
  { split; [apply Z.div_pos; unfold S_TO_NS in *; lia |].
    apply Z.lt_succ_r, Z.div_lt_upper_bound; unfold S_TO_NS in *; lia. }
  lia.
Qed.

Lemma timespec_add_ms_canonical ts ms :
  normalized ts -> is_u32 ms ->
  timespec_add_ms ts ms =
  {| tv_sec := s64 (tv_sec ts + (tv_nsec ts + ms * MS_TO_NS) / S_TO_NS);
     tv_nsec := (tv_nsec ts + ms * MS_TO_NS) mod S_TO_NS |}.
Proof.
  intros Hts Hms. unfold timespec_add_ms, normalized in *.
  destruct (reduced_amount ms S_TO_MS Hms ltac:(reflexivity)) as [-> ->].
  assert (Hm : 0 <= ms mod S_TO_MS < S_TO_MS) by (apply Z.mod_pos_bound; reflexivity).
  assert (Hq : 0 <= ms / S_TO_MS < 2 ^ 32).
  { unfold is_u32 in Hms. split; [apply Z.div_pos; unfold S_TO_MS; lia |].
    apply Z.div_lt_upper_bound; unfold S_TO_MS; lia. }
  assert (Hd : 0 <= ms mod S_TO_MS * MS_TO_NS < S_TO_NS)
    by (unfold S_TO_MS, MS_TO_NS, S_TO_NS in *; lia).
  rewrite (u32_id (ms mod S_TO_MS * MS_TO_NS))
    by (unfold is_u32, S_TO_NS in *; lia).
  destruct (adder_carry _ _ _ Hts Hd Hq) as [E1 E2].
  rewrite s64_add_s64, <- (s64_add_s64 (tv_sec ts)), E1, E2.
  assert (E : ms / S_TO_MS * S_TO_NS + ms mod S_TO_MS * MS_TO_NS = ms * MS_TO_NS).
  { pose proof (Z.div_mod ms S_TO_MS ltac:(discriminate)).
    unfold S_TO_MS, MS_TO_NS, S_TO_NS in *. lia. }
  rewrite E. reflexivity.
Qed.

Lemma timespec_add_us_canonical ts us :
  normalized ts -> is_u32 us ->
  timespec_add_us ts us =
  {| tv_sec := s64 (tv_sec ts + (tv_nsec ts + us * US_TO_NS) / S_TO_NS);
     tv_nsec := (tv_nsec ts + us * US_TO_NS) mod S_TO_NS |}.
Proof.
  intros Hts Hus. unfold timespec_add_us, normalized in *.
  destruct (reduced_amount us S_TO_US Hus ltac:(reflexivity)) as [-> ->].
  assert (Hm : 0 <= us mod S_TO_US < S_TO_US) by (apply Z.mod_pos_bound; reflexivity).
  assert (Hq : 0 <= us / S_TO_US < 2 ^ 32).
  { unfold is_u32 in Hus. split; [apply Z.div_pos; unfold S_TO_US; lia |].
    apply Z.div_lt_upper_bound; unfold S_TO_US; lia. }
  assert (Hd : 0 <= us mod S_TO_US * US_TO_NS < S_TO_NS)
    by (unfold S_TO_US, US_TO_NS, S_TO_NS in *; lia).
  rewrite (u32_id (us mod S_TO_US * US_TO_NS))
    by (unfold is_u32, S_TO_NS in *; lia).
  destruct (adder_carry _ _ _ Hts Hd Hq) as [E1 E2].
  rewrite s64_add_s64, <- (s64_add_s64 (tv_sec ts)), E1, E2.
  assert (E : us / S_TO_US * S_TO_NS + us mod S_TO_US * US_TO_NS = us * US_TO_NS).
  { pose proof (Z.div_mod us S_TO_US ltac:(discriminate)).
    unfold S_TO_US, US_TO_NS, S_TO_NS in *. lia. }
  rewrite E. reflexivity.
Qed.

Lemma timespec_add_ns_canonical ts ns :
  normalized ts -> is_u32 ns ->
  timespec_add_ns ts ns =
  {| tv_sec := s64 (tv_sec ts + (tv_nsec ts + ns) / S_TO_NS);
     tv_nsec := (tv_nsec ts + ns) mod S_TO_NS |}.
Proof.
  intros Hts Hns. unfold timespec_add_ns, normalized in *.
  destruct (reduced_amount ns S_TO_NS Hns ltac:(reflexivity)) as [-> ->].
  assert (Hd : 0 <= ns mod S_TO_NS < S_TO_NS) by (apply Z.mod_pos_bound; reflexivity).
  assert (Hq : 0 <= ns / S_TO_NS < 2 ^ 32).
  { unfold is_u32 in Hns. split; [apply Z.div_pos; unfold S_TO_NS; lia |].
    apply Z.div_lt_upper_bound; unfold S_TO_NS; lia. }
  destruct (adder_carry _ _ _ Hts Hd Hq) as [E1 E2].
  rewrite s64_add_s64, <- (s64_add_s64 (tv_sec ts)), E1, E2.
  assert (E : ns / S_TO_NS * S_TO_NS + ns mod S_TO_NS = ns).
  { pose proof (Z.div_mod ns S_TO_NS ltac:(discriminate)). lia. }
  rewrite E. reflexivity.
Qed.

(** The instant denoted after a carry from the nanoseconds. *)
Lemma carried_ns s n d :
  0 <= n < S_TO_NS -> 0 <= d < 2 ^ 32 * S_TO_NS -> - 2 ^ 62 <= s < 2 ^ 62 ->
  timespec_ns {| tv_sec := s64 (s + (n + d) / S_TO_NS);
                 tv_nsec := (n + d) mod S_TO_NS |}
  = s * S_TO_NS + n + d.
Proof.
  intros Hn Hd Hs. unfold timespec_ns; cbn [tv_sec tv_nsec].
  assert (Hq : 0 <= (n + d) / S_TO_NS < 2 ^ 32 + 1).
  { split; [apply Z.div_pos; unfold S_TO_NS in *; lia |].
    apply Z.div_lt_upper_bound; unfold S_TO_NS in *; lia. }
  rewrite s64_id by (unfold is_s64; lia).
  pose proof (Z.div_mod (n + d) S_TO_NS ltac:(discriminate)). lia.
Qed.

(** X1: on a normalized timespec whose seconds are far from the ends of
    [long], each adder moves the instant by exactly the amount given:
    [ms] milliseconds, [us] microseconds, [ns] nanoseconds. *)
Theorem timespec_add_exact (ts : timespec) (amount : Z) :
  normalized ts -> in_range ts -> is_u32 amount ->
  timespec_ns (timespec_add_ms ts amount) = timespec_ns ts + amount * MS_TO_NS
  /\ timespec_ns (timespec_add_us ts amount) = timespec_ns ts + amount * US_TO_NS
  /\ timespec_ns (timespec_add_ns ts amount) = timespec_ns ts + amount.
Proof.
  intros Hn Hr Ha.
  rewrite timespec_add_ms_canonical, timespec_add_us_canonical,
    timespec_add_ns_canonical by assumption.
  unfold normalized, in_range, is_u32 in *.
  rewrite !carried_ns
    by (try assumption; unfold MS_TO_NS, US_TO_NS, S_TO_NS; lia).
  unfold timespec_ns. lia.
Qed.

Lemma timespec_add_exact_witness :
  timespec_ns (timespec_add_ms (mkts 41 999999999) 4294967295)
  = timespec_ns (mkts 41 999999999) + 4294967295 * MS_TO_NS
  /\ timespec_ns (timespec_add_us (mkts 41 999999999) 4294967295)
     = timespec_ns (mkts 41 999999999) + 4294967295 * US_TO_NS
  /\ timespec_ns (timespec_add_ns (mkts 41 999999999) 4294967295)
     = timespec_ns (mkts 41 999999999) + 4294967295.
Proof.
  apply (timespec_add_exact (mkts 41 999999999) 4294967295);
    unfold normalized, in_range, is_u32, S_TO_NS; cbn [tv_sec tv_nsec]; lia.
Defined.

Lemma timespec_subtract_canonical a b :
  normalized a -> normalized b ->
  timespec_subtract a b =
  {| tv_sec := s64 (tv_sec a - tv_sec b + (tv_nsec a - tv_nsec b) / S_TO_NS);
     tv_nsec := (tv_nsec a - tv_nsec b) mod S_TO_NS |}.
Proof.
  unfold normalized, timespec_subtract, S_TO_NS. intros Ha Hb.
  rewrite (s64_id (tv_nsec a - tv_nsec b)) by (unfold is_s64; lia).
  destruct (Z.ltb_spec (tv_nsec a - tv_nsec b) 0) as [Hneg | Hpos];
    cbn [tv_sec tv_nsec].
  - rewrite (s64_id (_ + 1000000000)) by (unfold is_s64; lia).
    assert (Eq : (tv_nsec a - tv_nsec b) / 1000000000 = -1)
      by (symmetry; apply Z.div_unique with (r := tv_nsec a - tv_nsec b + 1000000000); lia).
    assert (Em : (tv_nsec a - tv_nsec b) mod 1000000000
                 = tv_nsec a - tv_nsec b + 1000000000)
      by (symmetry; apply Z.mod_unique with (q := -1); lia).
    rewrite Eq, Em. f_equal.
    destruct (s64_decomp (tv_sec a - 1)) as [k Hk]. rewrite Hk.
    apply (s64_congr _ _ k). ring.
  - rewrite Z.div_small, Z.mod_small by lia. f_equal. f_equal. ring.
Qed.

Lemma subtract_canonical_ns a b :
  normalized a -> normalized b -> in_range a -> in_range b ->
  timespec_ns
    {| tv_sec := s64 (tv_sec a - tv_sec b + (tv_nsec a - tv_nsec b) / S_TO_NS);
       tv_nsec := (tv_nsec a - tv_nsec b) mod S_TO_NS |}
  = timespec_ns a - timespec_ns b.
Proof.
  intros Ha Hb Ra Rb.
  unfold normalized, in_range, timespec_ns, S_TO_NS in *; cbn [tv_sec tv_nsec].
  assert (Hq : -1 <= (tv_nsec a - tv_nsec b) / 1000000000 <= 0).
  { split.
    - apply Z.div_le_lower_bound; lia.
    - apply Z.lt_succ_r, Z.div_lt_upper_bound; lia. }
  rewrite s64_id by (unfold is_s64; lia).
  pose proof (Z.div_mod (tv_nsec a - tv_nsec b) 1000000000 ltac:(discriminate)).
  lia.
Qed.

(** X2: the difference of two normalized timespecs whose seconds are far
    from the ends of [long] denotes the difference of the two instants. *)
Theorem timespec_subtract_exact (a b : timespec) :
  normalized a -> normalized b -> in_range a -> in_range b ->
  timespec_ns (timespec_subtract a b) = timespec_ns a - timespec_ns b.
Proof.
  intros Ha Hb Ra Rb. rewrite timespec_subtract_canonical by assumption.
  apply subtract_canonical_ns; assumption.
Qed.

Lemma timespec_subtract_exact_witness :
  timespec_ns (timespec_subtract (mkts 7 2) (mkts 41 999999999))
  = timespec_ns (mkts 7 2) - timespec_ns (mkts 41 999999999).
Proof.
  apply (timespec_subtract_exact (mkts 7 2) (mkts 41 999999999));
    unfold normalized, in_range, S_TO_NS; cbn [tv_sec tv_nsec]; lia.
Defined.

End TimeArithmetic.

(** *** Round trips and composition of the adders *)

Section AdderAlgebra.

Lemma roundtrip_canonical s n d :
  0 <= n < S_TO_NS -> 0 <= d < 2 ^ 32 * S_TO_NS ->
  timespec_subtract
    {| tv_sec := s64 (s + (n + d) / S_TO_NS); tv_nsec := (n + d) mod S_TO_NS |}
    {| tv_sec := s; tv_nsec := n |}
  = {| tv_sec := d / S_TO_NS; tv_nsec := d mod S_TO_NS |}.
Proof.
  intros Hn Hd.
  assert (Hm : 0 <= (n + d) mod S_TO_NS < S_TO_NS)
    by (apply Z.mod_pos_bound; reflexivity).
  rewrite timespec_subtract_canonical by (unfold normalized; cbn [tv_nsec]; assumption).
  cbn [tv_sec tv_nsec].
  pose proof (Z.div_mod (n + d) S_TO_NS ltac:(discriminate)) as E1.
  pose proof (Z.div_mod ((n + d) mod S_TO_NS - n) S_TO_NS ltac:(discriminate)) as E2.
  pose proof (Z.mod_pos_bound ((n + d) mod S_TO_NS - n) S_TO_NS ltac:(reflexivity)) as B2.
  set (A := (n + d) / S_TO_NS) in *. set (n' := (n + d) mod S_TO_NS) in *.
  set (c := (n' - n) / S_TO_NS) in *. set (m := (n' - n) mod S_TO_NS) in *.
  assert (Eq : d / S_TO_NS = A + c)
    by (symmetry; apply Z.div_unique with (r := m); unfold S_TO_NS in *; lia).
  assert (Em : d mod S_TO_NS = m)
    by (symmetry; apply Z.mod_unique with (q := A + c); unfold S_TO_NS in *; lia).
  rewrite Eq, Em. f_equal.
  assert (Hq : 0 <= d / S_TO_NS < 2 ^ 32).
  { split; [apply Z.div_pos; unfold S_TO_NS in *; lia |].
    apply Z.div_lt_upper_bound; unfold S_TO_NS in *; lia. }
  destruct (s64_decomp (s + A)) as [k Hk]. rewrite Hk.
  apply (s64_unique _ _ k); [unfold is_s64; lia | ring].
Qed.

(** X3: measuring back a duration added in milliseconds or in nanoseconds:
    for a normalized [ts] and a [uint32_t] amount, [timespec_subtract] of
    the sum and [ts] is the amount as (seconds, nanoseconds), whatever the
    seconds of [ts]. *)
Theorem add_ms_ns_subtract_roundtrip (ts : timespec) (amount : Z) :
  normalized ts -> is_u32 amount ->
  timespec_subtract (timespec_add_ms ts amount) ts = ms_to_timespec amount
  /\ timespec_subtract (timespec_add_ns ts amount) ts = ns_to_timespec amount.
Proof.
  intros Hn Ha.
  rewrite timespec_add_ms_canonical, timespec_add_ns_canonical by assumption.
  destruct ts as [s n]. unfold normalized, is_u32 in *. cbn [tv_sec tv_nsec] in *.
  rewrite !roundtrip_canonical by (unfold MS_TO_NS, S_TO_NS in *; lia).
  split; [| reflexivity].
  unfold ms_to_timespec. f_equal.
  - unfold MS_TO_NS, S_TO_NS, S_TO_MS.
    change 1000000000 with (1000 * 1000000).
    rewrite Z.div_mul_cancel_r by lia. reflexivity.
  - unfold MS_TO_NS, S_TO_NS, S_TO_MS.
    change 1000000000 with (1000 * 1000000).
    rewrite Z.mul_mod_distr_r by lia. reflexivity.
Qed.

Lemma add_ms_ns_subtract_roundtrip_witness :
  timespec_subtract (timespec_add_ms (mkts 41 999999999) 4294967295)
    (mkts 41 999999999) = ms_to_timespec 4294967295
  /\ timespec_subtract (timespec_add_ns (mkts 41 999999999) 4294967295)
       (mkts 41 999999999) = ns_to_timespec 4294967295.
Proof.
  apply (add_ms_ns_subtract_roundtrip (mkts 41 999999999) 4294967295);
    unfold normalized, is_u32, S_TO_NS; cbn [tv_nsec]; lia.
Defined.

Lemma compose_canonical s n d1 d2 :
  {| tv_sec := s64 (s64 (s + (n + d1) / S_TO_NS)
                    + ((n + d1) mod S_TO_NS + d2) / S_TO_NS);
     tv_nsec := ((n + d1) mod S_TO_NS + d2) mod S_TO_NS |}
  = {| tv_sec := s64 (s + (n + (d1 + d2)) / S_TO_NS);
       tv_nsec := (n + (d1 + d2)) mod S_TO_NS |}.
Proof.
  pose proof (Z.div_mod (n + d1) S_TO_NS ltac:(discriminate)) as E1.
  pose proof (Z.div_mod ((n + d1) mod S_TO_NS + d2) S_TO_NS ltac:(discriminate)) as E2.
  pose proof (Z.mod_pos_bound ((n + d1) mod S_TO_NS + d2) S_TO_NS ltac:(reflexivity)) as B2.
  set (A := (n + d1) / S_TO_NS) in *. set (n1 := (n + d1) mod S_TO_NS) in *.
  set (B := (n1 + d2) / S_TO_NS) in *. set (n2 := (n1 + d2) mod S_TO_NS) in *.
  assert (Eq : (n + (d1 + d2)) / S_TO_NS = A + B)
    by (symmetry; apply Z.div_unique with (r := n2); unfold S_TO_NS in *; lia).
  assert (Em : (n + (d1 + d2)) mod S_TO_NS = n2)
    by (symmetry; apply Z.mod_unique with (q := A + B); unfold S_TO_NS in *; lia).
  rewrite Eq, Em, s64_s64_add. f_equal. f_equal. ring.
Qed.

(** X4: the adders compose: adding [a] and then [b] is adding [a + b], as
    long as the sum is a [uint32_t]; the seconds may wrap around in both. *)
Theorem timespec_add_compose (ts : timespec) (a b : Z) :
  normalized ts -> 0 <= a -> 0 <= b -> is_u32 (a + b) ->
  timespec_add_ms (timespec_add_ms ts a) b = timespec_add_ms ts (a + b)
  /\ timespec_add_us (timespec_add_us ts a) b = timespec_add_us ts (a + b)
  /\ timespec_add_ns (timespec_add_ns ts a) b = timespec_add_ns ts (a + b).
Proof.
  intros Hn Ha Hb Hab.
  assert (Ua : is_u32 a) by (unfold is_u32 in *; lia).
  assert (Ub : is_u32 b) by (unfold is_u32 in *; lia).
  assert (N : forall s x, normalized {| tv_sec := s; tv_nsec := x mod S_TO_NS |})
    by (intros; apply Z.mod_pos_bound; reflexivity).
  repeat split.
  - rewrite (timespec_add_ms_canonical ts a), (timespec_add_ms_canonical ts (a + b))
      by assumption.
    rewrite timespec_add_ms_canonical by (auto using N). cbn [tv_sec tv_nsec].
    rewrite compose_canonical.
    replace (a * MS_TO_NS + b * MS_TO_NS) with ((a + b) * MS_TO_NS) by ring.
    reflexivity.
  - rewrite (timespec_add_us_canonical ts a), (timespec_add_us_canonical ts (a + b))
      by assumption.
    rewrite timespec_add_us_canonical by (auto using N). cbn [tv_sec tv_nsec].
    rewrite compose_canonical.
    replace (a * US_TO_NS + b * US_TO_NS) with ((a + b) * US_TO_NS) by ring.
    reflexivity.
  - rewrite (timespec_add_ns_canonical ts a), (timespec_add_ns_canonical ts (a + b))
      by assumption.
    rewrite timespec_add_ns_canonical by (auto using N). cbn [tv_sec tv_nsec].
    rewrite compose_canonical. reflexivity.
Qed.

Lemma timespec_add_compose_witness :
  timespec_add_ms (timespec_add_ms (mkts 41 999999999) 1999) 2501
  = timespec_add_ms (mkts 41 999999999) (1999 + 2501)
  /\ timespec_add_us (timespec_add_us (mkts 41 999999999) 1999) 2501
     = timespec_add_us (mkts 41 999999999) (1999 + 2501)
  /\ timespec_add_ns (timespec_add_ns (mkts 41 999999999) 1999) 2501
     = timespec_add_ns (mkts 41 999999999) (1999 + 2501).
Proof.
  apply (timespec_add_compose (mkts 41 999999999) 1999 2501);
    unfold normalized, is_u32, S_TO_NS; cbn [tv_nsec]; lia.
Defined.

(** X5: the three adders agree on the unit: [ms] milliseconds are
    [1000 * ms] microseconds and [us] microseconds are [1000 * us]
    nanoseconds, as long as the converted amount is a [uint32_t]. *)
Theorem timespec_add_units (ts : timespec) (amount : Z) :
  normalized ts -> 0 <= amount -> is_u32 (1000 * amount) ->
  timespec_add_ms ts amount = timespec_add_us ts (1000 * amount)
  /\ timespec_add_us ts amount = timespec_add_ns ts (1000 * amount).
Proof.
  intros Hn Ha Hu.
  assert (Ua : is_u32 amount) by (unfold is_u32 in *; lia).
  rewrite timespec_add_ms_canonical, !timespec_add_us_canonical,
    timespec_add_ns_canonical by assumption.
  unfold MS_TO_NS, US_TO_NS.
  replace (1000 * amount * 1000) with (amount * 1000000) by ring.
  replace (1000 * amount) with (amount * 1000) by ring.
  split; reflexivity.
Qed.

Lemma timespec_add_units_witness :
  timespec_add_ms (mkts 41 999999999) 4294967
  = timespec_add_us (mkts 41 999999999) (1000 * 4294967)
  /\ timespec_add_us (mkts 41 999999999) 4294967
     = timespec_add_ns (mkts 41 999999999) (1000 * 4294967).
Proof.
  apply (timespec_add_units (mkts 41 999999999) 4294967);
    unfold normalized, is_u32, S_TO_NS; cbn [tv_nsec]; lia.
Defined.

End AdderAlgebra.

(** *** Comparisons *)

Section Comparisons.

(** On normalized timespecs [timespec_older] is the order of the instants. *)
Lemma timespec_older_ns a b :
  normalized a -> normalized b ->
  (timespec_older a b <> 0 <-> timespec_ns b <= timespec_ns a).
Proof.
  unfold normalized, timespec_ns, S_TO_NS. intros Ha Hb.
  rewrite timespec_older_spec. split; intros H; nia.
Qed.

Lemma timespec_eq a b : tv_sec a = tv_sec b -> tv_nsec a = tv_nsec b -> a = b.
Proof. destruct a, b; cbn; intros -> ->; reflexivity. Qed.

(** X6: [timespec_older] is an order: it is transitive, two timespecs each
    at or after the other are equal, and on normalized timespecs it is the
    order of the instants they denote. *)
Theorem timespec_older_order :
  (forall a b c,
      timespec_older a b <> 0 -> timespec_older b c <> 0 ->
      timespec_older a c <> 0)
  /\ (forall a b,
         timespec_older a b <> 0 -> timespec_older b a <> 0 -> a = b)
  /\ (forall a b,
         normalized a -> normalized b ->
         (timespec_older a b <> 0 <-> timespec_ns b <= timespec_ns a)).
Proof.
  split; [| split].
  - intros a b c. rewrite !timespec_older_spec. lia.
  - intros a b. rewrite !timespec_older_spec. intros H1 H2.
    apply timespec_eq; lia.
  - exact timespec_older_ns.
Qed.

Lemma s32_id x : - 2 ^ 31 <= x < 2 ^ 31 -> s32 x = x.
Proof. intros H. unfold s32. rewrite Z.mod_small by lia. lia. Qed.

(** X7: when the seconds of two normalized timespecs differ by less than
    2^31, the sign of [timespec_compare a b] is the order of [a] and [b]:
    positive exactly when [a] is strictly after [b], null exactly when they
    are equal, and not negative exactly when [timespec_older a b]. *)
Theorem timespec_compare_sign (a b : timespec) :
  normalized a -> normalized b ->
  - 2 ^ 31 < tv_sec a - tv_sec b < 2 ^ 31 ->
  (0 < timespec_compare a b <-> timespec_older b a = 0)
  /\ (timespec_compare a b = 0 <-> a = b)
  /\ (0 <= timespec_compare a b <-> timespec_older a b <> 0).
Proof.
  unfold normalized, S_TO_NS. intros Ha Hb Hd.
  assert (Hnot : timespec_older b a = 0 <-> ~ timespec_older b a <> 0)
    by (destruct (Z.eq_dec (timespec_older b a) 0); tauto).
  rewrite Hnot, !timespec_older_spec. unfold timespec_compare.
  rewrite (s64_id (tv_sec a - tv_sec b)), (s64_id (tv_nsec a - tv_nsec b))
    by (unfold is_s64; lia).
  rewrite (s32_id (tv_sec a - tv_sec b)), (s32_id (tv_nsec a - tv_nsec b)) by lia.
  destruct (Z.eqb_spec (tv_sec a) (tv_sec b)) as [E | E]; cbn [negb].
  - repeat split; try lia.
    + intros H. apply timespec_eq; lia.
    + intros ->. lia.
  - repeat split; try lia.
    intros ->. lia.
Qed.

Lemma timespec_compare_sign_witness :
  (0 < timespec_compare (mkts 41 5) (mkts 7 999999999)
   <-> timespec_older (mkts 7 999999999) (mkts 41 5) = 0)
  /\ (timespec_compare (mkts 41 5) (mkts 7 999999999) = 0
      <-> mkts 41 5 = mkts 7 999999999)
  /\ (0 <= timespec_compare (mkts 41 5) (mkts 7 999999999)
      <-> timespec_older (mkts 41 5) (mkts 7 999999999) <> 0).
Proof.
  apply (timespec_compare_sign (mkts 41 5) (mkts 7 999999999));
    unfold normalized, S_TO_NS; cbn [tv_sec tv_nsec]; lia.
Defined.

(** X8: without the bound on the seconds the [int] result of
    [timespec_compare] loses the order: two timespecs whose seconds differ
    by a multiple of 2^32 compare as equal, whatever their nanoseconds. *)
Theorem timespec_compare_truncates (a b : timespec) (k : Z) :
  is_s64 (tv_sec a) -> is_s64 (tv_sec b) ->
  k <> 0 -> tv_sec a = tv_sec b + k * 2 ^ 32 ->
  timespec_compare a b = 0 /\ a <> b.
Proof.
  unfold is_s64. intros Ha Hb Hk E. split.
  - unfold timespec_compare.
    destruct (Z.eqb_spec (tv_sec a) (tv_sec b)) as [E' | _]; [lia |]. cbn [negb].
    replace (tv_sec a - tv_sec b) with (k * 2 ^ 32) by lia.
    destruct (s64_decomp (k * 2 ^ 32)) as [j ->].
    unfold s32.
    replace (k * 2 ^ 32 + j * 2 ^ 64 + 2 ^ 31)
      with (2 ^ 31 + (k + j * 2 ^ 32) * 2 ^ 32) by ring.
    rewrite Z.mod_add by lia. reflexivity.
  - intros ->. lia.
Qed.

Lemma timespec_compare_truncates_witness :
  timespec_compare (mkts 4294967301 0) (mkts 5 999) = 0
  /\ mkts 4294967301 0 <> mkts 5 999.
Proof.
  apply (timespec_compare_truncates (mkts 4294967301 0) (mkts 5 999) 1);
    unfold is_s64; cbn [tv_sec]; lia.
Defined.

(** X9: for a normalized timespec, [timespec_milliseconds] is the instant in
    whole milliseconds as long as that is an [int]; and then adding [ms]
    milliseconds with [timespec_add_ms] raises it by exactly [ms]. *)
Theorem timespec_milliseconds_exact (a : timespec) (ms : Z) :
  normalized a -> is_u32 ms ->
  - 2 ^ 31 <= timespec_ns a / MS_TO_NS ->
  timespec_ns a / MS_TO_NS + ms < 2 ^ 31 ->
  timespec_milliseconds a = timespec_ns a / MS_TO_NS
  /\ timespec_milliseconds (timespec_add_ms a ms) = timespec_milliseconds a + ms.
Proof.
  intros Hn Hms Hlo Hhi.
  assert (Gen : forall t, normalized t ->
            - 2 ^ 31 <= timespec_ns t / MS_TO_NS < 2 ^ 31 ->
            timespec_milliseconds t = timespec_ns t / MS_TO_NS).
  { intros t Ht Hr. unfold timespec_milliseconds, timespec_ns, normalized in *.
    assert (E : (tv_sec t * S_TO_NS + tv_nsec t) / MS_TO_NS
                = tv_sec t * S_TO_MS + tv_nsec t / MS_TO_NS).
    { replace (tv_sec t * S_TO_NS) with (tv_sec t * S_TO_MS * MS_TO_NS)
        by (unfold S_TO_NS, S_TO_MS, MS_TO_NS; ring).
      apply Z.div_add_l. discriminate. }
    rewrite E in *.
    assert (Hq : 0 <= tv_nsec t / MS_TO_NS < 1000).
    { split; [apply Z.div_pos; unfold MS_TO_NS; lia |].
      apply Z.div_lt_upper_bound; unfold MS_TO_NS, S_TO_NS in *; lia. }
    rewrite Z.quot_div_nonneg by (unfold MS_TO_NS; lia).
    rewrite (s64_id (tv_sec t * S_TO_MS)) by (unfold is_s64, S_TO_MS in *; lia).
    rewrite s64_id by (unfold is_s64; lia).
    apply s32_id. lia. }
  assert (Ra : in_range a).
  { unfold in_range, timespec_ns, normalized in *.
    assert (E : (tv_sec a * S_TO_NS + tv_nsec a) / MS_TO_NS
                = tv_sec a * S_TO_MS + tv_nsec a / MS_TO_NS).
    { replace (tv_sec a * S_TO_NS) with (tv_sec a * S_TO_MS * MS_TO_NS)
        by (unfold S_TO_NS, S_TO_MS, MS_TO_NS; ring).
      apply Z.div_add_l. discriminate. }
    rewrite E in *.
    assert (Hq : 0 <= tv_nsec a / MS_TO_NS < 1000).
    { split; [apply Z.div_pos; unfold MS_TO_NS; lia |].
      apply Z.div_lt_upper_bound; unfold MS_TO_NS, S_TO_NS in *; lia. }
    unfold is_u32, S_TO_MS in *. lia. }
  assert (Ea : timespec_ns (timespec_add_ms a ms) = timespec_ns a + ms * MS_TO_NS).
  { rewrite timespec_add_ms_canonical by assumption.
    unfold normalized, in_range, is_u32 in *.
    rewrite carried_ns by (try assumption; unfold MS_TO_NS, S_TO_NS; lia).
    reflexivity. }
  unfold is_u32 in Hms.
  rewrite (Gen a Hn) by lia. split; [reflexivity |].
  rewrite Gen.
  - rewrite Ea. apply Z.div_add. discriminate.
  - rewrite timespec_add_ms_canonical by assumption.
    apply Z.mod_pos_bound. reflexivity.
  - rewrite Ea, Z.div_add by discriminate. lia.
Qed.

Lemma timespec_milliseconds_exact_witness :
  timespec_milliseconds (mkts 41 999999999) = timespec_ns (mkts 41 999999999) / MS_TO_NS
  /\ timespec_milliseconds (timespec_add_ms (mkts 41 999999999) 70001)
     = timespec_milliseconds (mkts 41 999999999) + 70001.
Proof.
  apply (timespec_milliseconds_exact (mkts 41 999999999) 70001);
    unfold normalized, is_u32, S_TO_NS; cbn; lia.
Defined.

(** X10: the line [Time: s.m] that [main] prints at the end: when the end
    instant is at or after the start instant, [s] whole seconds and
    [m] < 1000 whole milliseconds make up the elapsed time truncated to
    the millisecond. *)
Theorem elapsed_report_exact (end_ts start : timespec) :
  normalized end_ts -> normalized start -> in_range end_ts -> in_range start ->
  timespec_older end_ts start <> 0 ->
  0 <= fst (elapsed_report end_ts start)
  /\ 0 <= snd (elapsed_report end_ts start) < S_TO_MS
  /\ fst (elapsed_report end_ts start) * S_TO_MS + snd (elapsed_report end_ts start)
     = (timespec_ns end_ts - timespec_ns start) / MS_TO_NS.
Proof.
  intros He Hs Re Rs Ho.
  apply timespec_older_ns in Ho; try assumption.
  rewrite <- (subtract_canonical_ns end_ts start) by assumption.
  unfold elapsed_report; cbn [fst snd].
  rewrite timespec_subtract_canonical by assumption.
  unfold timespec_ns in *; cbn [tv_sec tv_nsec].
  unfold normalized, in_range in *.
  pose proof (Z.div_mod (tv_nsec end_ts - tv_nsec start) S_TO_NS ltac:(discriminate)) as E.
  pose proof (Z.mod_pos_bound (tv_nsec end_ts - tv_nsec start) S_TO_NS ltac:(reflexivity)) as B.
  set (c := (tv_nsec end_ts - tv_nsec start) / S_TO_NS) in *.
  set (m := (tv_nsec end_ts - tv_nsec start) mod S_TO_NS) in *.
  assert (Hc : -1 <= c <= 0) by (unfold S_TO_NS in *; lia).
  rewrite s64_id by (unfold is_s64; lia).
  set (d := tv_sec end_ts - tv_sec start + c) in *.
  assert (Hd : 0 <= d) by (unfold S_TO_NS in *; lia).
  assert (Hq : 0 <= m / MS_TO_NS < 1000).
  { split; [apply Z.div_pos; unfold MS_TO_NS; lia |].
    apply Z.div_lt_upper_bound; unfold MS_TO_NS, S_TO_NS in *; lia. }
  rewrite Z.quot_div_nonneg by (unfold MS_TO_NS; lia).
  unfold u64. rewrite !Z.mod_small by lia.
  replace (d * S_TO_NS) with (d * S_TO_MS * MS_TO_NS)
    by (unfold S_TO_NS, S_TO_MS, MS_TO_NS; ring).
  rewrite Z.div_add_l by discriminate.
  unfold S_TO_MS. lia.
Qed.

Lemma elapsed_report_exact_witness :
  0 <= fst (elapsed_report (mkts 46 1000000) (mkts 41 999999999))
  /\ 0 <= snd (elapsed_report (mkts 46 1000000) (mkts 41 999999999)) < S_TO_MS
  /\ fst (elapsed_report (mkts 46 1000000) (mkts 41 999999999)) * S_TO_MS
     + snd (elapsed_report (mkts 46 1000000) (mkts 41 999999999))
     = (timespec_ns (mkts 46 1000000) - timespec_ns (mkts 41 999999999)) / MS_TO_NS.
Proof.
  apply (elapsed_report_exact (mkts 46 1000000) (mkts 41 999999999));
    try (unfold normalized, in_range, S_TO_NS; cbn [tv_sec tv_nsec]; lia).
  vm_compute. discriminate.
Defined.

End Comparisons.

(** ** Further properties of the workers *)

Section PollingLoop.

Variable E : env.

Lemma repeat_snoc {A : Type} (x : A) n : (repeat x n ++ [x])%list = x :: repeat x n.
Proof. induction n as [| n IH]; cbn; [reflexivity | rewrite IH; reflexivity]. Qed.

(** The polling loop stops at the first reading at or after [end_ts], after
    one [busy_loop] for each earlier reading. *)
Lemma spin_until_exact end_ts :
  forall d s fuel,
    (forall i, (i < d)%nat -> timespec_older (clock E (clk s + i)) end_ts = 0) ->
    timespec_older (clock E (clk s + d)) end_ts <> 0 ->
    (d < fuel)%nat ->
    spin_until E fuel end_ts s
    = Done {| clk := S (clk s + d); rnd := rnd s;
              trace := trace s ++ repeat EvBusyLoop d |}.
Proof.
  induction d as [| d IH]; intros s fuel Hbefore Hat Hfuel;
    (destruct fuel as [| fuel]; [lia |]); cbn [spin_until clock_gettime].
  - rewrite Nat.add_0_r in Hat.
    destruct (Z.eqb_spec (timespec_older (clock E (clk s)) end_ts) 0) as [Hz | _];
      [contradiction |].
    cbn [repeat]. rewrite app_nil_r, Nat.add_0_r. reflexivity.
  - pose proof (Hbefore O ltac:(lia)) as H0. rewrite Nat.add_0_r in H0.
    rewrite H0. cbn [Z.eqb].
    rewrite IH.
    + cbn [busy_loop emit clk rnd trace].
      rewrite <- app_assoc. cbn [app repeat].
      replace (S (clk s) + d)%nat with (clk s + S d)%nat by lia. reflexivity.
    + intros i Hi. cbn [busy_loop emit clk].
      replace (S (clk s) + i)%nat with (clk s + S i)%nat by lia.
      apply Hbefore. lia.
    + cbn [busy_loop emit clk].
      replace (S (clk s) + d)%nat with (clk s + S d)%nat by lia. exact Hat.
    + lia.
Qed.

(** X11: the polling loop of the timed workers returns at the first clock
    reading at or after the deadline and not before: it runs [busy_loop]
    once for each earlier reading, and nothing else. *)
Theorem spin_until_first_reading (end_ts : timespec) (s : wstate) (d fuel : nat) :
  (forall i, (i < d)%nat -> timespec_older (clock E (clk s + i)) end_ts = 0) ->
  timespec_older (clock E (clk s + d)) end_ts <> 0 ->
  (d < fuel)%nat ->
  spin_until E fuel end_ts s
  = Done {| clk := S (clk s + d); rnd := rnd s;
            trace := trace s ++ repeat EvBusyLoop d |}
  /\ forall fuel', (fuel' <= d)%nat -> spin_until E fuel' end_ts s = OutOfFuel.
Proof.
  intros Hbefore Hat Hfuel. split; [now apply spin_until_exact |].
  clear Hat Hfuel fuel. revert s Hbefore.
  induction d as [| d IH]; intros s Hbefore fuel' Hle.
  - replace fuel' with O by lia. reflexivity.
  - destruct fuel' as [| fuel']; [reflexivity |].
    cbn [spin_until clock_gettime].
    pose proof (Hbefore O ltac:(lia)) as H0. rewrite Nat.add_0_r in H0.
    rewrite H0. cbn [Z.eqb]. apply IH; [| lia].
    intros i Hi. cbn [busy_loop emit clk].
    replace (S (clk s) + i)%nat with (clk s + S i)%nat by lia.
    apply Hbefore. lia.
Qed.

(** The first index from [n0] on at which a decidable property holds. *)
Lemma first_index (P : nat -> bool) :
  forall k n0, P (n0 + k)%nat = true ->
  exists d, (d <= k)%nat /\ P (n0 + d)%nat = true
            /\ forall i, (i < d)%nat -> P (n0 + i)%nat = false.
Proof.
  induction k as [| k IH]; intros n0 Hk.
  - exists O. split; [lia |]. split; [exact Hk |]. intros i Hi. lia.
  - destruct (P n0) eqn:H0.
    + exists O. rewrite Nat.add_0_r. split; [lia |]. split; [exact H0 |].
      intros i Hi. lia.
    + destruct (IH (S n0)) as (d & Hd & Hat & Hbefore).
      { replace (S n0 + k)%nat with (n0 + S k)%nat by lia. exact Hk. }
      exists (S d). split; [lia |]. split.
      * replace (n0 + S d)%nat with (S n0 + d)%nat by lia. exact Hat.
      * intros [| i] Hi.
        -- rewrite Nat.add_0_r. exact H0.
        -- replace (n0 + S i)%nat with (S n0 + i)%nat by lia. apply Hbefore. lia.
Qed.

End PollingLoop.

Lemma spin_until_first_reading_witness :
  spin_until (mkenv (fun n => mkts (Z.of_nat n) 0) (fun _ => 0)) 4 (mkts 3 0)
    (mkws 1 0 [])
  = Done {| clk := S (1 + 2); rnd := 0; trace := [] ++ repeat EvBusyLoop 2 |}
  /\ forall fuel', (fuel' <= 2)%nat ->
       spin_until (mkenv (fun n => mkts (Z.of_nat n) 0) (fun _ => 0)) fuel'
         (mkts 3 0) (mkws 1 0 []) = OutOfFuel.
Proof.
  apply (spin_until_first_reading
           (mkenv (fun n => mkts (Z.of_nat n) 0) (fun _ => 0))
           (mkts 3 0) (mkws 1 0 []) 2 4).
  - intros i Hi. cbn [clock clk].
    destruct i as [| [| i]]; [reflexivity | reflexivity | lia].
  - vm_compute. discriminate.
  - lia.
Defined.

(** *** The yield worker *)

Section YieldWorker.

Variable E : env.

Lemma add_us_facts t d :
  normalized t -> in_range t -> is_u32 d ->
  normalized (timespec_add_us t d)
  /\ timespec_ns (timespec_add_us t d) = timespec_ns t + d * US_TO_NS
  /\ tv_sec t <= tv_sec (timespec_add_us t d) <= tv_sec t + 4296.
Proof.
  intros Hn Hr Hd.
  assert (Hnorm : normalized (timespec_add_us t d)).
  { rewrite timespec_add_us_canonical by assumption.
    apply Z.mod_pos_bound. reflexivity. }
  assert (Hns : timespec_ns (timespec_add_us t d) = timespec_ns t + d * US_TO_NS).
  { rewrite timespec_add_us_canonical by assumption.
    unfold normalized, in_range, is_u32 in *.
    rewrite carried_ns by (try assumption; unfold US_TO_NS, S_TO_NS; lia).
    reflexivity. }
  split; [exact Hnorm |]. split; [exact Hns |].
  unfold timespec_ns, normalized, is_u32, US_TO_NS, S_TO_NS in *. lia.
Qed.

Lemma spin_until_busy end_ts :
  forall fuel s s', spin_until E fuel end_ts s = Done s' ->
  exists b, trace s' = (trace s ++ repeat EvBusyLoop b)%list /\ rnd s' = rnd s.
Proof.
  induction fuel as [| fuel IH]; intros s s' H; cbn in H; [discriminate |].
  destruct (timespec_older (clock E (clk s)) end_ts =? 0).
  - apply IH in H. destruct H as (b & Hb & Hr). cbn in Hb, Hr.
    exists (S b). rewrite Hb, <- app_assoc. split; [reflexivity | exact Hr].
  - injection H as <-. exists O. cbn. rewrite app_nil_r. split; reflexivity.
Qed.

(** The yield window: a yield needs a reading before [end_ts] and at or
    after [yield_ts], and moves [yield_ts] on by [interval]. *)
Lemma yield_loop_count interval end_ts :
  clock_sane E -> is_u32 interval -> normalized end_ts ->
  forall fuel yield_ts s s',
    normalized yield_ts -> 0 <= tv_sec yield_ts < 2 ^ 61 + 4297 ->
    yield_loop E fuel interval end_ts yield_ts s = Done s' ->
    exists k,
      trace s' = (trace s ++ repeat EvYield k)%list /\ rnd s' = rnd s
      /\ (k = O \/ timespec_ns yield_ts + (Z.of_nat k - 1) * (interval * US_TO_NS)
                   < timespec_ns end_ts).
Proof.
  intros Hsane Hint Hend.
  induction fuel as [| fuel IH]; intros yield_ts s s' Hy Hr H; cbn in H;
    [discriminate |].
  destruct (Hsane (clk s)) as [Hnow Hnowr].
  destruct (Z.eqb_spec (timespec_older (clock E (clk s)) end_ts) 0) as [Hbefore | _].
  - assert (Hlt : timespec_ns (clock E (clk s)) < timespec_ns end_ts).
    { destruct (Z.lt_ge_cases (timespec_ns (clock E (clk s))) (timespec_ns end_ts))
        as [Hlt | Hge]; [exact Hlt |].
      apply (timespec_older_ns _ _ Hnow Hend) in Hge. contradiction. }
    destruct (Z.eqb_spec (timespec_older (clock E (clk s)) yield_ts) 0) as [Hno | Hyes].
    + apply IH in H; assumption.
    + pose proof Hyes as Hle. apply (timespec_older_ns _ _ Hnow Hy) in Hle.
      apply timespec_older_spec in Hyes.
      destruct (add_us_facts yield_ts interval Hy ltac:(unfold in_range; lia) Hint)
        as (Hy' & Hns' & Hsec').
      apply IH in H; [| exact Hy' | lia].
      destruct H as (k & Hk & Hrnd & Hcount). cbn [emit trace rnd] in Hk, Hrnd.
      exists (S k). split; [| split; [exact Hrnd |]].
      * rewrite Hk, <- app_assoc. reflexivity.
      * right. rewrite Hns' in Hcount.
        destruct Hcount as [-> | Hcount]; [cbn; lia |].
        rewrite Nat2Z.inj_succ. lia.
  - injection H as <-. exists O. cbn. rewrite app_nil_r.
    split; [reflexivity |]. split; [reflexivity |]. left. reflexivity.
Qed.

(** X13: one invocation of [worker_yield] on monotone, normalized clock
    readings: it runs busy loops and then yields, and nothing else, and
    the number [k] of yields satisfies [k * interval < period]; so an
    interval equal to the period, which [main] accepts, never yields. *)
Theorem worker_yield_count (fuel : nat) (wd : wdata) (s s' : wstate) :
  clock_monotone E -> clock_sane E ->
  is_u32 (yield_period wd) -> is_u32 (yield_interval wd) ->
  worker_yield E fuel wd s = Done s' ->
  exists b k,
    trace s' = (trace s ++ repeat EvBusyLoop b ++ repeat EvYield k)%list
    /\ rnd s' = rnd s
    /\ (k = O \/ Z.of_nat k * yield_interval wd < yield_period wd).
Proof.
  intros Hmono Hsane Hp Hi H. unfold worker_yield in H.
  cbn [clock_gettime] in H.
  destruct (spin_until E fuel _ _) as [s1 | |] eqn:Hspin; cbn [bind] in H;
    try discriminate.
  apply spin_until_busy in Hspin. destruct Hspin as (b & Hb & Hrb).
  cbn [trace rnd] in Hb, Hrb. cbn [clock_gettime clk rnd trace] in H.
  destruct (Hsane (clk s1)) as [Hn1 Hr1].
  destruct (Hsane (S (clk s1))) as [Hn2 Hr2].
  destruct (add_us_facts (clock E (clk s1)) (yield_period wd) Hn1
              ltac:(unfold in_range; lia) Hp) as (Hne & Hnse & _).
  destruct (add_us_facts (clock E (S (clk s1))) (yield_interval wd) Hn2
              ltac:(unfold in_range; lia) Hi) as (Hny & Hnsy & Hsy).
  apply (yield_loop_count _ _ Hsane Hi Hne) in H; [| exact Hny | lia].
  destruct H as (k & Hk & Hrk & Hcount). cbn [trace rnd] in Hk, Hrk.
  exists b, k. split; [| split].
  - rewrite Hk, Hb, <- app_assoc. reflexivity.
  - congruence.
  - destruct Hcount as [-> | Hcount]; [left; reflexivity | right].
    rewrite Hnse, Hnsy in Hcount.
    pose proof (Hmono (clk s1) (S (clk s1)) ltac:(lia)) as Hle.
    apply (timespec_older_ns _ _ Hn2 Hn1) in Hle.
    unfold US_TO_NS in *. lia.
Qed.

(** X14: [worker_periodic] with a duty cycle of 0, for every [uint32_t]
    period: it sleeps the whole period and returns at the next clock
    reading without a single busy loop. *)
Theorem periodic_duty_0_sleeps_only (fuel : nat) (wd : wdata) (s : wstate) :
  period_duty_cycle wd = 0 -> is_u32 (period_duration wd) ->
  normalized (clock E (clk s)) -> in_range (clock E (clk s)) ->
  timespec_older (clock E (S (clk s))) (clock E (clk s)) <> 0 ->
  worker_periodic E (S fuel) wd s
  = Done {| clk := S (S (clk s)); rnd := rnd s;
            trace := trace s ++ [EvUsleep (period_duration wd)] |}.
Proof.
  intros HD HP Hn Hr Hnext. unfold worker_periodic.
  rewrite HD, periodic_duty_0 by exact HP. cbn [of_option bind].
  unfold periodic_sleep. rewrite Z.sub_0_r, (u32_id _ HP).
  cbn [usleep emit clock_gettime clk rnd trace spin_until].
  assert (E0 : timespec_add_us (clock E (clk s)) 0 = clock E (clk s)).
  { rewrite timespec_add_us_canonical by (try assumption; unfold is_u32; lia).
    unfold normalized, in_range in *.
    rewrite Z.mul_0_l, Z.add_0_r, Z.div_small, Z.mod_small, Z.add_0_r by assumption.
    rewrite s64_id by (unfold is_s64; lia).
    destruct (clock E (clk s)); reflexivity. }
  rewrite E0.
  destruct (Z.eqb_spec (timespec_older (clock E (S (clk s))) (clock E (clk s))) 0)
    as [Hz | _]; [contradiction | reflexivity].
Qed.

End YieldWorker.

Lemma worker_yield_count_witness :
  exists b k,
    trace (mkws 12 0 [EvBusyLoop; EvBusyLoop; EvBusyLoop; EvBusyLoop; EvYield])
    = ([] ++ repeat EvBusyLoop b ++ repeat EvYield k)%list
    /\ rnd (mkws 12 0 [EvBusyLoop; EvBusyLoop; EvBusyLoop; EvBusyLoop; EvYield])
       = O
    /\ (k = O \/ Z.of_nat k * 400 < 1000).
Proof.
  apply (worker_yield_count
           (mkenv (fun n => mkts 0 (200000 * Z.of_nat (Nat.min n 100))) (fun _ => 0))
           40 (mkwdata 1 0 WORKER_YIELD (1000, 400)) (mkws 0 0 [])).
  - intros i j Hle. apply timespec_older_spec. cbn [clock tv_sec tv_nsec]. lia.
  - intros i. unfold normalized, S_TO_NS. cbn [clock tv_sec tv_nsec]. lia.
  - unfold is_u32, yield_period. cbn. lia.
  - unfold is_u32, yield_interval. cbn. lia.
  - vm_compute. reflexivity.
Defined.

Lemma periodic_duty_0_sleeps_only_witness :
  worker_periodic (mkenv (fun n => mkts (Z.of_nat n) 0) (fun _ => 0)) (S 0)
    (mkwdata 1 0 WORKER_PERIODC (4294967295, 0)) (mkws 3 0 [])
  = Done {| clk := S (S 3); rnd := 0;
            trace := [] ++ [EvUsleep 4294967295] |}.
Proof.
  apply (periodic_duty_0_sleeps_only
           (mkenv (fun n => mkts (Z.of_nat n) 0) (fun _ => 0)) 0
           (mkwdata 1 0 WORKER_PERIODC (4294967295, 0)) (mkws 3 0 [])).
  - reflexivity.
  - unfold is_u32, period_duration. cbn. lia.
  - unfold normalized, S_TO_NS. cbn. lia.
  - unfold in_range. cbn. lia.
  - vm_compute. discriminate.
Defined.

(** *** The busy loop and the random amounts *)

Section BusyLoop.

Lemma busy_loop_from_exact :
  forall d i fuel,
    1 <= i -> i + Z.of_nat (S d) = 2 ^ 16 ->
    busy_loop_from fuel i
    = if (S d <? fuel)%nat then Some (Z.of_nat (S d)) else None.
Proof.
  induction d as [| d IH]; intros i fuel Hi Hd;
    (destruct fuel as [| fuel]; [reflexivity |]); cbn [busy_loop_from];
    (destruct (Z.eqb_spec i 0) as [-> | _]; [lia |]).
  - replace i with (2 ^ 16 - 1) by lia.
    destruct fuel as [| fuel]; reflexivity.
  - assert (Eu : u16 (i + 1) = i + 1) by (unfold u16; apply Z.mod_small; lia).
    rewrite Eu, (IH (i + 1) fuel) by lia.
    change (S (S d) <? S fuel)%nat with (S d <? fuel)%nat.
    destruct (S d <? fuel)%nat; cbn [option_map]; [| reflexivity].
    f_equal. lia.
Qed.

(** X15: [busy_loop] returns: its 16-bit counter, started at 1, wraps
    around to 0 after exactly 65535 increments, neither sooner nor later. *)
Theorem busy_loop_wraps (fuel : nat) :
  busy_loop_increments fuel
  = if 65535 <? Z.of_nat fuel then Some 65535 else None.
Proof.
  unfold busy_loop_increments.
  rewrite (busy_loop_from_exact (Z.to_nat 65534) 1 fuel) by lia.
  destruct (Nat.ltb_spec (S (Z.to_nat 65534)) fuel);
    destruct (Z.ltb_spec 65535 (Z.of_nat fuel)); try lia.
  - f_equal; lia.
  - reflexivity.
Qed.

End BusyLoop.

Section RandomAmounts.

(** The scaling of [normal_random], with its two roundings. *)
Lemma normal_random_scaled (max_value rnd : Z) :
  0 <= max_value < 2 ^ 32 -> 0 <= rnd <= RAND_MAX ->
  exists n,
    normal_random max_value rnd = Some n
    /\ max_value * rnd / RAND_MAX - 1 <= n <= max_value * rnd / RAND_MAX + 1
    /\ (max_value * rnd = 0 -> n = 0).
Proof.
  intros Hmax Hrnd. unfold normal_random.
  pose proof rand_max_normal as HRM.
  destruct (Z.eq_dec rnd 0) as [-> | Hr0].
  { exists 0. rewrite Z.mul_0_r. split; [| split; [cbn; lia | reflexivity]].
    destruct HRM as (mr & er & -> & _).
    destruct (Z.eq_dec max_value 0) as [-> | Hm0]; [reflexivity |].
    destruct (double_of_int_normal max_value) as (mm & em & -> & _).
    { unfold RAND_MAX in *. lia. }
    reflexivity. }
  assert (Hr53 : 0 < rnd < 2 ^ 53) by (unfold RAND_MAX in *; lia).
  pose proof (double_of_int_normal rnd Hr53) as HR.
  destruct (Z.eq_dec max_value 0) as [-> | Hm0].
  { exists 0. rewrite Z.mul_0_l. split; [| split; [cbn; lia | reflexivity]].
    destruct HRM as (mr & er & -> & _). destruct HR as (m & e & -> & _).
    reflexivity. }
  pose proof (double_of_int_normal max_value ltac:(lia)) as HM.
  assert (Hm1 : (1 <= IZR max_value <= 4294967295)%R) by (split; apply IZR_le; lia).
  assert (Hr1 : (1 <= IZR rnd <= 2147483647)%R)
    by (split; apply IZR_le; unfold RAND_MAX in *; lia).
  assert (B10 : bpow 10 = 1024%R) by (rewrite bpow_const by lia; reflexivity).
  assert (B63 : bpow 63 = 9223372036854775808%R) by (rewrite bpow_const by lia; reflexivity).
  assert (B32 : bpow 32 = 4294967296%R) by (rewrite bpow_const by lia; reflexivity).
  assert (Bm32 : (bpow (-32) * 4294967296 = 1)%R).
  { rewrite <- B32, <- bpow_add. apply bpow_0. }
  destruct (bpow_small (-20) ltac:(lia)) as [He20 He20'].
  destruct (bpow_small (-21) ltac:(lia)) as [He21 He21'].
  set (V := (IZR max_value * IZR rnd)%R).
  assert (HV : (1 <= V <= 4294967295 * 2147483647)%R) by (unfold V; nra).
  destruct (SFmul_normal 53 1024 ltac:(lia) _ _ _ _ 0 63 HM HR)
    as (w & Hw & Hbw & Hrel & _); try (unfold emin; lia).
  { fold V. rewrite bpow_0, B63. lra. }
  fold V in Hbw, Hrel. replace (63 - 53) with 10 in Hbw by reflexivity.
  rewrite B10 in Hbw.
  destruct (SFdiv_normal 53 1024 ltac:(lia) _ _ _ _ (-32) 32 Hw HRM)
    as (u & Hu & Hbu); try (unfold emin; lia).
  { unfold RAND_MAX. rewrite B32. split; [nra | lra]. }
  replace (32 - 53) with (-21) in Hbu by reflexivity.
  replace (32 - 53 + 1) with (-20) in Hbu by reflexivity.
  unfold RAND_MAX in Hbu.
  assert (Hu1 : (u < IZR max_value + 1)%R).
  { assert (V <= IZR max_value * 2147483647)%R by (unfold V; nra).
    nra. }
  destruct (uint32_of_double_floor _ _ _ _ Hu) as (n & Hn & [Hn0 _] & Hfl).
  { assert (IZR 4294967295 + 1 <= IZR (2 ^ 32))%R.
    { rewrite <- plus_IZR. apply IZR_le. lia. }
    lra. }
  exists n. split; [exact Hn |].
  split; [| intros Hz; apply Z.mul_eq_0 in Hz; lia].
  unfold RAND_MAX in *.
  set (q := max_value * rnd / 2147483647).
  set (f := (max_value * rnd) mod 2147483647).
  assert (Hf : 0 <= f < 2147483647) by (apply Z.mod_pos_bound; lia).
  assert (Hqf : max_value * rnd = 2147483647 * q + f) by (apply Z.div_mod; lia).
  assert (HqfR : (V = 2147483647 * IZR q + IZR f)%R).
  { unfold V. rewrite <- mult_IZR, Hqf, plus_IZR, mult_IZR. reflexivity. }
  assert (HfR : (0 <= IZR f <= 2147483646)%R) by (split; apply IZR_le; lia).
  assert (Hup : n < q + 2).
  { apply lt_IZR. rewrite plus_IZR.
    apply Rmult_lt_reg_r with 2147483647%R; [lra |]. nra. }
  assert (Hlo : q - 1 < n + 1).
  { apply lt_IZR. rewrite minus_IZR, plus_IZR.
    apply Rmult_lt_reg_r with 2147483647%R; [lra |].
    change (-21 + 1) with (-20) in Hbu.
    assert (bpow (-20) * 2147483647 <= 2147483647 / 1024)%R by nra.
    assert (u * 2147483647 < (IZR n + 1) * 2147483647)%R by nra.
    lra. }
  lia.
Qed.

(** X16: [normal_random] scales: for a [uint32_t] bound and a value of
    [random ()] in [0, RAND_MAX] the result is defined and within one of
    [max_value * rnd / RAND_MAX]; it is 0 when either is 0. *)
Theorem normal_random_accuracy (max_value rnd : Z) :
  0 <= max_value < 2 ^ 32 -> 0 <= rnd <= RAND_MAX ->
  exists n,
    normal_random max_value rnd = Some n
    /\ max_value * rnd / RAND_MAX - 1 <= n <= max_value * rnd / RAND_MAX + 1
    /\ (max_value * rnd = 0 -> n = 0).
Proof.
  intros Hmax Hrnd.
  destruct (normal_random_scaled max_value rnd Hmax Hrnd) as (n & Hn & Hq & Hz).
  exists n. split; [exact Hn |]. split; [exact Hq | exact Hz].
Qed.

Lemma normal_random_accuracy_witness :
  exists n,
    normal_random 1000 1073741823 = Some n
    /\ 1000 * 1073741823 / RAND_MAX - 1 <= n <= 1000 * 1073741823 / RAND_MAX + 1
    /\ (1000 * 1073741823 = 0 -> n = 0).
Proof.
  apply (normal_random_accuracy 1000 1073741823); unfold RAND_MAX; lia.
Defined.

End RandomAmounts.

(** *** The names of the workers *)

Section WorkerNames.

Lemma names_checked :
  forallb (fun n =>
             forallb (fun k => name_check k n)
               [WORKER_BATCH; WORKER_INTERACTIVE; WORKER_PERIODC; WORKER_YIELD])
    (seq 0 256) = true.
Proof. vm_compute. reflexivity. Qed.

Lemma worker_name_depends wd :
  0 <= wd_id wd ->
  worker_name wd = worker_name (mkwdata (Z.of_nat (Z.to_nat (wd_id wd))) 0 (wd_kind wd) (0, 0))
  /\ worker_name_text wd
     = worker_name_text (mkwdata (Z.of_nat (Z.to_nat (wd_id wd))) 0 (wd_kind wd) (0, 0)).
Proof.
  intros H. unfold worker_name, worker_name_text. cbn [wd_id wd_kind].
  rewrite Z2Nat.id by assumption. split; reflexivity.
Qed.

Lemma name_check_holds wd :
  0 <= wd_id wd <= 255 -> name_check (wd_kind wd) (Z.to_nat (wd_id wd)) = true.
Proof.
  intros H. pose proof names_checked as Hall.
  rewrite forallb_forall in Hall.
  specialize (Hall (Z.to_nat (wd_id wd))).
  rewrite forallb_forall in Hall. apply Hall.
  - apply in_seq. lia.
  - destruct (wd_kind wd); cbn; auto.
Qed.

Lemma kind_char_injective k k' :
  first_char (worker_kind_name k) = first_char (worker_kind_name k') -> k = k'.
Proof. destruct k, k'; cbn; intros H; try reflexivity; discriminate. Qed.

(** X17: the name [wlg_Knnn] that [worker] gives its thread, for an id in
    [0, 255]: it has exactly 8 characters, so the 9 bytes of [name] hold
    it without truncation, and it identifies the worker: two workers with
    the same name have the same kind and the same id. *)
Theorem worker_name_identifies (wd wd' : wdata) :
  0 <= wd_id wd <= 255 -> 0 <= wd_id wd' <= 255 ->
  worker_name wd = worker_name_text wd
  /\ String.length (worker_name wd) = 8%nat
  /\ (worker_name wd = worker_name wd' ->
      wd_kind wd = wd_kind wd' /\ wd_id wd = wd_id wd').
Proof.
  intros H H'.
  pose proof (name_check_holds wd H) as C.
  pose proof (name_check_holds wd' H') as C'.
  destruct (worker_name_depends wd ltac:(lia)) as [E T].
  destruct (worker_name_depends wd' ltac:(lia)) as [E' T'].
  unfold name_check in C, C'. rewrite <- E, <- T in C. rewrite <- E', <- T' in C'.
  apply andb_prop in C. destruct C as [C C4]. apply andb_prop in C. destruct C as [C C3].
  apply andb_prop in C. destruct C as [C1 C2].
  apply andb_prop in C'. destruct C' as [C' C4']. apply andb_prop in C'.
  destruct C' as [C' C3']. apply andb_prop in C'. destruct C' as [C1' C2'].
  apply String.eqb_eq in C1. apply Nat.eqb_eq in C2.
  split; [exact C1 |]. split; [exact C2 |].
  intros Heq. rewrite <- Heq in C3', C4'.
  destruct (name_kind_char (worker_name wd)) as [c |]; [| discriminate].
  destruct (name_id (worker_name wd)) as [v |]; [| discriminate].
  apply Ascii.eqb_eq in C3, C3'. apply Z.eqb_eq in C4, C4'.
  split.
  - apply kind_char_injective. congruence.
  - lia.
Qed.

Lemma worker_name_identifies_witness :
  worker_name (mkwdata 7 0 WORKER_PERIODC (0, 0))
  = worker_name_text (mkwdata 7 0 WORKER_PERIODC (0, 0))
  /\ String.length (worker_name (mkwdata 7 0 WORKER_PERIODC (0, 0))) = 8%nat
  /\ (worker_name (mkwdata 7 0 WORKER_PERIODC (0, 0))
      = worker_name (mkwdata 255 0 WORKER_YIELD (0, 0)) ->
      wd_kind (mkwdata 7 0 WORKER_PERIODC (0, 0))
      = wd_kind (mkwdata 255 0 WORKER_YIELD (0, 0))
      /\ wd_id (mkwdata 7 0 WORKER_PERIODC (0, 0))
         = wd_id (mkwdata 255 0 WORKER_YIELD (0, 0))).
Proof.
  apply (worker_name_identifies (mkwdata 7 0 WORKER_PERIODC (0, 0))
           (mkwdata 255 0 WORKER_YIELD (0, 0))); cbn [wd_id]; lia.
Defined.

Example worker_name_periodic_7 :
  worker_name (mkwdata 7 0 WORKER_PERIODC (0, 0)) = "wlg_P007"%string.
Proof. vm_compute. reflexivity. Qed.

End WorkerNames.

(** ** Further properties of the command line and of the set-up *)

Section CommandLine.

Lemma sscanf_hhu_range s v : sscanf_hhu s = Some v -> 0 <= v <= 255.
Proof.
  unfold sscanf_hhu. destruct (scan_integer s) as [nd |]; [| discriminate].
  cbn [option_map]. intros H. injection H as <-.
  unfold u8. pose proof (Z.mod_pos_bound (strtoul_value (fst nd) (snd nd)) (2 ^ 8)
                           ltac:(lia)). lia.
Qed.

Lemma parse_option_inv c o c' :
  conf_inv c -> parse_option c o = Ok c' -> conf_inv c'.
Proof.
  unfold conf_inv, conf_bounded. intros Hc H.
  destruct o as [ch optarg | |]; cbn [parse_option] in H; try discriminate.
  destruct (Ascii.eqb ch "b");
    [| destruct (Ascii.eqb ch "d");
       [| destruct (Ascii.eqb ch "h");
          [| destruct (Ascii.eqb ch "i");
             [| destruct (Ascii.eqb ch "p");
                [| destruct (Ascii.eqb ch "y")]]]]];
    try discriminate;
    try (destruct (sscanf_hhu optarg) as [v |] eqn:Hv; try discriminate;
         injection H as <-;
         try (apply sscanf_hhu_range in Hv as Hr);
         cbn [set_bw set_td set_iw set_pw set_yw conf_vr conf_bw conf_iw conf_pw
                conf_yw conf_td conf_iparams conf_pparams conf_yparams count_agrees];
         intuition (try lia; try assumption)).
Qed.

Lemma parse_cmdline_inv opts :
  forall c c', conf_inv c -> parse_cmdline opts c = Ok c' -> conf_inv c'.
Proof.
  induction opts as [| o opts IH]; intros c c' Hc H; cbn in H.
  - injection H as <-. exact Hc.
  - destruct (parse_option c o) as [c1 | | |] eqn:Ho; try discriminate.
    eapply IH; [| exact H]. eapply parse_option_inv; eassumption.
Qed.

Lemma conf_init_inv : conf_inv conf_init.
Proof. unfold conf_inv, conf_bounded. cbn. repeat split; lia. Qed.

Lemma parse_cmdline_duration opts :
  (forall arg, In (Opt "d" arg) opts -> sscanf_hhu arg = None) ->
  forall c c', parse_cmdline opts c = Ok c' -> conf_td c' = conf_td c.
Proof.
  induction opts as [| o opts IH]; intros Hd c c' H; cbn in H.
  - injection H as <-. reflexivity.
  - destruct (parse_option c o) as [c1 | | |] eqn:Ho; try discriminate.
    rewrite (IH ltac:(intros arg Hin; apply Hd; right; exact Hin) _ _ H).
    destruct o as [ch optarg | |]; cbn [parse_option] in Ho; try discriminate.
    destruct (Ascii.eqb ch "b") eqn:Eb.
    { destruct (sscanf_hhu optarg); [injection Ho as <-; reflexivity | discriminate]. }
    destruct (Ascii.eqb_spec ch "d") as [-> | _].
    { rewrite (Hd optarg ltac:(left; reflexivity)) in Ho.
      injection Ho as <-. reflexivity. }
    destruct (Ascii.eqb ch "h"); [discriminate |].
    destruct (Ascii.eqb ch "i").
    { destruct (sscanf_hhu optarg); [injection Ho as <-; reflexivity | discriminate]. }
    destruct (Ascii.eqb ch "p").
    { destruct (sscanf_hhu optarg); [injection Ho as <-; reflexivity | discriminate]. }
    destruct (Ascii.eqb ch "y"); [| discriminate].
    destruct (sscanf_hhu optarg); [injection Ho as <-; reflexivity | discriminate].
Qed.

(** X18: the configuration that [parse_cmdline] leaves when it returns:
    the four counts and the duration are in [0, 255]; the verbose flag is
    still null; each parameter string begins with the count read from it,
    and without one the count is null; and the duration is 5 unless a
    well-formed [-d] was given. *)
Theorem parse_cmdline_conf (opts : list getopt_item) (c : conf) :
  parse_cmdline opts conf_init = Ok c ->
  conf_bounded c
  /\ conf_vr c = 0
  /\ count_agrees (conf_iw c) (conf_iparams c)
  /\ count_agrees (conf_pw c) (conf_pparams c)
  /\ count_agrees (conf_yw c) (conf_yparams c)
  /\ ((forall arg, In (Opt "d" arg) opts -> sscanf_hhu arg = None) ->
      conf_td c = 5).
Proof.
  intros H.
  destruct (parse_cmdline_inv _ _ _ conf_init_inv H) as (Hb & Hv & Hi & Hp & Hy).
  repeat (split; [assumption |]).
  intros Hd. apply (parse_cmdline_duration _ Hd _ _ H).
Qed.

Lemma parse_cmdline_conf_witness :
  conf_bounded (mkconf 0 2 1 0 0 5 (Some "1,1000,500"%string) None None)
  /\ conf_vr (mkconf 0 2 1 0 0 5 (Some "1,1000,500"%string) None None) = 0
  /\ count_agrees (conf_iw (mkconf 0 2 1 0 0 5 (Some "1,1000,500"%string) None None))
       (conf_iparams (mkconf 0 2 1 0 0 5 (Some "1,1000,500"%string) None None))
  /\ count_agrees (conf_pw (mkconf 0 2 1 0 0 5 (Some "1,1000,500"%string) None None))
       (conf_pparams (mkconf 0 2 1 0 0 5 (Some "1,1000,500"%string) None None))
  /\ count_agrees (conf_yw (mkconf 0 2 1 0 0 5 (Some "1,1000,500"%string) None None))
       (conf_yparams (mkconf 0 2 1 0 0 5 (Some "1,1000,500"%string) None None))
  /\ ((forall arg,
          In (Opt "d" arg)
            [Opt "b" "2"%string; Opt "d" "x"%string; Opt "i" "1,1000,500"%string] ->
          sscanf_hhu arg = None) ->
      conf_td (mkconf 0 2 1 0 0 5 (Some "1,1000,500"%string) None None) = 5).
Proof.
  apply (parse_cmdline_conf
           [Opt "b" "2"%string; Opt "d" "x"%string; Opt "i" "1,1000,500"%string]
           (mkconf 0 2 1 0 0 5 (Some "1,1000,500"%string) None None)).
  vm_compute. reflexivity.
Defined.

(** X19: the options that end the process in [parse_cmdline]: after a
    well-formed prefix, [-h] exits with status 0, and the long option
    [--verbose] and an unknown option abort; in each case whatever follows
    on the command line is not read and no worker is created. *)
Theorem parse_cmdline_stops (rt : runtime) (p1 p2 : Z)
  (opts1 opts2 : list getopt_item) (c1 : conf) (arg : string) :
  parse_cmdline opts1 conf_init = Ok c1 ->
  main_setup rt (opts1 ++ Opt "h" arg :: opts2) p1 p2 = ([], Exit 0)
  /\ main_setup rt (opts1 ++ LongFlag :: opts2) p1 p2 = ([], Abort)
  /\ main_setup rt (opts1 ++ Unknown :: opts2) p1 p2 = ([], Abort).
Proof.
  intros H. unfold main_setup.
  rewrite !(parse_cmdline_app _ _ _ _ H). repeat split; reflexivity.
Qed.

Lemma parse_cmdline_stops_witness :
  main_setup rt_ok ([Opt "b" "2"%string] ++ Opt "h" "x"%string :: [Unknown]) 0 0
  = ([], Exit 0)
  /\ main_setup rt_ok ([Opt "b" "2"%string] ++ LongFlag :: [Unknown]) 0 0
     = ([], Abort)
  /\ main_setup rt_ok ([Opt "b" "2"%string] ++ Unknown :: [Unknown]) 0 0
     = ([], Abort).
Proof.
  apply (parse_cmdline_stops rt_ok 0 0 [Opt "b" "2"%string] [Unknown]
           (set_bw conf_init 2) "x"%string).
  vm_compute. reflexivity.
Defined.

End CommandLine.

Section Allocation.

Variable rt : runtime.

Lemma alloc_batch_launches :
  forall n i w k l,
    0 <= i -> i + Z.of_nat n <= 255 ->
    nth_error (fst (alloc_batch rt n i w)) k = Some l ->
    launched_in_loop rt WORKER_BATCH i w k l.
Proof.
  induction n as [| n IH]; intros i w k l Hi Hn H; cbn [alloc_batch] in H.
  - destruct k; discriminate.
  - unfold create_worker in H.
    destruct (pthread_create_ok rt (w + i)) eqn:Hok; cbn [sfail sbind fst] in H;
      [| destruct k; discriminate].
    destruct (alloc_batch rt n (i + 1) w) as [l' o] eqn:Hrec.
    cbn [fst app] in H.
    destruct k as [| k]; cbn [nth_error] in H.
    + injection H as <-. unfold launched_in_loop, launch_valid, params_bounded.
      cbn [launch_slot launch_data wd_kind wd_id wd_pid wd_params fst snd].
      rewrite Hok. unfold u8. rewrite Z.mod_small by lia.
      cbn [Z.of_nat]. repeat split; try lia.
    + specialize (IH (i + 1) w k l ltac:(lia) ltac:(lia)).
      rewrite Hrec in IH. specialize (IH H).
      unfold launched_in_loop in *. rewrite Nat2Z.inj_succ.
      destruct IH as (-> & -> & -> & Hv).
      split; [lia | split; [reflexivity | split; [lia | exact Hv]]].
Qed.

Lemma alloc_params_launches kind :
  forall n i w stringp p1 p2 k l,
    0 <= i -> i + Z.of_nat n <= 255 ->
    nth_error (fst (alloc_params rt kind n i w stringp p1 p2)) k = Some l ->
    launched_in_loop rt kind i w k l.
Proof.
  induction n as [| n IH]; intros i w stringp p1 p2 k l Hi Hn H;
    cbn [alloc_params] in H.
  - destruct k; discriminate.
  - destruct (strsep stringp) as [param1 sp1].
    destruct (scan_param param1 p1) as [q1 | | |];
      try (destruct k; discriminate).
    destruct (strsep sp1) as [param2 sp2].
    destruct (scan_param param2 p2) as [q2 | | |];
      try (destruct k; discriminate).
    destruct (rejects kind q1 q2) eqn:Hrej; [destruct k; discriminate |].
    unfold create_worker in H.
    destruct (pthread_create_ok rt (w + i)) eqn:Hok; cbn [sfail sbind fst] in H;
      [| destruct k; discriminate].
    destruct (alloc_params rt kind n (i + 1) w sp2 q1 q2) as [l' o] eqn:Hrec.
    cbn [fst app] in H.
    destruct k as [| k]; cbn [nth_error] in H.
    + injection H as <-. unfold launched_in_loop, launch_valid, params_bounded.
      cbn [launch_slot launch_data wd_kind wd_id wd_pid wd_params fst snd].
      rewrite Hok. unfold u8. rewrite Z.mod_small by lia.
      cbn [Z.of_nat]. repeat split; try lia.
      unfold period_duty_cycle, yield_interval, yield_period.
      cbn [wd_params fst snd].
      destruct kind; cbn [rejects] in Hrej; try exact I;
        rewrite Z.gtb_ltb in Hrej; apply Z.ltb_ge in Hrej; exact Hrej.
    + specialize (IH (i + 1) w sp2 q1 q2 k l ltac:(lia) ltac:(lia)).
      rewrite Hrec in IH. specialize (IH H).
      unfold launched_in_loop in *. rewrite Nat2Z.inj_succ.
      destruct IH as (-> & -> & -> & Hv).
      split; [lia | split; [reflexivity | split; [lia | exact Hv]]].
Qed.

Lemma alloc_batch_length :
  forall n i w l, alloc_batch rt n i w = (l, Ok tt) -> List.length l = n.
Proof.
  induction n as [| n IH]; intros i w l H; cbn [alloc_batch] in H.
  - injection H as <-. reflexivity.
  - unfold create_worker in H.
    destruct (pthread_create_ok rt (w + i)); cbn [sfail sbind] in H;
      [| discriminate].
    destruct (alloc_batch rt n (i + 1) w) as [l' [[] | | |]] eqn:Hrec;
      try discriminate.
    injection H as <-. cbn. f_equal. eapply IH. exact Hrec.
Qed.

Lemma alloc_params_length kind :
  forall n i w stringp p1 p2 l st,
    alloc_params rt kind n i w stringp p1 p2 = (l, Ok st) -> List.length l = n.
Proof.
  induction n as [| n IH]; intros i w stringp p1 p2 l st H; cbn [alloc_params] in H.
  - injection H as <- _. reflexivity.
  - destruct (strsep stringp) as [param1 sp1].
    destruct (scan_param param1 p1) as [q1 | | |]; try discriminate.
    destruct (strsep sp1) as [param2 sp2].
    destruct (scan_param param2 p2) as [q2 | | |]; try discriminate.
    destruct (rejects kind q1 q2); [discriminate |].
    unfold create_worker in H.
    destruct (pthread_create_ok rt (w + i)); cbn [sfail sbind] in H;
      [| discriminate].
    destruct (alloc_params rt kind n (i + 1) w sp2 q1 q2) as [l' [st' | | |]] eqn:Hrec;
      try discriminate.
    injection H as <- _. cbn. f_equal. eapply IH. exact Hrec.
Qed.

Lemma Forall_sbind {A B : Type} (P : launch -> Prop) (m : setup A) (k : A -> setup B) :
  Forall P (fst m) -> (forall a, Forall P (fst (k a))) ->
  Forall P (fst (sbind m k)).
Proof.
  intros Hm Hk. destruct m as [l [a | st | |]]; cbn [sbind fst] in *; try exact Hm.
  specialize (Hk a). destruct (k a) as [l' o]. cbn [fst] in *.
  apply Forall_app. split; assumption.
Qed.

Lemma Forall_nth_error {A : Type} (P : A -> Prop) (l : list A) :
  (forall k x, nth_error l k = Some x -> P x) -> Forall P l.
Proof.
  intros H. apply Forall_forall. intros x Hin.
  destruct (In_nth_error _ _ Hin) as [k Hk]. exact (H k x Hk).
Qed.

(** X20: whatever the command line and however [main] ends, every worker
    it has created was created by a successful [pthread_create], with a
    null [pid], an id in [1, 255], and parameters within their bounds: a
    PERIODIC worker has a duty cycle of at most 100, a YIELD worker an
    interval of at most its period. *)
Theorem main_setup_launches_valid (opts : list getopt_item) (p1 p2 : Z) :
  forall slot wd,
    In (Create slot wd) (fst (main_setup rt opts p1 p2)) ->
    pthread_create_ok rt slot = true
    /\ wd_pid wd = 0
    /\ 1 <= wd_id wd <= 255
    /\ (wd_kind wd = WORKER_PERIODC -> snd (wd_params wd) <= 100)
    /\ (wd_kind wd = WORKER_YIELD -> snd (wd_params wd) <= fst (wd_params wd)).
Proof.
  assert (Hall : Forall (launch_valid rt) (fst (main_setup rt opts p1 p2))).
  2: { intros slot wd Hin. rewrite Forall_forall in Hall.
       destruct (Hall _ Hin) as (Hok & Hpid & Hid & Hpar).
       cbn [launch_slot launch_data] in *.
       repeat (split; [assumption |]).
       unfold params_bounded, period_duty_cycle, yield_interval, yield_period in Hpar.
       split; intros Hk; rewrite Hk in Hpar; exact Hpar. }
  unfold main_setup.
  destruct (parse_cmdline opts conf_init) as [c | st | |] eqn:Hparse;
    try (cbn; constructor).
  destruct (parse_cmdline_inv _ _ _ conf_init_inv Hparse) as (Hb & _).
  unfold conf_bounded in Hb.
  apply Forall_sbind; [| intros w; cbn; constructor].
  unfold alloc_workers.
  apply Forall_sbind.
  { apply Forall_nth_error. intros k l H.
    apply alloc_batch_launches in H; [apply H | lia | lia]. }
  intros _. apply Forall_sbind.
  { apply Forall_nth_error. intros k l H.
    apply alloc_params_launches in H; [apply H | lia | lia]. }
  intros st1. apply Forall_sbind.
  { apply Forall_nth_error. intros k l H.
    apply alloc_params_launches in H; [apply H | lia | lia]. }
  intros st2. apply Forall_sbind.
  { apply Forall_nth_error. intros k l H.
    apply alloc_params_launches in H; [apply H | lia | lia]. }
  intros st3. cbn. constructor.
Qed.

Lemma sbind_ok_inv {A B : Type} (m : setup A) (k : A -> setup B) l b :
  sbind m k = (l, Ok b) ->
  exists l1 a l2, m = (l1, Ok a) /\ k a = (l2, Ok b) /\ l = (l1 ++ l2)%list.
Proof.
  destruct m as [l1 [a | st | |]]; cbn [sbind]; try discriminate.
  destruct (k a) as [l2 o] eqn:Hk. intros H. injection H as <- ->.
  exists l1, a, l2. repeat split. exact Hk.
Qed.

(** X21: when the set-up of the workers succeeds and the four counts sum
    to at most 255, [main] has created exactly that many workers, the
    final [w] is their number, and the k-th worker created stands in entry
    [k] of [workers_data]: the BATCH workers first, then the INTERACTIVE,
    PERIODIC and YIELD ones, each kind with the ids 1, 2, ... *)
Theorem main_setup_layout (opts : list getopt_item) (p1 p2 : Z)
  (l : list launch) (c : conf) (w : Z) :
  main_setup rt opts p1 p2 = (l, Ok (c, w)) ->
  conf_bw c + conf_iw c + conf_pw c + conf_yw c <= 255 ->
  w = conf_bw c + conf_iw c + conf_pw c + conf_yw c
  /\ Z.of_nat (List.length l) = w
  /\ forall k x,
       nth_error l k = Some x ->
       launch_slot x = Z.of_nat k
       /\ (wd_kind (launch_data x), wd_id (launch_data x))
          = expected_worker c (Z.of_nat k).
Proof.
  unfold main_setup. intros H Hsum.
  destruct (parse_cmdline opts conf_init) as [c0 | st | |] eqn:Hparse;
    try discriminate.
  destruct (parse_cmdline_inv _ _ _ conf_init_inv Hparse) as (Hb & _).
  unfold conf_bounded in Hb.
  apply sbind_ok_inv in H. destruct H as (l0 & w0 & l0' & Ha & Hret & ->).
  cbn [sret] in Hret. injection Hret as <- -> ->. rewrite app_nil_r.
  unfold alloc_workers in Ha.
  apply sbind_ok_inv in Ha. destruct Ha as (lb & [] & r1 & Hlb & Ha & ->).
  apply sbind_ok_inv in Ha. destruct Ha as (li & sti & r2 & Hli & Ha & ->).
  apply sbind_ok_inv in Ha. destruct Ha as (lp & stp & r3 & Hlp & Ha & ->).
  apply sbind_ok_inv in Ha. destruct Ha as (ly & sty & r4 & Hly & Hret & ->).
  cbn [sret] in Hret. injection Hret as <- <-. rewrite app_nil_r.
  assert (Eb : u8 (0 + conf_bw c) = conf_bw c)
    by (unfold u8; rewrite Z.add_0_l; apply Z.mod_small; lia).
  rewrite Eb in *.
  assert (Ei : u8 (conf_bw c + conf_iw c) = conf_bw c + conf_iw c)
    by (unfold u8; apply Z.mod_small; lia).
  rewrite Ei in *.
  assert (Ep : u8 (conf_bw c + conf_iw c + conf_pw c)
               = conf_bw c + conf_iw c + conf_pw c)
    by (unfold u8; apply Z.mod_small; lia).
  rewrite Ep in *.
  assert (Ey : u8 (conf_bw c + conf_iw c + conf_pw c + conf_yw c)
               = conf_bw c + conf_iw c + conf_pw c + conf_yw c)
    by (unfold u8; apply Z.mod_small; lia).
  assert (Eb0 : u8 (conf_bw c) = conf_bw c)
    by (unfold u8; apply Z.mod_small; lia).
  rewrite Eb0, Ei, Ep, Ey.
  pose proof (alloc_batch_length _ _ _ _ Hlb) as Nb.
  pose proof (alloc_params_length _ _ _ _ _ _ _ _ _ Hli) as Ni.
  pose proof (alloc_params_length _ _ _ _ _ _ _ _ _ Hlp) as Np.
  pose proof (alloc_params_length _ _ _ _ _ _ _ _ _ Hly) as Ny.
  split; [reflexivity |]. split.
  { rewrite !length_app, Nb, Ni, Np, Ny. lia. }
  intros k x Hk. unfold expected_worker.
  destruct (Nat.lt_ge_cases k (List.length lb)) as [Kb | Kb].
  { rewrite nth_error_app1 in Hk by exact Kb.
    pose proof (alloc_batch_launches (Z.to_nat (conf_bw c)) 0 0 k x
                  ltac:(lia) ltac:(lia)) as L.
    rewrite Hlb in L. destruct (L Hk) as (-> & -> & -> & _).
    destruct (Z.ltb_spec (Z.of_nat k) (conf_bw c)); [| lia].
    split; [lia | f_equal; lia]. }
  rewrite nth_error_app2 in Hk by exact Kb.
  destruct (Nat.lt_ge_cases (k - List.length lb) (List.length li)) as [Ki | Ki].
  { rewrite nth_error_app1 in Hk by exact Ki.
    pose proof (alloc_params_launches WORKER_INTERACTIVE (Z.to_nat (conf_iw c)) 0
                  (conf_bw c) (snd (strsep (conf_iparams c))) p1 p2
                  (k - List.length lb) x ltac:(lia) ltac:(lia)) as L.
    rewrite Hli in L. destruct (L Hk) as (-> & -> & -> & _).
    destruct (Z.ltb_spec (Z.of_nat k) (conf_bw c)); [lia |].
    destruct (Z.ltb_spec (Z.of_nat k) (conf_bw c + conf_iw c)); [| lia].
    split; [lia | f_equal; lia]. }
  rewrite nth_error_app2 in Hk by exact Ki.
  destruct (Nat.lt_ge_cases (k - List.length lb - List.length li) (List.length lp)) as [Kp | Kp].
  { rewrite nth_error_app1 in Hk by exact Kp.
    pose proof (alloc_params_launches WORKER_PERIODC (Z.to_nat (conf_pw c)) 0
                  (conf_bw c + conf_iw c) (snd (strsep (conf_pparams c)))
                  (snd (fst sti)) (snd sti)
                  (k - List.length lb - List.length li) x ltac:(lia) ltac:(lia)) as L.
    rewrite Hlp in L. destruct (L Hk) as (-> & -> & -> & _).
    destruct (Z.ltb_spec (Z.of_nat k) (conf_bw c)); [lia |].
    destruct (Z.ltb_spec (Z.of_nat k) (conf_bw c + conf_iw c)); [lia |].
    destruct (Z.ltb_spec (Z.of_nat k) (conf_bw c + conf_iw c + conf_pw c)); [| lia].
    split; [lia | f_equal; lia]. }
  rewrite nth_error_app2 in Hk by exact Kp.
  pose proof (alloc_params_launches WORKER_YIELD (Z.to_nat (conf_yw c)) 0
                (conf_bw c + conf_iw c + conf_pw c) (snd (strsep (conf_yparams c)))
                (snd (fst stp)) (snd stp)
                (k - List.length lb - List.length li - List.length lp) x ltac:(lia) ltac:(lia)) as L.
  rewrite Hly in L. destruct (L Hk) as (-> & -> & -> & _).
  destruct (Z.ltb_spec (Z.of_nat k) (conf_bw c)); [lia |].
  destruct (Z.ltb_spec (Z.of_nat k) (conf_bw c + conf_iw c)); [lia |].
  destruct (Z.ltb_spec (Z.of_nat k) (conf_bw c + conf_iw c + conf_pw c)); [lia |].
  split; [lia | f_equal; lia].
Qed.

End Allocation.

Lemma main_setup_launches_valid_witness :
  pthread_create_ok rt_ok 1 = true
  /\ wd_pid (mkwdata 1 0 WORKER_PERIODC (1000, 50)) = 0
  /\ 1 <= wd_id (mkwdata 1 0 WORKER_PERIODC (1000, 50)) <= 255
  /\ (wd_kind (mkwdata 1 0 WORKER_PERIODC (1000, 50)) = WORKER_PERIODC ->
      snd (wd_params (mkwdata 1 0 WORKER_PERIODC (1000, 50))) <= 100)
  /\ (wd_kind (mkwdata 1 0 WORKER_PERIODC (1000, 50)) = WORKER_YIELD ->
      snd (wd_params (mkwdata 1 0 WORKER_PERIODC (1000, 50)))
      <= fst (wd_params (mkwdata 1 0 WORKER_PERIODC (1000, 50)))).
Proof.
  apply (main_setup_launches_valid rt_ok
           [Opt "b" "1"%string; Opt "p" "1,1000,50"%string] 0 0 1
           (mkwdata 1 0 WORKER_PERIODC (1000, 50))).
  vm_compute. right. left. reflexivity.
Defined.

Lemma main_setup_layout_witness :
  3 = conf_bw (mkconf 0 2 1 0 0 5 (Some "1,1000,500"%string) None None)
      + conf_iw (mkconf 0 2 1 0 0 5 (Some "1,1000,500"%string) None None)
      + conf_pw (mkconf 0 2 1 0 0 5 (Some "1,1000,500"%string) None None)
      + conf_yw (mkconf 0 2 1 0 0 5 (Some "1,1000,500"%string) None None)
  /\ Z.of_nat (List.length
                 [Create 0 (mkwdata 1 0 WORKER_BATCH (0, 0));
                  Create 1 (mkwdata 2 0 WORKER_BATCH (0, 0));
                  Create 2 (mkwdata 1 0 WORKER_INTERACTIVE (1000, 500))]) = 3
  /\ forall k x,
       nth_error
         [Create 0 (mkwdata 1 0 WORKER_BATCH (0, 0));
          Create 1 (mkwdata 2 0 WORKER_BATCH (0, 0));
          Create 2 (mkwdata 1 0 WORKER_INTERACTIVE (1000, 500))] k = Some x ->
       launch_slot x = Z.of_nat k
       /\ (wd_kind (launch_data x), wd_id (launch_data x))
          = expected_worker (mkconf 0 2 1 0 0 5 (Some "1,1000,500"%string) None None)
              (Z.of_nat k).
Proof.
  apply (main_setup_layout rt_ok
           [Opt "b" "2"%string; Opt "i" "1,1000,500"%string] 0 0).
  - vm_compute. reflexivity.
  - cbn. lia.
Defined.

Section SetupFailures.

Variable rt : runtime.

Lemma alloc_batch_exit :
  forall n i w st, snd (alloc_batch rt n i w) = Exit st -> st = 255.
Proof.
  induction n as [| n IH]; intros i w st H; cbn [alloc_batch] in H.
  - discriminate.
  - unfold create_worker in H.
    destruct (pthread_create_ok rt (w + i)); cbn [sfail sbind snd] in H.
    + destruct (alloc_batch rt n (i + 1) w) as [l' o] eqn:Hrec. cbn [snd] in H.
      apply (IH (i + 1) w). rewrite Hrec. exact H.
    + injection H as <-. reflexivity.
Qed.

Lemma alloc_params_exit kind :
  forall n i w stringp p1 p2 st,
    snd (alloc_params rt kind n i w stringp p1 p2) = Exit st -> st = 255.
Proof.
  induction n as [| n IH]; intros i w stringp p1 p2 st H; cbn [alloc_params] in H.
  - discriminate.
  - destruct (strsep stringp) as [param1 sp1].
    destruct (scan_param param1 p1) as [q1 | | |]; try discriminate.
    destruct (strsep sp1) as [param2 sp2].
    destruct (scan_param param2 p2) as [q2 | | |]; try discriminate.
    destruct (rejects kind q1 q2); [injection H as <-; reflexivity |].
    unfold create_worker in H.
    destruct (pthread_create_ok rt (w + i)); cbn [sfail sbind snd] in H.
    + destruct (alloc_params rt kind n (i + 1) w sp2 q1 q2) as [l' o] eqn:Hrec.
      cbn [snd] in H. apply (IH (i + 1) w sp2 q1 q2). rewrite Hrec. exact H.
    + injection H as <-. reflexivity.
Qed.

Lemma alloc_batch_no_abort :
  forall n i w, snd (alloc_batch rt n i w) <> Abort
                /\ snd (alloc_batch rt n i w) <> Fault.
Proof.
  induction n as [| n IH]; intros i w; cbn [alloc_batch].
  - split; discriminate.
  - unfold create_worker.
    destruct (pthread_create_ok rt (w + i)); cbn [sfail sbind snd].
    + specialize (IH (i + 1) w).
      destruct (alloc_batch rt n (i + 1) w) as [l' o]. exact IH.
    + split; discriminate.
Qed.

Lemma alloc_params_no_abort kind :
  forall n i w stringp p1 p2,
    snd (alloc_params rt kind n i w stringp p1 p2) <> Abort.
Proof.
  induction n as [| n IH]; intros i w stringp p1 p2; cbn [alloc_params].
  - discriminate.
  - destruct (strsep stringp) as [param1 sp1].
    destruct (scan_param param1 p1) as [q1 | | |]; try discriminate.
    destruct (strsep sp1) as [param2 sp2].
    destruct (scan_param param2 p2) as [q2 | | |]; try discriminate.
    destruct (rejects kind q1 q2); [discriminate |].
    unfold create_worker.
    destruct (pthread_create_ok rt (w + i)); cbn [sfail sbind snd].
    + specialize (IH (i + 1) w sp2 q1 q2).
      destruct (alloc_params rt kind n (i + 1) w sp2 q1 q2) as [l' o]. exact IH.
    + discriminate.
Qed.

Lemma snd_sbind {A B : Type} (P : outcome B -> Prop) (m : setup A) (k : A -> setup B) :
  (forall st, snd m = Exit st -> P (Exit st)) ->
  (snd m = Abort -> P Abort) -> (snd m = Fault -> P Fault) ->
  (forall a, snd m = Ok a -> P (snd (k a))) ->
  P (snd (sbind m k)).
Proof.
  intros He Ha Hf Hk. destruct m as [l [a | st | |]]; cbn [sbind snd] in *; auto.
  specialize (Hk a eq_refl). destruct (k a) as [l' o]. exact Hk.
Qed.

Lemma parse_cmdline_exit opts :
  forall c st,
    parse_cmdline opts c = Exit st ->
    st = 255 \/ (st = 0 /\ exists arg, In (Opt "h" arg) opts).
Proof.
  induction opts as [| o opts IH]; intros c st H; cbn in H; [discriminate |].
  destruct (parse_option c o) as [c1 | st1 | |] eqn:Ho; try discriminate.
  - destruct (IH _ _ H) as [-> | (-> & arg & Hin)]; [left; reflexivity | right].
    split; [reflexivity |]. exists arg. right. exact Hin.
  - injection H as <-.
    destruct o as [ch optarg | |]; cbn [parse_option] in Ho; try discriminate.
    destruct (Ascii.eqb ch "b").
    { destruct (sscanf_hhu optarg); [discriminate |].
      injection Ho as <-. left. reflexivity. }
    destruct (Ascii.eqb ch "d").
    { destruct (sscanf_hhu optarg); discriminate. }
    destruct (Ascii.eqb_spec ch "h") as [-> | _].
    { injection Ho as <-. right. split; [reflexivity |].
      exists optarg. left. reflexivity. }
    destruct (Ascii.eqb ch "i").
    { destruct (sscanf_hhu optarg); [discriminate |].
      injection Ho as <-. left. reflexivity. }
    destruct (Ascii.eqb ch "p").
    { destruct (sscanf_hhu optarg); [discriminate |].
      injection Ho as <-. left. reflexivity. }
    destruct (Ascii.eqb ch "y"); [| discriminate].
    destruct (sscanf_hhu optarg); [discriminate |].
    injection Ho as <-. left. reflexivity.
Qed.

(** X22: how [main] can end before the start of the workers: an exit has
    the status 255, or the status 0 and then [-h] is on the command line;
    and an abort comes from [parse_cmdline] alone, with no worker
    created. *)
Theorem main_setup_exit_status (opts : list getopt_item) (p1 p2 : Z) :
  (forall st,
      snd (main_setup rt opts p1 p2) = Exit st ->
      st = 255 \/ (st = 0 /\ exists arg, In (Opt "h" arg) opts))
  /\ (snd (main_setup rt opts p1 p2) = Abort ->
      fst (main_setup rt opts p1 p2) = []).
Proof.
  unfold main_setup.
  destruct (parse_cmdline opts conf_init) as [c | st0 | |] eqn:Hparse;
    cbn [sfail fst snd].
  2: { split; [| reflexivity]. intros st H. injection H as <-.
       apply (parse_cmdline_exit _ _ _ Hparse). }
  2: { split; [discriminate | reflexivity]. }
  2: { split; discriminate. }
  assert (Hall : forall o,
             snd (alloc_workers rt c p1 p2) = o ->
             (forall st, o = Exit st -> st = 255) /\ o <> Abort).
  { intros o <-. unfold alloc_workers.
    apply snd_sbind.
    - intros st H. split; [| discriminate].
      intros st' E. injection E as <-. apply alloc_batch_exit in H. exact H.
    - intros H. exfalso. apply (alloc_batch_no_abort _ _ _) in H. exact H.
    - intros H. exfalso. apply (alloc_batch_no_abort _ _ _) in H. exact H.
    - intros _ _. apply snd_sbind.
      + intros st H. split; [| discriminate].
        intros st' E. injection E as <-. apply alloc_params_exit in H. exact H.
      + intros H. exfalso. apply (alloc_params_no_abort _ _ _ _ _ _ _) in H. exact H.
      + intros _. split; discriminate.
      + intros st1 _. apply snd_sbind.
        * intros st H. split; [| discriminate].
          intros st' E. injection E as <-. apply alloc_params_exit in H. exact H.
        * intros H. exfalso. apply (alloc_params_no_abort _ _ _ _ _ _ _) in H. exact H.
        * intros _. split; discriminate.
        * intros st2 _. apply snd_sbind.
          -- intros st H. split; [| discriminate].
             intros st' E. injection E as <-. apply alloc_params_exit in H. exact H.
          -- intros H. exfalso. apply (alloc_params_no_abort _ _ _ _ _ _ _) in H.
             exact H.
          -- intros _. split; discriminate.
          -- intros st3 _. cbn. split; discriminate. }
  destruct (alloc_workers rt c p1 p2) as [l o] eqn:Ha. cbn [snd] in Hall.
  destruct (Hall o eq_refl) as [He Hna].
  destruct o as [w | st1 | |]; cbn [sbind sret fst snd].
  - split; discriminate.
  - split; [| discriminate]. intros st H. injection H as <-.
    left. apply He. reflexivity.
  - contradiction.
  - split; discriminate.
Qed.

(** The loop over workers with parameters when the parameter string has
    no second token left. *)
Lemma alloc_params_fault kind n i w stringp p1 p2 :
  snd (strsep stringp) = None ->
  alloc_params rt kind (S n) i w stringp p1 p2 = ([], Fault).
Proof.
  intros H. cbn [alloc_params].
  destruct (strsep stringp) as [param1 sp1]. cbn [snd] in H. subst sp1.
  destruct (scan_param param1 p1); reflexivity.
Qed.

(** X23: parameters missing on the command line: when the argument of
    [-i], [-p] or [-y] gives a count that is not null and has at most one
    comma, so that the first worker lacks a parameter, [main] passes a
    null pointer to [sscanf]; no worker has been created. *)
Theorem missing_parameters_fault (ch : ascii) (optarg : string) (n p1 p2 : Z) :
  ch = "i"%char \/ ch = "p"%char \/ ch = "y"%char ->
  sscanf_hhu optarg = Some n -> n <> 0 ->
  snd (strsep (snd (strsep (Some optarg)))) = None ->
  main_setup rt [Opt ch optarg] p1 p2 = ([], Fault).
Proof.
  intros Hch Hn Hnz Htok.
  pose proof (sscanf_hhu_range _ _ Hn) as Hr.
  destruct (Z.to_nat n) as [| m] eqn:Em; [lia |].
  unfold main_setup.
  destruct Hch as [-> | [-> | ->]];
    cbn [parse_cmdline parse_option Ascii.eqb Bool.eqb]; rewrite Hn;
    unfold alloc_workers;
    cbn [conf_init set_iw set_pw set_yw conf_bw conf_iw conf_pw conf_yw
           conf_iparams conf_pparams conf_yparams Z.to_nat alloc_batch
           alloc_params sret sbind fst snd strsep];
    rewrite ?Em; rewrite alloc_params_fault by exact Htok; reflexivity.
Qed.

End SetupFailures.

Lemma missing_parameters_fault_witness :
  main_setup rt_ok [Opt "i" "2,1000"%string] 0 0 = ([], Fault).
Proof.
  apply (missing_parameters_fault rt_ok "i" "2,1000"%string 2 0 0).
  - left. reflexivity.
  - vm_compute. reflexivity.
  - discriminate.
  - vm_compute. reflexivity.
Defined.

Section BatchOnly.

Lemma alloc_batch_all :
  forall n i w,
    0 <= i -> i + Z.of_nat n <= 255 ->
    alloc_batch rt_ok n i w
    = (map (fun k => Create (w + i + Z.of_nat k)
                       (mkwdata (i + Z.of_nat k + 1) 0 WORKER_BATCH (0, 0)))
         (seq 0 n), Ok tt).
Proof.
  induction n as [| n IH]; intros i w Hi Hn; cbn [alloc_batch].
  - reflexivity.
  - unfold create_worker. cbn [rt_ok pthread_create_ok sbind].
    rewrite IH by lia. cbn [app seq map Z.of_nat].
    rewrite <- seq_shift, map_map.
    unfold u8. rewrite Z.mod_small by lia.
    rewrite !Z.add_0_r. f_equal. f_equal.
    apply map_ext. intros k. rewrite Nat2Z.inj_succ. f_equal; [lia |].
    f_equal. lia.
Qed.

Lemma alloc_workers_batch n p1 p2 :
  0 <= n <= 255 ->
  alloc_workers rt_ok (set_bw conf_init n) p1 p2
  = (map (fun k => Create (Z.of_nat k)
                     (mkwdata (Z.of_nat k + 1) 0 WORKER_BATCH (0, 0)))
       (seq 0 (Z.to_nat n)),
     Ok n).
Proof.
  intros Hr. unfold alloc_workers.
  cbn [conf_init set_bw conf_bw conf_iw conf_pw conf_yw conf_iparams conf_pparams
         conf_yparams].
  rewrite alloc_batch_all by lia.
  cbn [Z.to_nat alloc_params strsep sret sbind fst snd].
  rewrite !app_nil_r, !Z.add_0_r, !Z.add_0_l.
  assert (Eu : u8 n = n) by (unfold u8; apply Z.mod_small; lia).
  rewrite !Eu. f_equal.
Qed.

(** X24: a command line with [-b n] alone, on a system where
    [pthread_create] succeeds: the set-up succeeds and creates exactly [n]
    BATCH workers, with the ids 1 to [n], in the entries 0 to [n - 1]. *)
Theorem batch_only_setup (optarg : string) (n p1 p2 : Z) :
  sscanf_hhu optarg = Some n ->
  main_setup rt_ok [Opt "b" optarg] p1 p2
  = (map (fun k => Create (Z.of_nat k)
                     (mkwdata (Z.of_nat k + 1) 0 WORKER_BATCH (0, 0)))
       (seq 0 (Z.to_nat n)),
     Ok (set_bw conf_init n, n)).
Proof.
  intros Hn. pose proof (sscanf_hhu_range _ _ Hn) as Hr.
  unfold main_setup. cbn [parse_cmdline parse_option Ascii.eqb Bool.eqb].
  rewrite Hn, alloc_workers_batch by exact Hr.
  cbn [sbind sret]. rewrite app_nil_r. reflexivity.
Qed.

Lemma batch_only_setup_witness :
  main_setup rt_ok [Opt "b" "2"%string] 0 0
  = (map (fun k => Create (Z.of_nat k)
                     (mkwdata (Z.of_nat k + 1) 0 WORKER_BATCH (0, 0)))
       (seq 0 (Z.to_nat 2)),
     Ok (set_bw conf_init 2, 2)).
Proof.
  apply (batch_only_setup "2"%string 2 0 0). vm_compute. reflexivity.
Defined.

End BatchOnly.

(** ** Further properties of the synchronised start *)

Section StartInvariants.

Lemma nth_error_set_nth {A : Type} (x : A) :
  forall l i j y,
    nth_error (set_nth i x l) j = Some y ->
    (j = i /\ y = x) \/ (j <> i /\ nth_error l j = Some y).
Proof.
  induction l as [| z l IH]; intros i j y H.
  - destruct j; discriminate.
  - destruct i as [| i], j as [| j]; cbn in H.
    + injection H as <-. left. auto.
    + right. split; [discriminate | exact H].
    + right. split; [discriminate | exact H].
    + destruct (IH i j y H) as [[-> ->] | [Hne Hn]]; [left; auto | right].
      split; [congruence | exact Hn].
Qed.

Lemma Forall_set_nth {A : Type} (P : A -> Prop) x :
  forall l i, Forall P l -> P x -> Forall P (set_nth i x l).
Proof.
  induction l as [| z l IH]; intros i Hl Hx; [constructor |].
  inversion Hl; subst. destruct i; cbn; constructor; auto.
Qed.

Lemma nth_error_snoc {A : Type} (l : list A) x i y :
  nth_error (l ++ [x]) i = Some y -> nth_error l i = Some y \/ y = x.
Proof.
  intros H. destruct (Nat.lt_ge_cases i (List.length l)) as [Hlt | Hge].
  - rewrite nth_error_app1 in H by exact Hlt. left. exact H.
  - rewrite nth_error_app2 in H by exact Hge.
    destruct (i - List.length l)%nat as [| k]; cbn in H.
    + injection H as <-. right. reflexivity.
    + destruct k; discriminate.
Qed.

Lemma mutex_free_none s : mutex_free s = true -> mutex s = None.
Proof. unfold mutex_free. destruct (mutex s); [discriminate | reflexivity]. Qed.

Lemma wake_holds pc : worker_holds (wake pc) = worker_holds pc.
Proof. destruct pc; reflexivity. Qed.

Lemma step_mutex_inv N td a s s' :
  mutex_inv s -> step N td a s = Some s' -> mutex_inv s'.
Proof.
  unfold mutex_inv. intros [Hm Hw] Hstep.
  destruct a as [ts | | i | i]; cbn [step] in Hstep.
  - destruct (timespec_older ts (now s) =? 0); [discriminate |].
    injection Hstep as <-. cbn. split; assumption.
  - unfold step_main in Hstep.
    destruct (mpc s) as [k | i | | | | | i |] eqn:Hpc; cbn [main_holds] in Hm.
    + destruct (k <? N)%nat; injection Hstep as <-; cbn.
      * split; [intros _; apply Hm; reflexivity |].
        intros i pc Hn Hh. apply nth_error_snoc in Hn.
        destruct Hn as [Hn | ->]; [| discriminate].
        specialize (Hw i pc Hn Hh). rewrite (Hm eq_refl) in Hw. discriminate.
      * split; [discriminate |]. intros i pc Hn Hh.
        specialize (Hw i pc Hn Hh). rewrite (Hm eq_refl) in Hw. discriminate.
    + destruct (i <? N)%nat.
      * destruct (nth_error (wpcs s) i) as [[| | | | | | | e |] |];
          try discriminate; injection Hstep as <-; cbn;
          try (rewrite Hpc; cbn); (split; [discriminate | exact Hw]).
      * injection Hstep as <-. cbn. split; [discriminate | exact Hw].
    + destruct (mutex_free s) eqn:Hf; [| discriminate].
      apply mutex_free_none in Hf. injection Hstep as <-. cbn.
      split; [reflexivity |]. intros i pc Hn Hh.
      specialize (Hw i pc Hn Hh). congruence.
    + injection Hstep as <-. cbn. split; [intros _; apply Hm; reflexivity |].
      intros i pc Hn Hh. rewrite nth_error_map in Hn.
      destruct (nth_error (wpcs s) i) as [pc0 |] eqn:Hn0; [| discriminate].
      cbn in Hn. injection Hn as <-. rewrite wake_holds in Hh.
      exact (Hw i pc0 Hn0 Hh).
    + injection Hstep as <-. cbn. split; [intros _; apply Hm; reflexivity |].
      exact Hw.
    + injection Hstep as <-. cbn. split; [discriminate |].
      intros i pc Hn Hh. specialize (Hw i pc Hn Hh).
      rewrite (Hm eq_refl) in Hw. discriminate.
    + destruct (i <? N)%nat.
      * destruct (nth_error (wpcs s) i) as [[| | | | | | | e |] |];
          try discriminate; injection Hstep as <-; cbn.
        split; [discriminate | exact Hw].
      * injection Hstep as <-. cbn. split; [discriminate | exact Hw].
    + discriminate.
  - unfold step_worker in Hstep.
    destruct (nth_error (wpcs s) i) as [pc |] eqn:Hnth; [| discriminate].
    destruct pc; try discriminate.
    + (* W_created *)
      injection Hstep as <-. cbn. split; [exact Hm |].
      intros j pc Hn Hh. apply nth_error_set_nth in Hn.
      destruct Hn as [[-> ->] | [_ Hn]]; [discriminate | exact (Hw j pc Hn Hh)].
    + (* W_ready *)
      destruct (mutex_free s) eqn:Hf; [| discriminate].
      apply mutex_free_none in Hf. injection Hstep as <-. cbn.
      split; [intros H; specialize (Hm H); congruence |].
      intros j pc Hn Hh. apply nth_error_set_nth in Hn.
      destruct Hn as [[-> ->] | [_ Hn]]; [reflexivity |].
      specialize (Hw j pc Hn Hh). congruence.
    + (* W_locked *)
      pose proof (Hw i W_locked Hnth eq_refl) as Hi.
      injection Hstep as <-. cbn.
      split; [intros H; specialize (Hm H); congruence |].
      intros j pc Hn Hh. apply nth_error_set_nth in Hn.
      destruct Hn as [[-> ->] | [Hne Hn]]; [discriminate |].
      specialize (Hw j pc Hn Hh). congruence.
    + (* W_woken *)
      destruct (mutex_free s) eqn:Hf; [| discriminate].
      apply mutex_free_none in Hf. injection Hstep as <-. cbn.
      split; [intros H; specialize (Hm H); congruence |].
      intros j pc Hn Hh. apply nth_error_set_nth in Hn.
      destruct Hn as [[-> ->] | [_ Hn]]; [reflexivity |].
      specialize (Hw j pc Hn Hh). congruence.
    + (* W_returned *)
      pose proof (Hw i W_returned Hnth eq_refl) as Hi.
      injection Hstep as <-. cbn.
      split; [intros H; specialize (Hm H); congruence |].
      intros j pc Hn Hh. apply nth_error_set_nth in Hn.
      destruct Hn as [[-> ->] | [Hne Hn]]; [discriminate |].
      specialize (Hw j pc Hn Hh). congruence.
    + (* W_released *)
      injection Hstep as <-. cbn. split; [exact Hm |].
      intros j pc Hn Hh. apply nth_error_set_nth in Hn.
      destruct Hn as [[-> ->] | [_ Hn]]; [discriminate | exact (Hw j pc Hn Hh)].
    + (* W_running *)
      destruct (timespec_older (now s) end_ts =? 0); injection Hstep as <-;
        [split; assumption |].
      cbn. split; [exact Hm |].
      intros j pc Hn Hh. apply nth_error_set_nth in Hn.
      destruct Hn as [[-> ->] | [_ Hn]]; [discriminate | exact (Hw j pc Hn Hh)].
  - destruct (nth_error (wpcs s) i) as [[| | | | | | | e |] |] eqn:Hnth;
      try discriminate.
    injection Hstep as <-. cbn. split; [exact Hm |].
    intros j pc Hn Hh. apply nth_error_set_nth in Hn.
    destruct Hn as [[-> ->] | [_ Hn]]; [discriminate | exact (Hw j pc Hn Hh)].
Qed.

Lemma run_mutex_inv N td sched :
  forall s s', mutex_inv s -> run N td sched s = Some s' -> mutex_inv s'.
Proof.
  induction sched as [| a sched IH]; intros s s' Hinv Hrun; cbn in Hrun.
  - injection Hrun as <-. exact Hinv.
  - destruct (step N td a s) as [s1 |] eqn:Hstep; [| discriminate].
    apply (IH s1 s'); [| exact Hrun].
    apply (step_mutex_inv N td a s s1); assumption.
Qed.

Lemma sys_init_mutex_inv t0 : mutex_inv (sys_init t0).
Proof.
  split; [reflexivity |]. intros i pc Hn. destruct i; discriminate.
Qed.

(** X25: [start_mtx] does its work, on every schedule, spurious wake-ups
    included: while [main] creates the workers, and from its second lock
    to its second unlock, no worker is between the lock and the unlock of
    [sync_start]; and two workers are never there together. *)
Theorem start_mutex_exclusion (N : nat) (td : Z) (t0 : timespec)
  (sched : list action) (s : sys) :
  run N td sched (sys_init t0) = Some s ->
  (main_holds (mpc s) = true ->
   forall i pc, nth_error (wpcs s) i = Some pc -> worker_holds pc = false)
  /\ (forall i j pci pcj,
         nth_error (wpcs s) i = Some pci -> nth_error (wpcs s) j = Some pcj ->
         worker_holds pci = true -> worker_holds pcj = true -> i = j).
Proof.
  intros Hrun.
  destruct (run_mutex_inv N td sched _ _ (sys_init_mutex_inv t0) Hrun) as [Hm Hw].
  split.
  - intros Hh i pc Hn. destruct (worker_holds pc) eqn:Hp; [| reflexivity].
    specialize (Hw i pc Hn Hp). rewrite (Hm Hh) in Hw. discriminate.
  - intros i j pci pcj Hi Hj Hpi Hpj.
    pose proof (Hw i pci Hi Hpi) as E1. pose proof (Hw j pcj Hj Hpj) as E2.
    congruence.
Qed.

End StartInvariants.

Section StartDeadlines.

Lemma forallb_map_wake l :
  forallb (fun pc => negb (past_wait pc)) l = true ->
  forallb before_return (map wake l) = true.
Proof.
  induction l as [| pc l IH]; intros H; [reflexivity |].
  cbn in H. apply andb_true_iff in H. destruct H as [Hpc Hl].
  cbn. apply andb_true_iff. split; [| auto].
  destruct pc; try discriminate; reflexivity.
Qed.

Lemma before_return_deadline_ok td st now_ts l :
  forallb before_return l = true -> Forall (deadline_ok td st now_ts) l.
Proof.
  induction l as [| pc l IH]; intros H; [constructor |].
  cbn in H. apply andb_true_iff in H. destruct H as [Hpc Hl].
  constructor; [| auto]. destruct pc; try discriminate; exact I.
Qed.

Lemma forallb_nth_error {A : Type} (f : A -> bool) l i x :
  forallb f l = true -> nth_error l i = Some x -> f x = true.
Proof.
  intros H Hn. rewrite forallb_forall in H. apply H.
  eapply nth_error_In. exact Hn.
Qed.

Lemma worker_deadline_after td a b :
  0 <= td < 2 ^ 8 -> time_ok a -> time_ok b ->
  timespec_older a b <> 0 ->
  timespec_older (worker_deadline td a)
    {| tv_sec := tv_sec b + td; tv_nsec := tv_nsec b |} <> 0.
Proof.
  unfold time_ok. intros Htd Ha Hb H.
  apply timespec_older_spec in H. apply timespec_older_spec.
  unfold worker_deadline; cbn [tv_sec tv_nsec].
  rewrite !s64_id by (unfold is_s64; lia). lia.
Qed.

Lemma step_start_inv N td a s s' :
  0 <= td < 2 ^ 8 ->
  (forall i, a <> Spurious i) ->
  (forall ts, a = Tick ts -> time_ok ts) ->
  mutex_inv s -> start_inv td s -> step N td a s = Some s' -> start_inv td s'.
Proof.
  unfold start_inv. intros Htd Hns Htick [Hm Hw] (H2 & H3 & H4 & H5 & H6) Hstep.
  destruct a as [ts | | i | i]; cbn [step] in Hstep.
  - destruct (Z.eqb_spec (timespec_older ts (now s)) 0) as [| Hts]; [discriminate |].
    injection Hstep as <-. cbn.
    split; [exact H2 |]. split; [exact H3 |]. split.
    { intros Hs. destruct (H4 Hs) as (t & Et & Ht & Hok).
      exists t. split; [exact Et |]. split; [| exact Hok].
      eapply timespec_older_trans; eassumption. }
    split; [| apply Htick; reflexivity].
    eapply Forall_impl; [| exact H5]. intros pc Hpc.
    destruct pc; try exact Hpc.
    destruct Hpc as (t & Et & Ht). exists t. split; [exact Et |].
    eapply timespec_older_trans; [exact Hts | exact Ht].
  - unfold step_main in Hstep.
    destruct (mpc s) as [k | i | | | | | i |] eqn:Hpc;
      cbn [main_before_broadcast main_stamping main_started] in H2, H3, H4.
    + destruct (k <? N)%nat; injection Hstep as <-; cbn.
      * split.
        { intros _. rewrite forallb_app, (H2 eq_refl). reflexivity. }
        split; [discriminate |]. split; [discriminate |].
        split; [| exact H6].
        apply Forall_app. split; [exact H5 | repeat constructor].
      * split; [intros _; exact (H2 eq_refl) |].
        split; [discriminate |]. split; [discriminate |].
        split; assumption.
    + destruct (i <? N)%nat.
      * destruct (nth_error (wpcs s) i) as [[| | | | | | | e |] |];
          try discriminate; injection Hstep as <-; cbn;
          try (rewrite Hpc; cbn);
          (split; [intros _; exact (H2 eq_refl) |];
           split; [discriminate |]; split; [discriminate |];
           split; assumption).
      * injection Hstep as <-. cbn.
        split; [intros _; exact (H2 eq_refl) |].
        split; [discriminate |]. split; [discriminate |].
        split; assumption.
    + destruct (mutex_free s); [| discriminate]. injection Hstep as <-. cbn.
      split; [intros _; exact (H2 eq_refl) |].
      split; [discriminate |]. split; [discriminate |].
      split; assumption.
    + injection Hstep as <-. cbn.
      split; [discriminate |].
      split; [intros _; apply forallb_map_wake; exact (H2 eq_refl) |].
      split; [discriminate |].
      split; [| exact H6].
      apply before_return_deadline_ok, forallb_map_wake. exact (H2 eq_refl).
    + injection Hstep as <-. cbn.
      split; [discriminate |].
      split; [intros _; exact (H3 eq_refl) |].
      split.
      { intros _. exists (now s). split; [reflexivity |].
        split; [| exact H6]. apply timespec_older_spec. lia. }
      split; [| exact H6].
      apply before_return_deadline_ok. exact (H3 eq_refl).
    + injection Hstep as <-. cbn.
      split; [discriminate |]. split; [discriminate |].
      split; [intros _; exact (H4 eq_refl) |].
      split; assumption.
    + destruct (i <? N)%nat.
      * destruct (nth_error (wpcs s) i) as [[| | | | | | | e |] |];
          try discriminate; injection Hstep as <-; cbn.
        split; [discriminate |]. split; [discriminate |].
        split; [intros _; exact (H4 eq_refl) |].
        split; assumption.
      * injection Hstep as <-. cbn.
        split; [discriminate |]. split; [discriminate |].
        split; [intros _; exact (H4 eq_refl) |].
        split; assumption.
    + discriminate.
  - unfold step_worker in Hstep.
    destruct (nth_error (wpcs s) i) as [pc |] eqn:Hnth; [| discriminate].
    assert (Hpre : main_before_broadcast (mpc s) = true -> past_wait pc = false).
    { intros Hb. pose proof (forallb_nth_error _ _ _ _ (H2 Hb) Hnth) as Hp.
      cbn beta in Hp. apply negb_true_iff in Hp. exact Hp. }
    assert (Hst : main_stamping (mpc s) = true -> before_return pc = true).
    { intros Hb. exact (forallb_nth_error _ _ _ _ (H3 Hb) Hnth). }
    destruct pc; try discriminate.
    + (* W_created *)
      injection Hstep as <-. cbn.
      split; [intros Hb; apply forallb_set_nth; auto |].
      split; [intros Hb; apply forallb_set_nth; auto |].
      split; [exact H4 |].
      split; [apply Forall_set_nth; [exact H5 | exact I] | exact H6].
    + (* W_ready *)
      destruct (mutex_free s); [| discriminate]. injection Hstep as <-. cbn.
      split; [intros Hb; apply forallb_set_nth; auto |].
      split; [intros Hb; apply forallb_set_nth; auto |].
      split; [exact H4 |].
      split; [apply Forall_set_nth; [exact H5 | exact I] | exact H6].
    + (* W_locked *)
      injection Hstep as <-. cbn.
      split; [intros Hb; apply forallb_set_nth; auto |].
      split; [intros Hb; apply forallb_set_nth; auto |].
      split; [exact H4 |].
      split; [apply Forall_set_nth; [exact H5 | exact I] | exact H6].
    + (* W_woken *)
      destruct (mutex_free s) eqn:Hf; [| discriminate].
      apply mutex_free_none in Hf. injection Hstep as <-. cbn.
      split; [intros Hb; specialize (Hpre Hb); discriminate |].
      split.
      { intros Hb. exfalso.
        assert (Hh : main_holds (mpc s) = true)
          by (destruct (mpc s); try discriminate; reflexivity).
        specialize (Hm Hh). congruence. }
      split; [exact H4 |].
      split; [apply Forall_set_nth; [exact H5 | exact I] | exact H6].
    + (* W_returned *)
      injection Hstep as <-. cbn.
      split; [intros Hb; specialize (Hpre Hb); discriminate |].
      split; [intros Hb; specialize (Hst Hb); discriminate |].
      split; [exact H4 |].
      split; [apply Forall_set_nth; [exact H5 | exact I] | exact H6].
    + (* W_released *)
      injection Hstep as <-. cbn.
      split; [intros Hb; specialize (Hpre Hb); discriminate |].
      split; [intros Hb; specialize (Hst Hb); discriminate |].
      split; [exact H4 |].
      split; [| exact H6].
      apply Forall_set_nth; [exact H5 |]. cbn [deadline_ok].
      assert (Hs : main_started (mpc s) = true).
      { destruct (mpc s); cbn in Hpre, Hst |- *; try reflexivity;
          try (specialize (Hpre eq_refl); discriminate). 
        specialize (Hst eq_refl). discriminate. }
      destruct (H4 Hs) as (t & Et & Ht & Hok).
      exists t. split; [exact Et |].
      apply worker_deadline_after; assumption.
    + (* W_running *)
      destruct (Z.eqb_spec (timespec_older (now s) end_ts) 0) as [Hz | Hnz];
        injection Hstep as <-.
      * repeat (split; [assumption |]). assumption.
      * cbn.
        split; [intros Hb; specialize (Hpre Hb); discriminate |].
        split; [intros Hb; specialize (Hst Hb); discriminate |].
        split; [exact H4 |].
        split; [apply Forall_set_nth; [exact H5 |] | exact H6].
        pose proof H5 as H5'. rewrite Forall_forall in H5'.
        destruct (H5' _ (nth_error_In _ _ Hnth)) as (t & Et & He).
        exists t. split; [exact Et |].
        eapply timespec_older_trans; [exact Hnz | exact He].
  - exfalso. apply (Hns i). reflexivity.
Qed.

Lemma run_start_inv N td sched :
  0 <= td < 2 ^ 8 -> no_spurious sched -> ticks_ok sched ->
  forall s s',
    mutex_inv s -> start_inv td s -> run N td sched s = Some s' ->
    start_inv td s'.
Proof.
  intros Htd. induction sched as [| a sched IH]; intros Hns Htk s s' Hmx Hinv Hrun;
    cbn in Hrun.
  - injection Hrun as <-. exact Hinv.
  - destruct (step N td a s) as [s1 |] eqn:Hstep; [| discriminate].
    apply (IH ltac:(intros i Hin; apply (Hns i); right; exact Hin)
              ltac:(intros ts Hin; apply Htk; right; exact Hin) s1 s');
      [| | exact Hrun].
    + apply (step_mutex_inv N td a s s1); assumption.
    + apply (step_start_inv N td a s s1); try assumption.
      * intros i ->. apply (Hns i). left. reflexivity.
      * intros ts ->. apply Htk. left. reflexivity.
Qed.

Lemma sys_init_start_inv td t0 : time_ok t0 -> start_inv td (sys_init t0).
Proof.
  intros H. unfold start_inv. cbn.
  split; [reflexivity |]. split; [discriminate |]. split; [discriminate |].
  split; [constructor | exact H].
Qed.

(** X26: on a schedule without spurious wake-ups, the deadline [e] that a
    running worker has set is not before the instant [start_ts] that
    [main] has recorded after its broadcast, plus the test duration: [e]
    is at or after ([tv_sec start_ts + td], [tv_nsec start_ts]); and when
    a worker has terminated the clock is at or after that instant: no
    worker stops before the test has lasted [conf_td] seconds. *)
Theorem deadline_not_before_start (N : nat) (td : Z) (t0 : timespec)
  (sched : list action) (s : sys) :
  0 <= td < 2 ^ 8 -> time_ok t0 -> no_spurious sched -> ticks_ok sched ->
  run N td sched (sys_init t0) = Some s ->
  (forall i e,
      nth_error (wpcs s) i = Some (W_running e) ->
      exists t,
        start_ts s = Some t
        /\ timespec_older e
             {| tv_sec := tv_sec t + td; tv_nsec := tv_nsec t |} <> 0)
  /\ (forall i,
         nth_error (wpcs s) i = Some W_terminated ->
         exists t,
           start_ts s = Some t
           /\ timespec_older (now s)
                {| tv_sec := tv_sec t + td; tv_nsec := tv_nsec t |} <> 0).
Proof.
  intros Htd Ht0 Hns Htk Hrun.
  destruct (run_start_inv N td sched Htd Hns Htk _ _ (sys_init_mutex_inv t0)
              (sys_init_start_inv td t0 Ht0) Hrun) as (_ & _ & _ & H5 & _).
  rewrite Forall_forall in H5.
  split.
  - intros i e Hn. exact (H5 _ (nth_error_In _ _ Hn)).
  - intros i Hn. exact (H5 _ (nth_error_In _ _ Hn)).
Qed.

Lemma deadline_not_before_start_witness :
  (forall i e,
      nth_error
        (wpcs {| mpc := M_join 0;
                 wpcs := [W_running (mkts 105 500); W_running (mkts 105 900)];
                 mutex := None; broadcasts := 1; now := mkts 100 900;
                 start_ts := Some (mkts 100 0) |}) i = Some (W_running e) ->
      exists t,
        start_ts {| mpc := M_join 0;
                    wpcs := [W_running (mkts 105 500); W_running (mkts 105 900)];
                    mutex := None; broadcasts := 1; now := mkts 100 900;
                    start_ts := Some (mkts 100 0) |} = Some t
        /\ timespec_older e
             {| tv_sec := tv_sec t + 5; tv_nsec := tv_nsec t |} <> 0)
  /\ (forall i,
         nth_error
           (wpcs {| mpc := M_join 0;
                    wpcs := [W_running (mkts 105 500); W_running (mkts 105 900)];
                    mutex := None; broadcasts := 1; now := mkts 100 900;
                    start_ts := Some (mkts 100 0) |}) i = Some W_terminated ->
         exists t,
           start_ts {| mpc := M_join 0;
                       wpcs := [W_running (mkts 105 500); W_running (mkts 105 900)];
                       mutex := None; broadcasts := 1; now := mkts 100 900;
                       start_ts := Some (mkts 100 0) |} = Some t
           /\ timespec_older
                (now {| mpc := M_join 0;
                        wpcs := [W_running (mkts 105 500); W_running (mkts 105 900)];
                        mutex := None; broadcasts := 1; now := mkts 100 900;
                        start_ts := Some (mkts 100 0) |})
                {| tv_sec := tv_sec t + 5; tv_nsec := tv_nsec t |} <> 0).
Proof.
  apply (deadline_not_before_start 2 5 (mkts 100 0) two_workers
           {| mpc := M_join 0;
              wpcs := [W_running (mkts 105 500); W_running (mkts 105 900)];
              mutex := None; broadcasts := 1; now := mkts 100 900;
              start_ts := Some (mkts 100 0) |}).
  - lia.
  - unfold time_ok. cbn. lia.
  - intros i Hin. cbn in Hin.
    repeat (destruct Hin as [Hin | Hin]; [discriminate |]). exact Hin.
  - intros ts Hin. cbn in Hin.
    repeat (destruct Hin as [Hin | Hin];
            [try discriminate; try (injection Hin as <-; unfold time_ok; cbn; lia) |]).
    contradiction.
  - vm_compute. reflexivity.
Defined.

Lemma start_mutex_exclusion_witness :
  (main_holds (mpc {| mpc := M_poll 0; wpcs := [W_running (mkts 105 0)];
                      mutex := None; broadcasts := 0; now := mkts 100 0;
                      start_ts := None |}) = true ->
   forall i pc,
     nth_error (wpcs {| mpc := M_poll 0; wpcs := [W_running (mkts 105 0)];
                        mutex := None; broadcasts := 0; now := mkts 100 0;
                        start_ts := None |}) i = Some pc ->
     worker_holds pc = false)
  /\ (forall i j pci pcj,
         nth_error (wpcs {| mpc := M_poll 0; wpcs := [W_running (mkts 105 0)];
                            mutex := None; broadcasts := 0; now := mkts 100 0;
                            start_ts := None |}) i = Some pci ->
         nth_error (wpcs {| mpc := M_poll 0; wpcs := [W_running (mkts 105 0)];
                            mutex := None; broadcasts := 0; now := mkts 100 0;
                            start_ts := None |}) j = Some pcj ->
         worker_holds pci = true -> worker_holds pcj = true -> i = j).
Proof.
  apply (start_mutex_exclusion 1 5 (mkts 100 0) spurious_wakeup).
  vm_compute. reflexivity.
Defined.

End StartDeadlines.

Section LateWorker.






(** X28: from the start of [main], on a schedule without spurious
    wake-ups: as long as [main] has not called [pthread_cond_broadcast],
    nothing has been broadcast and no worker has left
    [pthread_cond_wait]. *)
Theorem no_release_before_broadcast (N : nat) (td : Z) (t0 : timespec)
  (sched : list action) (s : sys) :
  no_spurious sched ->
  run N td sched (sys_init t0) = Some s ->
  main_before_broadcast (mpc s) = true ->
  broadcasts s = O
  /\ forall i pc, nth_error (wpcs s) i = Some pc -> past_wait pc = false.
Proof.
  intros Hns Hrun Hb.
  assert (Hgen : forall sched s0 s,
             run N td sched s0 = Some s ->
             (main_before_broadcast (mpc s0) = true -> broadcasts s0 = O) ->
             main_before_broadcast (mpc s) = true -> broadcasts s = O).
  { clear. induction sched as [| a sched IH]; intros s0 s Hrun H0 Hb; cbn in Hrun.
    - injection Hrun as <-. auto.
    - destruct (step N td a s0) as [s1 |] eqn:Hstep; [| discriminate].
      apply (IH s1 s Hrun); [| exact Hb]. clear IH Hrun Hb.
      destruct a as [ts | | i | i]; cbn [step] in Hstep.
      + destruct (timespec_older ts (now s0) =? 0); [discriminate |].
        injection Hstep as <-. exact H0.
      + unfold step_main in Hstep.
        destruct (mpc s0) as [k | k | | | | | k |]; cbn in H0.
        * destruct (k <? N)%nat; injection Hstep as <-; cbn; auto.
        * destruct (k <? N)%nat.
          -- destruct (nth_error (wpcs s0) k) as [[| | | | | | | e |] |];
               try discriminate; injection Hstep as <-; cbn; auto.
          -- injection Hstep as <-. cbn. auto.
        * destruct (mutex_free s0); [| discriminate].
          injection Hstep as <-. cbn. auto.
        * injection Hstep as <-. cbn. discriminate.
        * injection Hstep as <-. cbn. discriminate.
        * injection Hstep as <-. cbn. discriminate.
        * destruct (k <? N)%nat.
          -- destruct (nth_error (wpcs s0) k) as [[| | | | | | | e |] |];
               try discriminate; injection Hstep as <-; cbn; discriminate.
          -- injection Hstep as <-. cbn. discriminate.
        * discriminate.
      + unfold step_worker in Hstep.
        destruct (nth_error (wpcs s0) i) as [pc |]; [| discriminate].
        destruct pc; try discriminate;
          try (destruct (mutex_free s0); [| discriminate]);
          try (destruct (timespec_older (now s0) end_ts =? 0));
          injection Hstep as <-; cbn; exact H0.
      + destruct (nth_error (wpcs s0) i) as [[| | | | | | | e |] |];
          try discriminate.
        injection Hstep as <-. cbn. exact H0. }
  pose proof (Hgen sched (sys_init t0) s Hrun ltac:(intros _; reflexivity) Hb)
    as Hbc.
  split; [exact Hbc |].
  intros i pc Hn.
  assert (Hinv : released_after_broadcast s).
  { apply (run_released_after_broadcast N td sched Hns (sys_init t0) s);
      [| exact Hrun].
    intros _. reflexivity. }
  pose proof (forallb_nth_error _ _ _ _ (Hinv Hbc) Hn) as Hp.
  cbn beta in Hp. apply negb_true_iff in Hp. exact Hp.
Qed.

Lemma no_release_before_broadcast_witness :
  broadcasts {| mpc := M_poll 1; wpcs := [W_waiting]; mutex := None;
                broadcasts := 0; now := mkts 100 0; start_ts := None |} = O
  /\ forall i pc,
       nth_error (wpcs {| mpc := M_poll 1; wpcs := [W_waiting]; mutex := None;
                          broadcasts := 0; now := mkts 100 0;
                          start_ts := None |}) i = Some pc ->
       past_wait pc = false.
Proof.
  apply (no_release_before_broadcast 1 5 (mkts 100 0)
           [StepMain; StepMain; StepWorker O; StepWorker O; StepWorker O; StepMain]).
  - intros i Hin. cbn in Hin.
    repeat (destruct Hin as [Hin | Hin]; [discriminate |]). exact Hin.
  - vm_compute. reflexivity.
  - reflexivity.
Defined.

End LateWorker.

(** *** Counts and durations on the command line *)

Section Numerals.

Lemma digit_chars_checked :
  forallb (fun d =>
             let c := ascii_of_nat (48 + d) in
             match digit_of c with
             | Some v => v =? Z.of_nat d
             | None => false
             end
             && negb (is_space c) && negb (Ascii.eqb c "-")
             && negb (Ascii.eqb c "+"))
    (seq 0 10) = true.
Proof. vm_compute. reflexivity. Qed.

Lemma digit_char n :
  0 <= n < 10 ->
  let c := ascii_of_nat (48 + Z.to_nat n) in
  digit_of c = Some n /\ is_space c = false
  /\ Ascii.eqb c "-" = false /\ Ascii.eqb c "+" = false.
Proof.
  intros Hn c. pose proof digit_chars_checked as H.
  rewrite forallb_forall in H.
  specialize (H (Z.to_nat n) ltac:(apply in_seq; lia)). cbn beta zeta in H.
  fold c in H.
  apply andb_prop in H. destruct H as [H H4].
  apply andb_prop in H. destruct H as [H H3].
  apply andb_prop in H. destruct H as [H1 H2].
  destruct (digit_of c) as [v |]; [| discriminate].
  apply Z.eqb_eq in H1. rewrite Z2Nat.id in H1 by lia.
  apply negb_true_iff in H2, H3, H4. subst v. auto.
Qed.

(** Scanning the digits that [decimal] has written gives the number back. *)
Lemma scan_decimal :
  forall fuel n acc a,
    0 <= n < 10 ^ Z.of_nat fuel -> (0 < fuel)%nat ->
    exists k c rest,
      0 < k
      /\ decimal fuel n acc = String c rest
      /\ is_space c = false /\ Ascii.eqb c "-" = false /\ Ascii.eqb c "+" = false
      /\ scan_digits (decimal fuel n acc) a
         = scan_digits acc
             (Some (match a with Some v => v | None => 0 end * 10 ^ k + n)).
Proof.
  induction fuel as [| fuel IH]; intros n acc a Hn Hf; [lia |].
  cbn [decimal].
  assert (Hd : 0 <= n mod 10 < 10) by (apply Z.mod_pos_bound; lia).
  destruct (digit_char (n mod 10) Hd) as (Hdig & Hsp & Hm & Hp).
  pose proof (Z.div_mod n 10 ltac:(lia)) as Hdm.
  destruct (Z.eqb_spec (n / 10) 0) as [Hz | Hnz].
  - exists 1, (ascii_of_nat (48 + Z.to_nat (n mod 10))), acc.
    split; [lia |]. split; [reflexivity |].
    split; [exact Hsp |]. split; [exact Hm |]. split; [exact Hp |].
    cbn [scan_digits]. rewrite Hdig. f_equal. f_equal. lia.
  - assert (Hq : 0 <= n / 10 < 10 ^ Z.of_nat fuel).
    { split; [apply Z.div_pos; lia |].
      apply Z.div_lt_upper_bound; [lia |].
      rewrite Nat2Z.inj_succ, Z.pow_succ_r in Hn by lia. lia. }
    assert (Hf' : (0 < fuel)%nat).
    { destruct fuel; [| lia]. cbn in Hq. lia. }
    destruct (IH (n / 10)
                (String (ascii_of_nat (48 + Z.to_nat (n mod 10))) acc) a Hq Hf')
      as (k & c & rest & Hk & Hdec & Hc1 & Hc2 & Hc3 & Hscan).
    exists (k + 1), c, rest.
    split; [lia |]. split; [exact Hdec |].
    split; [exact Hc1 |]. split; [exact Hc2 |]. split; [exact Hc3 |].
    rewrite Hscan. cbn [scan_digits]. rewrite Hdig. f_equal. f_equal.
    rewrite Z.pow_add_r, Z.pow_1_r by lia. lia.
Qed.

Lemma sscanf_hhu_format_d n :
  0 <= n < 10 ^ 10 -> sscanf_hhu (format_d n) = Some (n mod 256).
Proof.
  intros Hn. unfold sscanf_hhu, scan_integer, format_d.
  destruct (scan_decimal 10 n EmptyString None Hn ltac:(lia))
    as (k & c & rest & Hk & Hdec & Hc1 & Hc2 & Hc3 & Hscan).
  cbn [scan_digits] in Hscan. rewrite Z.mul_0_l, Z.add_0_l in Hscan.
  rewrite Hdec in *. cbn [skip_spaces]. rewrite Hc1, Hc2, Hc3, Hscan.
  cbn [option_map fst snd]. unfold strtoul_value.
  destruct (Z.gtb_spec n (2 ^ 64 - 1)) as [Hgt | _]; [lia |].
  reflexivity.
Qed.

(** X29: a count of workers is taken modulo 256 without a word: for a
    number [n] below 10^10 written in decimal, [-b n] alone makes [main]
    create [n mod 256] BATCH workers; so [-b 256] creates none. *)
Theorem batch_count_wraps (n p1 p2 : Z) :
  0 <= n < 10 ^ 10 ->
  exists l,
    main_setup rt_ok [Opt "b" (format_d n)] p1 p2
    = (l, Ok (set_bw conf_init (n mod 256), n mod 256))
    /\ Z.of_nat (List.length l) = n mod 256
    /\ Forall (fun x => wd_kind (launch_data x) = WORKER_BATCH) l.
Proof.
  intros Hn. pose proof (sscanf_hhu_format_d n Hn) as Hs.
  pose proof (Z.mod_pos_bound n 256 ltac:(lia)) as Hm.
  eexists. unfold main_setup.
  cbn [parse_cmdline parse_option Ascii.eqb Bool.eqb].
  rewrite Hs, alloc_workers_batch by lia.
  cbn [sbind sret]. rewrite app_nil_r.
  split; [reflexivity |]. split.
  - rewrite length_map, length_seq. lia.
  - apply Forall_forall. intros x Hin. apply in_map_iff in Hin.
    destruct Hin as (k & <- & _). reflexivity.
Qed.

Lemma batch_count_wraps_witness :
  exists l,
    main_setup rt_ok [Opt "b" (format_d 258)] 0 0
    = (l, Ok (set_bw conf_init (258 mod 256), 258 mod 256))
    /\ Z.of_nat (List.length l) = 258 mod 256
    /\ Forall (fun x => wd_kind (launch_data x) = WORKER_BATCH) l.
Proof. apply (batch_count_wraps 258 0 0). lia. Defined.

Lemma parse_cmdline_app_inv opts1 :
  forall opts2 c c',
    parse_cmdline (opts1 ++ opts2) c = Ok c' ->
    exists c1, parse_cmdline opts1 c = Ok c1 /\ parse_cmdline opts2 c1 = Ok c'.
Proof.
  induction opts1 as [| o opts1 IH]; intros opts2 c c' H; cbn in *.
  - exists c. auto.
  - destruct (parse_option c o) as [c0 | | |]; try discriminate.
    apply IH. exact H.
Qed.

(** X30: the test duration is that of the last well-formed [-d]: when
    [parse_cmdline] returns and no well-formed [-d] follows a [-d] whose
    argument scans as [v], the duration is [v]; a malformed [-d] is
    skipped, it neither changes the duration nor ends the process. *)
Theorem duration_last_wins (opts1 opts2 : list getopt_item) (arg : string)
  (v : Z) (c : conf) :
  sscanf_hhu arg = Some v ->
  (forall arg', In (Opt "d" arg') opts2 -> sscanf_hhu arg' = None) ->
  parse_cmdline (opts1 ++ Opt "d" arg :: opts2) conf_init = Ok c ->
  conf_td c = v
  /\ forall c0 arg',
       sscanf_hhu arg' = None -> parse_option c0 (Opt "d" arg') = Ok c0.
Proof.
  intros Hv Hlast H. split.
  - apply parse_cmdline_app_inv in H. destruct H as (c1 & _ & H).
    cbn [parse_cmdline parse_option Ascii.eqb Bool.eqb] in H. rewrite Hv in H.
    rewrite (parse_cmdline_duration _ Hlast _ _ H). reflexivity.
  - intros c0 arg' Hnone. cbn [parse_option Ascii.eqb Bool.eqb].
    rewrite Hnone. reflexivity.
Qed.

Lemma duration_last_wins_witness :
  conf_td (mkconf 0 2 0 0 0 9 None None None) = 9
  /\ forall c0 arg',
       sscanf_hhu arg' = None -> parse_option c0 (Opt "d" arg') = Ok c0.
Proof.
  apply (duration_last_wins [Opt "d" "3"%string]
           [Opt "b" "2"%string; Opt "d" "soon"%string] "9"%string 9
           (mkconf 0 2 0 0 0 9 None None None)).
  - vm_compute. reflexivity.
  - intros arg' Hin. cbn in Hin.
    destruct Hin as [Hin | [Hin | []]]; [discriminate |].
    injection Hin as <-. vm_compute. reflexivity.
  - vm_compute. reflexivity.
Defined.

End Numerals.

(** ** The run of a worker up to its deadline *)

Section WorkerTermination.

Variable E : env.
Variable step : Z.
Variable horizon : Z.

Hypothesis Hmono : clock_monotone E.
Hypothesis Hsane : clock_sane E.
Hypothesis Hstep0 : 0 <= step.
Hypothesis Hstep : clock_step E step.
Hypothesis Hreach : clock_gets_to E horizon.

(** The clock passes every instant whose seconds are below the horizon. *)
Lemma clock_passes t :
  tv_sec t < horizon ->
  exists j, forall i, (j <= i)%nat -> timespec_older (clock E i) t <> 0.
Proof.
  intros Ht. destruct Hreach as [j Hj]. exists j. intros i Hle.
  eapply timespec_older_trans; [apply Hmono; exact Hle |].
  apply timespec_older_spec. lia.
Qed.

Lemma before_seconds a b : timespec_older a b = 0 -> tv_sec a <= tv_sec b.
Proof.
  intros H. destruct (Z.le_gt_cases (tv_sec a) (tv_sec b)) as [Hle | Hgt];
    [exact Hle |].
  exfalso. assert (Hn : timespec_older a b <> 0)
    by (apply timespec_older_spec; lia).
  contradiction.
Qed.

(** The polling loop returns when its deadline is below the horizon, and
    the reading that follows is not far after the deadline. *)
Lemma spin_until_bounded end_ts :
  tv_sec end_ts < horizon ->
  forall s B,
    tv_sec (clock E (clk s)) <= B ->
    exists fuel s',
      spin_until E fuel end_ts s = Done s' /\ (clk s < clk s')%nat
      /\ tv_sec (clock E (clk s')) <= Z.max B (tv_sec end_ts + step) + step.
Proof.
  intros Hend. destruct (clock_passes end_ts Hend) as [j Hj].
  intros s. remember (j - clk s)%nat as d eqn:Hd.
  revert s Hd. induction d as [| d IH]; intros s Hd B HB.
  - exists 1%nat. eexists. cbn.
    destruct (Z.eqb_spec (timespec_older (clock E (clk s)) end_ts) 0) as [Hz | _].
    + exfalso. apply (Hj (clk s)); [lia | exact Hz].
    + split; [reflexivity |]. cbn [clk]. split; [lia |].
      pose proof (Hstep (clk s)). lia.
  - destruct (Z.eqb_spec (timespec_older (clock E (clk s)) end_ts) 0) as [Hz | Hnz].
    + destruct (IH (busy_loop (snd (clock_gettime E s))) ltac:(cbn; lia)
                  (tv_sec end_ts + step)) as (fuel & s' & Hrun & Hclk & Hb).
      { cbn [clock_gettime snd busy_loop emit clk].
        pose proof (Hstep (clk s)). pose proof (before_seconds _ _ Hz). lia. }
      exists (S fuel), s'. cbn [spin_until]. cbn [clock_gettime] in *.
      rewrite Hz. cbn [Z.eqb]. cbn [snd] in Hrun, Hclk.
      split; [exact Hrun |]. split; [cbn in Hclk; lia | lia].
    + exists 1%nat. eexists. cbn.
      destruct (Z.eqb_spec (timespec_older (clock E (clk s)) end_ts) 0);
        [contradiction |].
      split; [reflexivity |]. cbn [clk]. split; [lia |].
      pose proof (Hstep (clk s)). lia.
Qed.

Lemma yield_loop_returns interval end_ts :
  tv_sec end_ts < horizon ->
  forall yield_ts s,
  exists fuel s',
    yield_loop E fuel interval end_ts yield_ts s = Done s' /\ (clk s < clk s')%nat.
Proof.
  intros Hend. destruct (clock_passes end_ts Hend) as [j Hj].
  intros yield_ts s. remember (j - clk s)%nat as d eqn:Hd.
  revert yield_ts s Hd. induction d as [| d IH]; intros yield_ts s Hd.
  - exists 1%nat. eexists. cbn.
    destruct (Z.eqb_spec (timespec_older (clock E (clk s)) end_ts) 0) as [Hz | _].
    + exfalso. apply (Hj (clk s)); [lia | exact Hz].
    + split; [reflexivity | cbn; lia].
  - destruct (Z.eqb_spec (timespec_older (clock E (clk s)) end_ts) 0) as [Hz | Hnz].
    + destruct (timespec_older (clock E (clk s)) yield_ts =? 0) eqn:Hy.
      * destruct (IH yield_ts (snd (clock_gettime E s))) as (fuel & s' & Hrun & Hclk).
        { cbn. lia. }
        exists (S fuel), s'. cbn [yield_loop]. cbn [clock_gettime] in *.
        rewrite Hz, Hy. cbn [Z.eqb]. cbn [snd] in Hrun, Hclk.
        split; [exact Hrun | cbn in Hclk; lia].
      * destruct (IH (timespec_add_us yield_ts interval)
                    (emit EvYield (snd (clock_gettime E s))))
          as (fuel & s' & Hrun & Hclk).
        { cbn. lia. }
        exists (S fuel), s'. cbn [yield_loop]. cbn [clock_gettime] in *.
        rewrite Hz, Hy. cbn [Z.eqb]. cbn [snd] in Hrun, Hclk.
        split; [exact Hrun | cbn in Hclk; lia].
    + exists 1%nat. eexists. cbn.
      destruct (Z.eqb_spec (timespec_older (clock E (clk s)) end_ts) 0);
        [contradiction |].
      split; [reflexivity | cbn; lia].
Qed.

Lemma periodic_process_u32 P D p : periodic_process P D = Some p -> is_u32 p.
Proof.
  unfold periodic_process, uint32_of_double.
  destruct (double_trunc _) as [z |]; [| discriminate].
  destruct (Z.leb_spec 0 z) as [H0 | H0];
    destruct (Z.ltb_spec z (2 ^ 32)) as [H1 | H1]; cbn [andb];
    try discriminate.
  intros Heq. injection Heq as <-. unfold is_u32. lia.
Qed.

(** The seconds of a deadline set from a clock reading. *)
Lemma deadline_seconds i d :
  is_u32 d ->
  tv_sec (timespec_add_us (clock E i) d) <= tv_sec (clock E i) + 4296.
Proof.
  intros Hd. destruct (Hsane i) as [Hn Hr].
  destruct (add_us_facts (clock E i) d Hn ltac:(unfold in_range; lia) Hd)
    as (_ & _ & Hs).
  lia.
Qed.

(** One invocation of the workload returns, when it starts at most [step]
    seconds after an instant [sec] that is far enough below the horizon. *)
Lemma do_workload_returns wd s sec :
  workload_defined E wd ->
  tv_sec (clock E (clk s)) <= sec + step ->
  sec + 3 * step + 8592 < horizon ->
  exists fuel s', do_workload E fuel wd s = Done s' /\ (clk s <= clk s')%nat.
Proof.
  unfold workload_defined, do_workload. intros Hdef Hs Hh.
  destruct (wd_kind wd).
  - exists O. eexists. split; [reflexivity | cbn; lia].
  - destruct Hdef as (Hi & Hd & Hr).
    unfold worker_interactive. cbn [next_random].
    destruct (normal_random_bounded _ _ Hi (Hr (rnd s))) as (delay & -> & _).
    cbn [of_option bind usleep emit rnd].
    destruct (normal_random_bounded _ _ Hd (Hr (S (rnd s))))
      as (process & -> & Hp).
    cbn [of_option bind clock_gettime clk rnd trace].
    pose proof (deadline_seconds (clk s) process
                  ltac:(unfold is_u32 in *; lia)) as Hdl.
    destruct (spin_until_bounded
                (timespec_add_us (clock E (clk s)) process) ltac:(lia)
                {| clk := S (clk s); rnd := S (S (rnd s));
                   trace := trace s ++ [EvUsleep delay] |}
                (tv_sec (clock E (S (clk s)))) ltac:(cbn [clk]; lia))
      as (fuel & s' & Hrun & Hclk & _).
    exists fuel, s'. split; [exact Hrun | cbn in Hclk; lia].
  - destruct Hdef as (process & Hp).
    unfold worker_periodic. rewrite Hp.
    cbn [of_option bind clock_gettime usleep emit clk rnd trace].
    pose proof (deadline_seconds (clk s) process
                  (periodic_process_u32 _ _ _ Hp)) as Hdl.
    destruct (spin_until_bounded
                (timespec_add_us (clock E (clk s)) process) ltac:(lia)
                {| clk := S (clk s); rnd := rnd s;
                   trace := trace s
                            ++ [EvUsleep (periodic_sleep (period_duration wd)
                                            process)] |}
                (tv_sec (clock E (S (clk s)))) ltac:(cbn [clk]; lia))
      as (fuel & s' & Hrun & Hclk & _).
    exists fuel, s'. split; [exact Hrun | cbn in Hclk; lia].
  - unfold worker_yield. cbn [clock_gettime].
    pose proof (deadline_seconds (clk s) (yield_period wd) Hdef) as Hdl1.
    pose proof (Hstep (clk s)) as Hs1.
    destruct (spin_until_bounded
                (timespec_add_us (clock E (clk s)) (yield_period wd)) ltac:(lia)
                {| clk := S (clk s); rnd := rnd s; trace := trace s |}
                (sec + 2 * step) ltac:(cbn [clk]; lia))
      as (fuel1 & s1 & Hrun1 & Hclk1 & Hb1).
    pose proof (deadline_seconds (clk s1) (yield_period wd) Hdef) as Hdl2.
    destruct (yield_loop_returns (yield_interval wd)
                (timespec_add_us (clock E (clk s1)) (yield_period wd)) ltac:(lia)
                (timespec_add_us (clock E (S (clk s1))) (yield_interval wd))
                {| clk := S (S (clk s1)); rnd := rnd s1; trace := trace s1 |})
      as (fuel2 & s2 & Hrun2 & Hclk2).
    exists (Nat.max fuel1 fuel2), s2.
    rewrite (spin_until_mono _ _ _ _ _ _ Hrun1 (Nat.le_max_l fuel1 fuel2)).
    cbn [bind clk rnd trace].
    rewrite (yield_loop_mono _ _ _ _ _ _ _ _ Hrun2 (Nat.le_max_r fuel1 fuel2)).
    split; [reflexivity | cbn in Hclk1, Hclk2; lia].
Qed.

Lemma loop_run_exists wd end_ts :
  workload_defined E wd ->
  tv_sec end_ts + 3 * step + 8592 < horizon ->
  forall s, exists k s', loop_run E end_ts wd k s s'.
Proof.
  intros Hdef Hh. destruct (clock_passes end_ts ltac:(lia)) as [j Hj].
  intros s. remember (j - clk s)%nat as d eqn:Hd.
  revert s Hd. induction d as [d IH] using lt_wf_ind. intros s Hd.
  destruct (Z.eq_dec (timespec_older (clock E (clk s)) end_ts) 0) as [Hz | Hnz].
  - destruct (do_workload_returns wd (snd (clock_gettime E s)) (tv_sec end_ts)
                Hdef) as (fuel & s1 & Hwork & Hclk).
    { cbn [clock_gettime snd clk].
      pose proof (Hstep (clk s)). pose proof (before_seconds _ _ Hz). lia. }
    { exact Hh. }
    cbn in Hclk.
    assert (Hbelow : (clk s < j)%nat).
    { destruct (Nat.lt_ge_cases (clk s) j) as [Hlt | Hge]; [exact Hlt |].
      exfalso. apply (Hj (clk s) Hge). exact Hz. }
    destruct (IH (j - clk s1)%nat ltac:(lia) s1 eq_refl) as (k & s' & Hrun).
    exists (S k), s'. eapply loop_iter; eauto.
  - exists O. eexists. apply loop_stop. exact Hnz.
Qed.

End WorkerTermination.

Section WorkerDeadlineRun.

(** C9, amended: once released, a worker sets its deadline to a clock
    reading of its own plus [conf_td] seconds: the instant
    ([tv_sec] of the reading [+ td], [tv_nsec] of the reading).  On a
    clock that never goes back, whose successive readings are at most
    [step] seconds apart and that gets far enough past the deadline, its
    loop runs the workload once after each of its clock samples that is
    before the deadline, [k] times in all, and stops at the first sample
    that is at or after the deadline; it returns, and in no other
    state. *)
Theorem worker_runs_until_deadline (E : env) (td step : Z) (wd : wdata)
  (s : wstate) :
  clock_monotone E -> clock_sane E ->
  0 <= step -> clock_step E step ->
  clock_gets_to E (tv_sec (clock E (clk s)) + td + 3 * step + 8593) ->
  0 <= td < 2 ^ 8 ->
  workload_defined E wd ->
  exists k s' fuel0,
    loop_run E
      {| tv_sec := tv_sec (clock E (clk s)) + td;
         tv_nsec := tv_nsec (clock E (clk s)) |}
      wd k (snd (clock_gettime E s)) s'
    /\ (forall fuel, (fuel0 <= fuel)%nat -> worker E fuel td wd s = Done s')
    /\ (forall fuel s'', worker E fuel td wd s = Done s'' -> s'' = s').
Proof.
  intros Hmono Hsane Hstep0 Hstep Hreach Htd Hdef.
  assert (Edl : worker_deadline td (clock E (clk s))
                = {| tv_sec := tv_sec (clock E (clk s)) + td;
                     tv_nsec := tv_nsec (clock E (clk s)) |}).
  { unfold worker_deadline. destruct (Hsane (clk s)) as [_ Hr].
    rewrite s64_id by (unfold is_s64; lia). reflexivity. }
  destruct (loop_run_exists E step _ Hmono Hsane Hstep0 Hstep Hreach wd
              {| tv_sec := tv_sec (clock E (clk s)) + td;
                 tv_nsec := tv_nsec (clock E (clk s)) |} Hdef
              ltac:(cbn [tv_sec]; lia)
              (snd (clock_gettime E s))) as (k & s' & Hrun).
  destruct (worker_loop_complete E _ _ _ _ _ Hrun) as [fuel0 Hfuel].
  exists k, s', fuel0. split; [exact Hrun |]. split.
  - intros fuel Hle. unfold worker. cbn [clock_gettime]. rewrite Edl.
    apply Hfuel. exact Hle.
  - intros fuel s'' Hret. unfold worker in Hret. cbn [clock_gettime] in Hret.
    rewrite Edl in Hret.
    pose proof (worker_loop_mono E _ _ _ (Nat.max fuel fuel0) _ _ Hret
                  (Nat.le_max_l fuel fuel0)) as H1.
    pose proof (Hfuel _ (Nat.le_max_r fuel fuel0)) as H2.
    cbn [clock_gettime snd] in H2. rewrite H2 in H1.
    injection H1 as ->. reflexivity.
Qed.

Lemma worker_runs_until_deadline_witness :
  exists k s' fuel0,
    loop_run (mkenv (fun n => mkts (Z.min (Z.of_nat n) 10000) 0) (fun _ => 0))
      (mkts 5 0) (mkwdata 1 0 WORKER_BATCH (0, 0)) k (mkws 1 0 []) s'
    /\ (forall fuel, (fuel0 <= fuel)%nat ->
        worker (mkenv (fun n => mkts (Z.min (Z.of_nat n) 10000) 0) (fun _ => 0))
          fuel 5 (mkwdata 1 0 WORKER_BATCH (0, 0)) (mkws 0 0 []) = Done s')
    /\ (forall fuel s'',
          worker (mkenv (fun n => mkts (Z.min (Z.of_nat n) 10000) 0) (fun _ => 0))
            fuel 5 (mkwdata 1 0 WORKER_BATCH (0, 0)) (mkws 0 0 []) = Done s'' ->
          s'' = s').
Proof.
  apply (worker_runs_until_deadline
           (mkenv (fun n => mkts (Z.min (Z.of_nat n) 10000) 0) (fun _ => 0)) 5 1
           (mkwdata 1 0 WORKER_BATCH (0, 0)) (mkws 0 0 [])).
  - intros i j Hle. apply timespec_older_spec. cbn [clock tv_sec tv_nsec]. lia.
  - intros i. unfold normalized, S_TO_NS. cbn [clock tv_sec tv_nsec]. lia.
  - lia.
  - intros i. cbn [clock tv_sec]. lia.
  - exists (Z.to_nat 10000). cbn [clock tv_sec clk]. lia.
  - lia.
  - exact I.
Defined.

End WorkerDeadlineRun.

Section InteractiveInvocation.

Lemma add_us_amount_monotone t a b :
  normalized t -> in_range t -> is_u32 a -> is_u32 b -> a <= b ->
  timespec_older (timespec_add_us t b) (timespec_add_us t a) <> 0.
Proof.
  intros Hn Hr Ha Hb Hab.
  destruct (add_us_facts t a Hn Hr Ha) as (Na & Ea & _).
  destruct (add_us_facts t b Hn Hr Hb) as (Nb & Eb & _).
  apply (timespec_older_ns _ _ Nb Na). rewrite Ea, Eb. unfold US_TO_NS. lia.
Qed.

(** X12: one invocation of [worker_interactive], when the clock gets to
    the reading taken after the sleep plus [duration_max]: it returns; it
    draws two random numbers, sleeps once for a delay of at most
    [interval_max], reads the clock, and polls until the first reading at
    or after that reading plus a processing time of at most
    [duration_max], with one busy loop for each earlier reading; it does
    nothing else. *)
Theorem worker_interactive_invocation (E : env) (wd : wdata) (s : wstate)
  (j : nat) :
  is_u32 (interval_max wd) -> is_u32 (duration_max wd) ->
  0 <= random E (rnd s) <= RAND_MAX ->
  0 <= random E (S (rnd s)) <= RAND_MAX ->
  normalized (clock E (clk s)) -> in_range (clock E (clk s)) ->
  (S (clk s) <= j)%nat ->
  timespec_older (clock E j)
    (timespec_add_us (clock E (clk s)) (duration_max wd)) <> 0 ->
  exists delay process d,
    0 <= delay <= interval_max wd
    /\ 0 <= process <= duration_max wd
    /\ timespec_older (clock E (S (clk s) + d))
         (timespec_add_us (clock E (clk s)) process) <> 0
    /\ (forall i, (i < d)%nat ->
          timespec_older (clock E (S (clk s) + i))
            (timespec_add_us (clock E (clk s)) process) = 0)
    /\ forall fuel, (d < fuel)%nat ->
         worker_interactive E fuel wd s
         = Done {| clk := S (S (clk s) + d); rnd := S (S (rnd s));
                   trace := trace s ++ EvUsleep delay :: repeat EvBusyLoop d |}.
Proof.
  intros Hi Hd Hr1 Hr2 Hn Hr Hj Hreach.
  destruct (normal_random_bounded _ _ Hi Hr1) as (delay & Edelay & Hdelay).
  destruct (normal_random_bounded _ _ Hd Hr2) as (process & Eprocess & Hprocess).
  assert (Hend : timespec_older (clock E j)
                   (timespec_add_us (clock E (clk s)) process) <> 0).
  { eapply timespec_older_trans; [exact Hreach |].
    apply add_us_amount_monotone; try assumption; unfold is_u32 in *; lia. }
  destruct (first_index
              (fun i => negb (timespec_older (clock E i)
                                (timespec_add_us (clock E (clk s)) process) =? 0))
              (j - S (clk s)) (S (clk s))) as (d & _ & Hat & Hbefore).
  { replace (S (clk s) + (j - S (clk s)))%nat with j by lia.
    apply negb_true_iff, Z.eqb_neq. exact Hend. }
  apply negb_true_iff, Z.eqb_neq in Hat.
  assert (Hbefore' : forall i, (i < d)%nat ->
            timespec_older (clock E (S (clk s) + i))
              (timespec_add_us (clock E (clk s)) process) = 0).
  { intros i Hlt. apply Hbefore in Hlt.
    apply negb_false_iff, Z.eqb_eq in Hlt. exact Hlt. }
  exists delay, process, d.
  split; [exact Hdelay |]. split; [exact Hprocess |].
  split; [exact Hat |]. split; [exact Hbefore' |].
  intros fuel Hfuel. unfold worker_interactive. cbn [next_random].
  rewrite Edelay. cbn [of_option bind usleep emit rnd clk trace].
  rewrite Eprocess. cbn [of_option bind clock_gettime clk rnd trace].
  rewrite (spin_until_exact E _ d); cbn [clk rnd trace]; try assumption.
  rewrite <- app_assoc. reflexivity.
Qed.

Lemma worker_interactive_invocation_witness :
  exists delay process d,
    0 <= delay <= 1000
    /\ 0 <= process <= 500
    /\ timespec_older (mkts (Z.min (Z.of_nat (S 0 + d)) 10000) 0)
         (timespec_add_us (mkts 0 0) process) <> 0
    /\ (forall i, (i < d)%nat ->
          timespec_older (mkts (Z.min (Z.of_nat (S 0 + i)) 10000) 0)
            (timespec_add_us (mkts 0 0) process) = 0)
    /\ forall fuel, (d < fuel)%nat ->
         worker_interactive
           (mkenv (fun n => mkts (Z.min (Z.of_nat n) 10000) 0)
              (fun _ => 1073741823)) fuel
           (mkwdata 1 0 WORKER_INTERACTIVE (1000, 500)) (mkws 0 0 [])
         = Done {| clk := S (S 0 + d); rnd := 2;
                   trace := [] ++ EvUsleep delay :: repeat EvBusyLoop d |}.
Proof.
  apply (worker_interactive_invocation
           (mkenv (fun n => mkts (Z.min (Z.of_nat n) 10000) 0)
              (fun _ => 1073741823))
           (mkwdata 1 0 WORKER_INTERACTIVE (1000, 500)) (mkws 0 0 []) 2).
  - unfold is_u32, interval_max. cbn. lia.
  - unfold is_u32, duration_max. cbn. lia.
  - unfold RAND_MAX. cbn. lia.
  - unfold RAND_MAX. cbn. lia.
  - unfold normalized, S_TO_NS. cbn. lia.
  - unfold in_range. cbn. lia.
  - cbn. lia.
  - vm_compute. discriminate.
Defined.

End InteractiveInvocation.

Section InteractiveDelay.





End InteractiveDelay.
